(** * portStential: the scanning engine, its worker pool and the scan registry

    A shallow embedding of
      - [scanner_tool/scanner_engine.py]   (class [ScannerEngine]),
      - [scanner_tool/threading_module.py] (class [ThreadingModule]),
      - [scanner_tool/flask_web_interface.py] (port parsing, [scan_worker],
        [complete_scan], [api_stop_scan]),
    followed by the properties of the specification that were checked
    against it.

    Conventions.
      - Python [int] is [Z]; [str] and [bytes] are [string] (characters below
        128; what Python does with other code points is not modelled).
      - A call that may raise returns [res A]; the exceptions are the
        subclasses of [Exception] that the modelled calls can produce.
      - Everything the operating system, the network or a library decides
        (connect results, received bytes, the services database, the random
        generator, the scheduler's stop signal) is a field of [World].
      - Python list objects that are shared and mutated live in a heap, so a
        caller and a callee see the same object.
      - The thread pool is one of its schedules: the submitted tasks run one
        after the other, in submission order.  What is counted below (probes,
        callback calls, pools, result keys) does not depend on the
        interleaving; what another thread does in between (a stop request)
        is placed explicitly. *)

From Stdlib Require Import ZArith String Ascii List Lia Bool.
From stdpp Require Import base option numbers list gmap strings sorting pretty.

Local Open Scope Z_scope.

(** ** Exceptions and fallible results *)

(** The exception classes that matter for the [except] clauses of the
    sources.  In Python [socket.error] is [OSError]; [socket.timeout],
    [socket.gaierror], [ConnectionRefusedError], [ssl.SSLError] and
    [ssl.CertificateError] are subclasses of [OSError]; [UnicodeError] is a
    subclass of [ValueError]. *)
Inductive exn : Type :=
  | ValueError
  | UnicodeError
  | OverflowError
  | TypeError
  | NotImplementedError
  | OSError
  | SocketTimeout
  | Gaierror
  | ConnectionRefusedError
  | SSLError
  | CertificateError
  | ZeroDivisionError
  | KeyError.

Definition is_OSError (e : exn) : bool :=
  match e with
  | OSError | SocketTimeout | Gaierror | ConnectionRefusedError
  | SSLError | CertificateError => true
  | _ => false
  end.

Definition is_socket_timeout (e : exn) : bool :=
  match e with SocketTimeout => true | _ => false end.

Inductive res (A : Type) : Type :=
  | Ok (a : A)
  | Raise (e : exn).
Arguments Ok {A} a.
Arguments Raise {A} e.

Definition rbind {A B} (m : res A) (k : A → res B) : res B :=
  match m with
  | Ok a => k a
  | Raise e => Raise e
  end.

Notation "'let!' x ':=' m 'in' k" := (rbind m (fun x => k))
  (at level 10, x name, m at level 100, k at level 200).
Notation "'let!' ' p ':=' m 'in' k" :=
  (rbind m (fun x => match x with p => k end))
  (at level 10, p pattern, m at level 100, k at level 200).

(** [try: body except <classes>: handler] *)
Definition try_except {A} (body : res A) (catches : exn → bool)
    (handler : exn → res A) : res A :=
  match body with
  | Ok a => Ok a
  | Raise e => if catches e then handler e else Raise e
  end.

(** [except Exception] and a bare [except] catch every modelled exception. *)
Definition any_exception (e : exn) : bool := true.

Definition is_Ok {A} (m : res A) : bool :=
  match m with Ok _ => true | Raise _ => false end.

(** ** Python built-ins used by the sources *)

Module Py.

Definition code (c : ascii) : nat := nat_of_ascii c.

(** [str.isspace] on one character below 256: TAB..CR, FS..US, the
    space, NEL and the no-break space. *)
Definition is_space (c : ascii) : bool :=
  ((9 <=? code c) && (code c <=? 13))%nat
  || ((28 <=? code c) && (code c <=? 32))%nat
  || (code c =? 133)%nat || (code c =? 160)%nat.

Definition is_digit (c : ascii) : bool :=
  ((48 <=? code c) && (code c <=? 57))%nat.

Definition digit_val (c : ascii) : Z := Z.of_nat (code c) - 48.

Fixpoint lstrip (s : string) : string :=
  match s with
  | String c s' => if is_space c then lstrip s' else s
  | EmptyString => EmptyString
  end.

Definition rstrip (s : string) : string :=
  String.rev (lstrip (String.rev s)).

(** [s.strip()] *)
Definition strip (s : string) : string := rstrip (lstrip s).

(** [c in s] for a one-character [c]. *)
Fixpoint contains (c : ascii) (s : string) : bool :=
  match s with
  | EmptyString => false
  | String d s' => Ascii.eqb d c || contains c s'
  end.

(** [s.split(sep)] for a one-character separator: never the empty list. *)
Fixpoint split (sep : ascii) (s : string) : list string :=
  match s with
  | EmptyString => [EmptyString]
  | String c s' =>
      if Ascii.eqb c sep then EmptyString :: split sep s'
      else match split sep s' with
           | [] => [String c EmptyString]
           | p :: ps => String c p :: ps
           end
  end.

(** The digits of a decimal literal: one or more digits, single
    underscores allowed between two digits. *)
Fixpoint digits (s : string) (acc : Z) (after_digit : bool) : option Z :=
  match s with
  | EmptyString => if after_digit then Some acc else None
  | String c s' =>
      if is_digit c then digits s' (10 * acc + digit_val c) true
      else if Ascii.eqb c "_" then
        (if after_digit then digits s' acc false else None)
      else None
  end.

(** The white space [int] skips around a literal: TAB..CR and the
    space, and NEL and the no-break space, which it reads as spaces
    ([str.strip] also takes FS..US, [int] does not). *)
Definition is_c_space (c : ascii) : bool :=
  ((9 <=? code c) && (code c <=? 13))%nat || (code c =? 32)%nat
  || (code c =? 133)%nat || (code c =? 160)%nat.

Fixpoint lstrip_c (s : string) : string :=
  match s with
  | String c s' => if is_c_space c then lstrip_c s' else s
  | EmptyString => EmptyString
  end.

Definition strip_c (s : string) : string :=
  String.rev (lstrip_c (String.rev (lstrip_c s))).

(** The number of digits of a literal; underscores and the sign do not
    count. *)
Fixpoint count_digits (s : string) : nat :=
  match s with
  | EmptyString => 0%nat
  | String c s' => ((if is_digit c then 1 else 0) + count_digits s')%nat
  end.

(** [sys.int_max_str_digits], as it is by default. *)
Definition int_max_str_digits : Z := 4300.

(** [int(s)] for a [str]: surrounding whitespace and one sign are
    accepted; anything else, and a literal of more than
    [int_max_str_digits] digits, raises [ValueError]. *)
Definition int (s : string) : res Z :=
  let t := strip_c s in
  let r := match t with
           | String "-" u => Z.opp <$> digits u 0 false
           | String "+" u => digits u 0 false
           | _ => digits t 0 false
           end in
  match r with
  | Some n =>
      if int_max_str_digits <? Z.of_nat (count_digits t)
      then Raise ValueError
      else Ok n
  | None => Raise ValueError
  end.

(** [list(range(a, b))] *)
Definition range (a b : Z) : list Z := seqZ a (b - a).

(** [sorted(l)] on integers. *)
Definition sorted (l : list Z) : list Z := merge_sort Z.le l.

(** [list(set(l))] up to the order, which [sorted] then fixes. *)
Definition set_list (l : list Z) : list Z := remove_dups l.

(** [not s] for a string. *)
Definition falsy (s : string) : bool :=
  match s with EmptyString => true | _ => false end.

End Py.

(** ** The heap of shared list objects *)

Definition loc := nat.

(** [DEFAULT_PORTS] of flask_web_interface.py is one module-level list
    object; it lives at this address. *)
Definition DEFAULT_PORTS_loc : loc := 0%nat.

Definition DEFAULT_PORTS : list Z :=
  [21; 22; 23; 25; 53; 80; 110; 123; 135; 139; 143; 389; 443; 445; 993; 995;
   1723; 3306; 3389; 5900; 8080].

(** The heap when the module has been imported. *)
Definition initial_heap : gmap loc (list Z) :=
  {[ DEFAULT_PORTS_loc := DEFAULT_PORTS ]}.

(** A new list object. *)
Definition alloc (h : gmap loc (list Z)) (l : list Z)
  : loc * gmap loc (list Z) :=
  let r := fresh (dom h) in (r, <[r := l]> h).

(** ** The world outside the program *)

(** Which connection to a port a plain socket is opened for. *)
Inductive purpose : Type := ForProbe | ForBanner | ForHttp.

(** What one [recv] on the HTTP connection finds: bytes that have arrived
    (the empty string is the closed stream), or an exception. *)
Inductive recv_event : Type :=
  | Data (bytes : string)
  | RecvRaise (e : exn).

(** The dictionary [ssock.getpeercert()] returns; an absent key is [None]. *)
Record cert : Type := mkCert {
  c_subject : option (list (list (string * string)));
  c_issuer : option (list (list (string * string)));
  c_notBefore : option string;
  c_notAfter : option string;
  c_version : option Z;
  c_serialNumber : option string;
  c_signatureAlgorithm : option string
}.

(** Durations are in milliseconds. *)
Record World : Type := mkWorld {
  (** [socket.socket(AF_INET, SOCK_STREAM)] *)
  w_socket : purpose → string → Z → res unit;
  (** [s.connect_ex((host, port))] under a timeout: the error code *)
  w_connect_ex : Z → string → Z → res Z;
  (** [s.connect((host, port))] *)
  w_connect : purpose → string → Z → res unit;
  (** banner connection: first [recv], [send] of CRLF, second [recv] *)
  w_recv_first : string → Z → res string;
  w_send_crlf : string → Z → res unit;
  w_recv_second : string → Z → res string;
  (** HTTP connection: [wrap_socket], [send] of the request, what arrives *)
  w_wrap_socket : string → Z → res unit;
  w_send_head : string → Z → res unit;
  w_http_stream : string → Z → list recv_event;
  (** [socket.create_connection((host, port), timeout=2)], once the host
      name is encoded *)
  w_create_connection : string → Z → res unit;
  (** the handshake of [context.wrap_socket] on that connection and
      [getpeercert] *)
  w_peercert : string → Z → res cert;
  (** the system services database behind [socket.getservbyport] *)
  w_services : Z → option string;
  (** [socket.gethostbyname] *)
  w_gethostbyname : string → res string;
  (** [bytes.decode('utf-8', errors='ignore')] *)
  w_decode : string → string;
  (** [re.search(pattern, s)]: the groups of the first match *)
  w_re_search : string → string → option (list string);
  (** [os.cpu_count()] *)
  w_cpu_count : option positive;
  (** the draws of [random.shuffle], by loop index *)
  w_random : nat → nat;
  (** the tick at which another thread calls [ThreadingModule.stop] *)
  w_stop_at : option nat;
  (** whether waiting 30 s for the i-th future times out *)
  w_future_timeout : nat → bool;
  (** [int((completed / total) * 100)] in floating point *)
  w_percent : Z → Z → Z;
  (** [str(e)] *)
  w_str_exn : exn → string
}.

(** ** scanner_engine.py *)

(** The file defines [SERVICE_MAP] and the class [ScannerEngine] twice; the
    second definition (the one with [scan_ports]) is the one in effect, and
    the methods both have are the same. *)
Module scanner_engine.

Definition SERVICE_MAP : gmap Z string :=
  list_to_map
    [(21, "FTP"); (22, "SSH"); (23, "Telnet"); (25, "SMTP"); (53, "DNS");
     (80, "HTTP"); (110, "POP3"); (123, "NTP"); (137, "NetBIOS");
     (138, "NetBIOS"); (139, "NetBIOS"); (143, "IMAP"); (389, "LDAP");
     (443, "HTTPS"); (445, "SMB"); (993, "IMAPS"); (995, "POP3S");
     (1723, "PPTP"); (3306, "MySQL"); (3389, "RDP"); (5900, "VNC");
     (8080, "HTTP-Proxy")]%string.

(** The fields [__init__] sets. *)
Record ScannerEngine : Type := mkEngine {
  timeout : Z;
  banner_timeout : Z;
  ssl_timeout : Z
}.

Definition init : ScannerEngine :=
  {| timeout := 1000; banner_timeout := 3000; ssl_timeout := 5000 |}.

Definition set_timeout (self : ScannerEngine) (t : Z) : ScannerEngine :=
  {| timeout := t; banner_timeout := banner_timeout self;
     ssl_timeout := ssl_timeout self |}.

(** *** Socket calls as Python exposes them *)

Definition port_in_range (port : Z) : bool :=
  (0 <=? port) && (port <=? 65535).

(** [s.settimeout(t)] refuses a negative value. *)
Definition settimeout (t : Z) : res unit :=
  if t <? 0 then Raise ValueError else Ok tt.

(** [s.connect_ex((host, port))]: a port outside 0..65535 raises before
    anything is sent. *)
Definition connect_ex (w : World) (t : Z) (host : string) (port : Z)
  : res Z :=
  if port_in_range port then w_connect_ex w t host port
  else Raise OverflowError.

Definition connect (w : World) (p : purpose) (host : string) (port : Z)
  : res unit :=
  if port_in_range port then w_connect w p host port
  else Raise OverflowError.

(** [s.recv(n)] returns at most [n] bytes of what the peer sent. *)
Definition recv_n (n : nat) (arrived : res string) : res string :=
  let! data := arrived in Ok (substring 0 n data).

(** [socket.getservbyport(port)] *)
Definition getservbyport (w : World) (port : Z) : res string :=
  if port_in_range port then
    match w_services w port with
    | Some name => Ok name
    | None => Raise OSError
    end
  else Raise OverflowError.

(** *** test_port *)

Definition test_port_try (w : World) (self : ScannerEngine)
    (host : string) (port : Z) : res bool :=
  let! s := w_socket w ForProbe host port in
  let! _ := settimeout (timeout self) in
  let! result := connect_ex w (timeout self) host port in
  Ok (result =? 0).

Definition test_port (w : World) (self : ScannerEngine)
    (host : string) (port : Z) : res bool :=
  try_except (test_port_try w self host port)
    any_exception (fun _ => Ok false).

(** *** fetch_service_info *)

Definition fetch_service_info (w : World) (port : Z) : res string :=
  try_except
    (match SERVICE_MAP !! port with
     | Some name => Ok name
     | None => getservbyport w port
     end)
    is_OSError (fun _ => Ok "Unknown"%string).

(** *** grab_protocol_banner *)

(** [data.decode('utf-8', errors='ignore').strip()] when [data] is not
    empty, else the banner stays empty. *)
Definition banner_of (w : World) (data : string) : string :=
  if Py.falsy data then ""%string else Py.strip (w_decode w data).

Definition grab_protocol_banner (w : World) (self : ScannerEngine)
    (host : string) (port : Z) : res string :=
  try_except
    (let! s := w_socket w ForBanner host port in
     let! _ := settimeout (banner_timeout self) in
     let! _ := connect w ForBanner host port in
     let! banner :=
       try_except
         (let! data := recv_n 1024 (w_recv_first w host port) in
          Ok (banner_of w data))
         is_socket_timeout
         (fun _ =>
            try_except
              (let! _ := w_send_crlf w host port in
               let! data := recv_n 1024 (w_recv_second w host port) in
               Ok (banner_of w data))
              any_exception (fun _ => Ok ""%string)) in
     Ok banner)
    any_exception (fun _ => Ok ""%string).

(** *** grab_http_banner *)

Record http_info : Type := mkHttp {
  h_banner : string;
  h_server : string;
  h_version : string
}.

Definition CRLF : string := String "013" (String "010" EmptyString).

(** [text.split(sep)[0]] *)
Fixpoint before_sep (sep text : string) : string :=
  match text with
  | EmptyString => EmptyString
  | String c text' =>
      if String.prefix sep text then EmptyString
      else String c (before_sep sep text')
  end.

(** [m.group(i)] of a match. *)
Definition group (i : nat) (m : list string) : string :=
  nth (i - 1) m ""%string.

(** One [s.recv(n)] on a stream: at most [n] bytes of the first segment,
    the rest of it stays for the next call; a finished stream reads as
    closed. *)
Definition recv (n : nat) (stream : list recv_event)
  : res string * list recv_event :=
  match stream with
  | [] => (Ok ""%string, [])
  | RecvRaise e :: rest => (Raise e, rest)
  | Data d :: rest =>
      if (String.length d <=? n)%nat then (Ok d, rest)
      else (Ok (substring 0 n d),
            Data (substring n (String.length d - n) d) :: rest)
  end.

(** The [while True] loop that accumulates [response]; [None] is
    running out of [fuel]. *)
Fixpoint recv_loop (fuel : nat) (stream : list recv_event)
    (response : string) : option (res string) :=
  match fuel with
  | O => None
  | S fuel' =>
      match recv 4096 stream with
      | (Raise e, _) =>
          Some (if is_socket_timeout e then Ok response else Raise e)
      | (Ok chunk, stream') =>
          if Py.falsy chunk then Some (Ok response)
          else
            let response' := (response +:+ chunk)%string in
            if 8192 <? Z.of_nat (String.length response')
            then Some (Ok response')
            else recv_loop fuel' stream' response'
      end
  end.

(** More iterations than the loop can make: every one but the last adds
    a byte to a response of at most 8192 bytes. *)
Definition recv_fuel : nat := Z.to_nat 8194.

(** The bytes [grab_http_banner] has accumulated when its loop ends. *)
Definition http_response (w : World) (host : string) (port : Z)
  : res string :=
  default (Raise OSError)
    (recv_loop recv_fuel (w_http_stream w host port) ""%string).

Definition parse_http_response (w : World) (response : string)
    (info : http_info) : http_info :=
  if Py.falsy response then info
  else
    let resp_text := w_decode w response in
    let banner := before_sep (CRLF +:+ CRLF) resp_text in
    match w_re_search w "Server: ([^\r\n]+)" resp_text with
    | None => mkHttp banner (h_server info) (h_version info)
    | Some server_match =>
        let server := Py.strip (group 1 server_match) in
        match w_re_search w "(\d+\.\d+\.\d+)" server with
        | None => mkHttp banner server (h_version info)
        | Some version_match => mkHttp banner server (group 1 version_match)
        end
    end.

Definition grab_http_banner (w : World) (self : ScannerEngine)
    (host : string) (port : Z) (use_ssl : bool) : res http_info :=
  let info := mkHttp "" "" "" in
  try_except
    (let! s := w_socket w ForHttp host port in
     let! _ := settimeout (banner_timeout self) in
     let! _ := connect w ForHttp host port in
     match (if use_ssl then w_wrap_socket w host port else Ok tt) with
     | Raise _ => Ok info
     | Ok _ =>
         let! _ := w_send_head w host port in
         let! response := http_response w host port in
         Ok (parse_http_response w response info)
     end)
    any_exception (fun _ => Ok info).

(** *** get_ssl_info *)

Record ssl_info : Type := mkSsl {
  si_valid : bool;
  si_issued_to : string;
  si_issued_by : string;
  si_valid_from : string;
  si_valid_until : string;
  si_version : string;
  si_serial_number : string;
  si_signature_algorithm : string;
  si_error : option exn
}.

Definition ssl_info_default : ssl_info :=
  mkSsl false "Unknown" "Unknown" "" "" "" "" "" None.

(** [not cert] for the dictionary. *)
Definition cert_empty (c : cert) : bool :=
  match c with
  | mkCert None None None None None None None => true
  | _ => false
  end.

(** The values of the name fields whose key is in [keys], joined as
    [" / ".join(filter(None, parts))]. *)
Definition name_parts (keys : list string)
    (name : list (list (string * string))) : string :=
  let parts :=
    snd <$> filter (fun kv => bool_decide (fst kv ∈ keys)) (concat name) in
  String.concat " / " (filter (fun v => negb (Py.falsy v) = true) parts).

(** [host.encode('idna')] for a host of ASCII characters (the fast path of
    encodings/idna.py): every label but the last must have 1 to 63
    characters and the last one at most 63, else the codec raises
    [UnicodeError]. *)
Definition idna_refuses (host : string) : bool :=
  let labels := Py.split "." host in
  forallb (fun c => (Py.code c <? 128)%nat) (list_ascii_of_string host)
  && (existsb (fun label => (String.length label =? 0)%nat
                            || (64 <=? String.length label)%nat)
        (removelast labels)
      || (64 <=? String.length (List.last labels ""%string))%nat).

(** [socket.create_connection((host, port), timeout=2)]: the host is
    resolved by [socket.getaddrinfo], which encodes a [str] host with the
    idna codec before any system call.  ([s.connect] and [s.connect_ex]
    hand an ASCII host to the system resolver as it is.) *)
Definition create_connection (w : World) (host : string) (port : Z)
  : res unit :=
  if idna_refuses host then Raise UnicodeError
  else w_create_connection w host port.

(** [context.wrap_socket(sock, server_hostname=host)] refuses, before the
    handshake, a name that is empty or starts with a dot. *)
Definition server_hostname_ok (host : string) : res unit :=
  match host with
  | EmptyString => Raise ValueError
  | String c _ => if Ascii.eqb c "." then Raise ValueError else Ok tt
  end.

(** The two [with] statements and [getpeercert]. *)
Definition peercert (w : World) (host : string) (port : Z) : res cert :=
  let! sock := create_connection w host port in
  let! _ := server_hostname_ok host in
  w_peercert w host port.

Definition get_ssl_info (w : World) (host : string) (port : Z)
  : res ssl_info :=
  let info := ssl_info_default in
  match peercert w host port with
  | Raise e =>
      if is_OSError e
      then Ok (mkSsl (si_valid info) (si_issued_to info) (si_issued_by info)
                 (si_valid_from info) (si_valid_until info) (si_version info)
                 (si_serial_number info) (si_signature_algorithm info)
                 (Some e))
      else Raise e
  | Ok c =>
      if cert_empty c then Ok info
      else
        Ok (mkSsl true
              (match c_subject c with
               | Some (f :: fs) =>
                   name_parts ["commonName"; "organizationName";
                               "organizationalUnitName"]%string (f :: fs)
               | _ => si_issued_to info
               end)
              (match c_issuer c with
               | Some (f :: fs) =>
                   name_parts ["commonName"; "organizationName"]%string
                     (f :: fs)
               | _ => si_issued_by info
               end)
              (default (si_valid_from info) (c_notBefore c))
              (default (si_valid_until info) (c_notAfter c))
              (match c_version c with
               | Some v => ("v" +:+ pretty v)%string
               | None => si_version info
               end)
              (default (si_serial_number info) (c_serialNumber c))
              (default (si_signature_algorithm info)
                 (c_signatureAlgorithm c))
              None)
  end.

(** *** grab_banner *)

Record banner_info : Type := mkBanner {
  banner : string;
  version : string;
  server : string;
  ssl_cert : option ssl_info
}.

Definition banner_info_default : banner_info := mkBanner "" "" "" None.

Definition tls_branch (service : string) (port : Z) : bool :=
  bool_decide (service ∈ ["HTTPS"; "IMAPS"; "POP3S"; "SMTPS"]%string)
  || bool_decide (port ∈ [443; 465; 636; 993; 995]).

Definition http_branch (service : string) (port : Z) : bool :=
  bool_decide (service ∈ ["HTTP"; "HTTPS"]%string)
  || bool_decide (port ∈ [80; 443; 8080; 8443]).

Definition ftp_branch (service : string) (port : Z) : bool :=
  bool_decide (service = "FTP"%string) || bool_decide (port = 21).

Definition ssh_branch (service : string) (port : Z) : bool :=
  bool_decide (service = "SSH"%string) || bool_decide (port = 22).

Definition smtp_branch (service : string) (port : Z) : bool :=
  bool_decide (service = "SMTP"%string) || bool_decide (port = 25).

(** The first [if] of the [try] block: the dictionary afterwards, and the
    exception that left the block there, if any. *)
Definition tls_step (w : World) (host : string) (port : Z)
    (service : string) (info : banner_info) : banner_info * res unit :=
  if tls_branch service port then
    match get_ssl_info w host port with
    | Raise e => (info, Raise e)
    | Ok ssl =>
        (mkBanner (banner info) (version info) (server info) (Some ssl),
         Ok tt)
    end
  else (info, Ok tt).

(** A banner read by one of the FTP, SSH, SMTP and generic branches,
    stored when it is not empty. *)
Definition with_banner (w : World) (self : ScannerEngine) (host : string)
    (port : Z) (info : banner_info)
    (extract : string → banner_info → banner_info)
  : banner_info * res unit :=
  match grab_protocol_banner w self host port with
  | Raise e => (info, Raise e)
  | Ok b =>
      if Py.falsy b then (info, Ok tt)
      else
        (extract b (mkBanner b (version info) (server info) (ssl_cert info)),
         Ok tt)
  end.

(** The [if]/[elif] chain that follows. *)
Definition protocol_step (w : World) (self : ScannerEngine)
    (host : string) (port : Z) (service : string) (info : banner_info)
  : banner_info * res unit :=
  if http_branch service port then
    match grab_http_banner w self host port
            (bool_decide (service = "HTTPS"%string)
             || bool_decide (port = 443)) with
    | Raise e => (info, Raise e)
    | Ok h =>
        (mkBanner (h_banner h) (h_version h) (h_server h) (ssl_cert info),
         Ok tt)
    end
  else if ftp_branch service port then
    with_banner w self host port info (fun b i =>
      match w_re_search w "(\d+\.\d+\.\d+)" b with
      | Some m => mkBanner (banner i) (group 1 m) (server i) (ssl_cert i)
      | None => i
      end)
  else if ssh_branch service port then
    with_banner w self host port info (fun b i =>
      match w_re_search w "SSH-(\d+\.\d+)-([^\s]+)" b with
      | Some m =>
          mkBanner (banner i) (group 1 m +:+ " " +:+ group 2 m)%string
            (server i) (ssl_cert i)
      | None => i
      end)
  else if smtp_branch service port then
    with_banner w self host port info (fun b i =>
      match w_re_search w "ESMTP ([^\s]+)" b with
      | Some m => mkBanner (banner i) (version i) (group 1 m) (ssl_cert i)
      | None => i
      end)
  else if Py.falsy (banner info) then
    with_banner w self host port info (fun b i => i)
  else (info, Ok tt).

Definition grab_banner_try (w : World) (self : ScannerEngine)
    (host : string) (port : Z) (service : string) (info : banner_info)
  : banner_info * res unit :=
  match tls_step w host port service info with
  | (info1, Raise e) => (info1, Raise e)
  | (info1, Ok _) => protocol_step w self host port service info1
  end.

(** [grab_banner]: whatever leaves the [try] block, the dictionary is
    returned as it then is. *)
Definition grab_banner (w : World) (self : ScannerEngine)
    (host : string) (port : Z) (service : string) : res banner_info :=
  match grab_banner_try w self host port service banner_info_default with
  | (info, Ok _) => Ok info
  | (info, Raise e) => if any_exception e then Ok info else Raise e
  end.

(** *** validate_port_range *)

(** One part: the ports it adds to [valid_ports]. *)
Definition validate_part (part0 : string) : res (list Z) :=
  let part := Py.strip part0 in
  if Py.contains "-" part then
    match Py.split "-" part with
    | [a; b] =>
        let! start := Py.int a in
        let! end_ := Py.int b in
        if (start <? 1) || (end_ >? 65535) then Raise ValueError
        else if start >? end_ then Raise ValueError
        else Ok (Py.range start (end_ + 1))
    | _ => Raise ValueError
    end
  else
    let! port := Py.int part in
    if (port <? 1) || (port >? 65535) then Raise ValueError
    else Ok [port].

Fixpoint validate_parts (parts : list string) (valid_ports : list Z)
  : res (list Z) :=
  match parts with
  | [] => Ok valid_ports
  | part :: rest =>
      let! ps := validate_part part in
      validate_parts rest (valid_ports ++ ps)
  end.

(** [validate_port_range(port_range)]; the set [valid_ports] is kept as
    the list of what was added to it. *)
Definition validate_port_range (port_range : string) : res (list Z) :=
  if Py.falsy port_range then Raise ValueError
  else
    let! valid_ports := validate_parts (Py.split "," port_range) [] in
    Ok (Py.sorted (Py.set_list valid_ports)).

End scanner_engine.

(** ** The running program: state, trace and exceptions *)

(** The second argument of a progress callback: [is_open], or the text of
    the advisory of scan_ports. *)
Inductive cb_status : Type :=
  | StatusBool (b : bool)
  | StatusStr (s : string).

(** [if status:] *)
Definition status_truthy (s : cb_status) : bool :=
  match s with
  | StatusBool b => b
  | StatusStr t => negb (Py.falsy t)
  end.

(** What the trace records. *)
Inductive event : Type :=
  | Probe (host : string) (port : Z)
  | Progress (port : Z) (status : cb_status)
  | ThreadPool (max_workers : Z).

(** The fields [ThreadingModule.__init__] sets. *)
Record ThreadingModule : Type := mkTM {
  stop_event : bool;
  MAX_THREAD_COUNT : Z
}.

(** The objects a scan works on: the state of whoever supplied the progress
    callback, the list objects, the engine, the threading module, and the
    trace so far. *)
Record Machine (St : Type) : Type := mkMachine {
  user : St;
  heap : gmap loc (list Z);
  engine : scanner_engine.ScannerEngine;
  tm : ThreadingModule;
  trace : list event
}.
Arguments mkMachine {St}.
Arguments user {St}.
Arguments heap {St}.
Arguments engine {St}.
Arguments tm {St}.
Arguments trace {St}.

(** A statement sequence over a state [S]: it changes the state and returns
    or raises; what it changed before raising stays changed. *)
Definition SM (S A : Type) : Type := S → S * res A.

Definition ret {S A} (a : A) : SM S A := fun s => (s, Ok a).

Definition raise {S A} (e : exn) : SM S A := fun s => (s, Raise e).

Definition bind {S A B} (c : SM S A) (k : A → SM S B) : SM S B :=
  fun s =>
    match c s with
    | (s1, Ok a) => k a s1
    | (s1, Raise e) => (s1, Raise e)
    end.

Notation "'let*' x ':=' c 'in' k" := (bind c (fun x => k))
  (at level 10, x name, c at level 100, k at level 200).

Definition lift {S A} (r : res A) : SM S A := fun s => (s, r).

Definition get {S} : SM S S := fun s => (s, Ok s).

Definition put {S} (s : S) : SM S unit := fun _ => (s, Ok tt).

(** [try: body except Exception: handler] *)
Definition try_catch {S A} (body : SM S A) (handler : exn → SM S A)
  : SM S A :=
  fun s =>
    match body s with
    | (s1, Ok a) => (s1, Ok a)
    | (s1, Raise e) => handler e s1
    end.

(** Statements of the scanning code run on the machine. *)
Abbreviation M St := (SM (Machine St)).

Definition emit {St} (e : event) : M St unit :=
  fun m => (mkMachine (user m) (heap m) (engine m) (tm m) (trace m ++ [e]),
            Ok tt).

Definition get_engine {St} : M St scanner_engine.ScannerEngine :=
  fun m => (m, Ok (engine m)).

Definition set_engine {St} (e : scanner_engine.ScannerEngine) : M St unit :=
  fun m => (mkMachine (user m) (heap m) e (tm m) (trace m), Ok tt).

Definition get_tm {St} : M St ThreadingModule := fun m => (m, Ok (tm m)).

Definition set_tm {St} (t : ThreadingModule) : M St unit :=
  fun m => (mkMachine (user m) (heap m) (engine m) t (trace m), Ok tt).

(** Code of the callback's owner: it sees its own state only. *)
Definition in_user {St A} (c : SM St A) : M St A :=
  fun m =>
    let (u, r) := c (user m) in
    (mkMachine u (heap m) (engine m) (tm m) (trace m), r).

(** Reading a list object; a dangling reference is a [TypeError]. *)
Definition read_list {St} (r : loc) : M St (list Z) :=
  fun m => (m, match heap m !! r with
               | Some l => Ok l
               | None => Raise TypeError
               end).

Definition write_list {St} (r : loc) (l : list Z) : M St unit :=
  fun m => (mkMachine (user m) (<[r := l]> (heap m)) (engine m) (tm m)
              (trace m), Ok tt).

(** A progress callback: a closure over its owner's state. *)
Definition callback (St : Type) : Type := Z → cb_status → SM St unit.

(** ** threading_module.py *)

Module threading_module.

(** [ThreadingModule()] *)
Definition init (w : World) : ThreadingModule :=
  let cpu_count := match w_cpu_count w with
                   | Some n => Z.pos n
                   | None => 4
                   end in
  {| stop_event := false; MAX_THREAD_COUNT := Z.min 100 (cpu_count * 5) |}.

(** [self.stop_event.is_set()] at a tick of the two loops of
    execute_tasks: set already, or set by another thread by then. *)
Definition stop_is_set (w : World) (self : ThreadingModule) (tick : nat)
  : bool :=
  stop_event self
  || match w_stop_at w with
     | Some k => (k <=? tick)%nat
     | None => false
     end.

(** The first loop: the futures submitted, from tick [i] on. *)
Fixpoint submit {T} (w : World) (self : ThreadingModule) (tasks : list T)
    (i : nat) : list T :=
  match tasks with
  | [] => []
  | t :: rest =>
      if stop_is_set w self i then []
      else t :: submit w self rest (S i)
  end.

(** The pool runs every submitted task to its end (leaving the [with]
    block waits for them); a task that raises keeps the exception in its
    future.  The tasks are taken in submission order. *)
Fixpoint run_pool {St A} (futures : list (M St A)) (m : Machine St)
  : Machine St * list (res A) :=
  match futures with
  | [] => (m, [])
  | t :: rest =>
      let (m1, r) := t m in
      let (m2, rs) := run_pool rest m1 in
      (m2, r :: rs)
  end.

(** The second loop, from future [j] on: [future.result(timeout=30)]
    raises when the wait times out or the task raised, and both are
    logged and skipped. *)
Fixpoint collect {A} (w : World) (self : ThreadingModule)
    (truthy : A → bool) (base : nat) (outcomes : list (res A)) (j : nat)
    (results : list A) : list A :=
  match outcomes with
  | [] => results
  | o :: rest =>
      if stop_is_set w self (base + j) then results
      else if w_future_timeout w j
      then collect w self truthy base rest (S j) results
      else
        match o with
        | Ok result =>
            collect w self truthy base rest (S j)
              (if truthy result then results ++ [result] else results)
        | Raise _ => collect w self truthy base rest (S j) results
        end
  end.

(** [min(thread_count, len(tasks), self.MAX_THREAD_COUNT)] *)
Definition optimal_thread_count (self : ThreadingModule) (n_tasks : nat)
    (thread_count : Z) : Z :=
  Z.min thread_count (Z.min (Z.of_nat n_tasks) (MAX_THREAD_COUNT self)).

(** [execute_tasks(tasks, thread_count)]; [ThreadPoolExecutor] refuses
    [max_workers <= 0]. *)
Definition execute_tasks {St A} (w : World) (truthy : A → bool)
    (tasks : list (M St A)) (thread_count : Z) : M St (list A) :=
  let* self0 := get_tm in
  let self := mkTM false (MAX_THREAD_COUNT self0) in
  let* _ := set_tm self in
  let optimal := optimal_thread_count self (length tasks) thread_count in
  let* _ := emit (ThreadPool optimal) in
  if optimal <=? 0 then raise ValueError
  else
    let futures := submit w self tasks 0 in
    let* outcomes := (fun m => let (m1, rs) := run_pool futures m in
                               (m1, Ok rs)) in
    let results :=
      collect w self truthy (length tasks) outcomes 0 [] in
    let* _ := set_tm (mkTM (stop_is_set w self
                              (length tasks + length outcomes))
                        (MAX_THREAD_COUNT self)) in
    ret results.

(** [stop()] *)
Definition stop {St} : M St unit :=
  let* self := get_tm in
  set_tm (mkTM true (MAX_THREAD_COUNT self)).

End threading_module.

(** ** scanner_engine.py: the worker and the coordinator *)

Module coordinator.
Import scanner_engine.

(** What [scan_port_worker] returns; the empty dictionary of a closed
    port is [None]. *)
Definition worker_result : Type := Z * bool * string * option banner_info.

(** [ScannerEngine.scan_port_worker(host, port, progress_callback)] *)
Definition scan_port_worker {St} (w : World) (host : string) (port : Z)
    (progress_callback : option (callback St)) : M St worker_result :=
  let* self := get_engine in
  let* _ := emit (Probe host port) in
  let* is_open := lift (test_port w self host port) in
  let* service :=
    if is_open then lift (fetch_service_info w port) else ret ""%string in
  let* info :=
    if is_open
    then let* b := lift (grab_banner w self host port service) in
         ret (Some b)
    else ret None in
  let* _ :=
    match progress_callback with
    | Some cb =>
        let* _ := emit (Progress port (StatusBool is_open)) in
        in_user (cb port (StatusBool is_open))
    | None => ret tt
    end in
  ret (port, is_open, service, info).

(** [x[i], x[j] = x[j], x[i]] *)
Definition swap (x : list Z) (i j : nat) : list Z :=
  match x !! i, x !! j with
  | Some xi, Some xj => <[j := xi]> (<[i := xj]> x)
  | _, _ => x
  end.

(** [random.shuffle(x)]: for [i] from [len(x) - 1] down to 1, swap
    [x[i]] with [x[j]] for a random [j] below [i + 1]. *)
Fixpoint shuffle_from (w : World) (i : nat) (x : list Z) : list Z :=
  match i with
  | O => x
  | S i' => shuffle_from w i' (swap x i (w_random w i mod (i + 1))%nat)
  end.

Definition shuffle (w : World) (x : list Z) : list Z :=
  shuffle_from w (length x - 1) x.

(** The shuffle works on the list object itself. *)
Definition random_shuffle {St} (w : World) (ports : loc) : M St unit :=
  let* x := read_list ports in
  write_list ports (shuffle w x).

(** [multiprocessing.cpu_count()] *)
Definition cpu_count (w : World) : res Z :=
  match w_cpu_count w with
  | Some n => Ok (Z.pos n)
  | None => Raise NotImplementedError
  end.

(** The entry of an open port. *)
Record port_data : Type := mkPortData {
  pd_service : string;
  pd_banner : string;
  pd_version : string;
  pd_server : string;
  pd_ssl_cert : option ssl_info
}.

Definition port_data_of (service : string) (info : option banner_info)
  : port_data :=
  match info with
  | Some b => mkPortData service (banner b) (version b) (server b) (ssl_cert b)
  | None => mkPortData service "" "" "" None
  end.

(** The last loop of scan_ports. *)
Fixpoint collect_open (results : list worker_result)
    (open_ports : gmap Z port_data) : gmap Z port_data :=
  match results with
  | [] => open_ports
  | (port, is_open, service, info) :: rest =>
      collect_open rest
        (if is_open
         then <[port := port_data_of service info]> open_ports
         else open_ports)
  end.

Definition warning_msg (thread_count max_recommended_threads : Z) : string :=
  ("Requested " +:+ pretty thread_count
   +:+ " threads exceeds the recommended maximum of "
   +:+ pretty max_recommended_threads)%string.

Definition advisory (thread_count max_recommended_threads : Z) : string :=
  ("WARNING: " +:+ warning_msg thread_count max_recommended_threads
   +:+ ". Using " +:+ pretty max_recommended_threads
   +:+ " threads instead.")%string.

(** [ScannerEngine.scan_ports(host, ports, threading_module, thread_count,
    progress_callback)]; [ports] is the caller's list object. *)
Definition scan_ports {St} (w : World) (host : string) (ports : loc)
    (thread_count : Z) (progress_callback : option (callback St))
  : M St (gmap Z port_data) :=
  let* cpu_count := lift (cpu_count w) in
  let max_recommended_threads := cpu_count * 2 in
  let* thread_count :=
    if thread_count >? max_recommended_threads then
      let* _ :=
        match progress_callback with
        | Some cb =>
            let status :=
              StatusStr (advisory thread_count max_recommended_threads) in
            let* _ := emit (Progress 0 status) in
            in_user (cb 0 status)
        | None => ret tt
        end in
      ret max_recommended_threads
    else ret thread_count in
  let* before := read_list ports in
  let effective_thread_count :=
    Z.min thread_count (Z.of_nat (length before)) in
  let* _ := random_shuffle w ports in
  let* shuffled := read_list ports in
  let tasks :=
    (fun port => scan_port_worker w host port progress_callback)
      <$> shuffled in
  let* results :=
    threading_module.execute_tasks w (fun _ : worker_result => true)
      tasks effective_thread_count in
  ret (collect_open results ∅).

End coordinator.

(** ** flask_web_interface.py: parsing, the scan registry, stop *)

Module flask_web_interface.
Import scanner_engine coordinator.

(** *** parse_port_range *)

(** One comma-separated section: [a-b] or a single port. *)
Definition parse_section (section : string) : res (list Z) :=
  if Py.contains "-" section then
    match Py.split "-" section with
    | [a; b] =>
        let! start := Py.int a in
        let! end_ := Py.int b in
        Ok (Py.range start (end_ + 1))
    | _ => Raise ValueError
    end
  else
    let! p := Py.int section in Ok [p].

Fixpoint parse_sections (sections : list string) (ports : list Z)
  : res (list Z) :=
  match sections with
  | [] => Ok ports
  | section :: rest =>
      let! ps := parse_section section in
      parse_sections rest (ports ++ ps)
  end.

Definition new_list {St} (l : list Z) : M St loc :=
  fun m =>
    let (r, h) := alloc (heap m) l in
    (mkMachine (user m) h (engine m) (tm m) (trace m), Ok r).

(** [parse_port_range(port_range)]: the empty string returns the
    [DEFAULT_PORTS] object itself, anything else a new sorted list. *)
Definition parse_port_range {St} (port_range : string) : M St loc :=
  if Py.falsy port_range then ret DEFAULT_PORTS_loc
  else
    let* ports := lift (parse_sections (Py.split "," port_range) []) in
    new_list (Py.sorted (Py.set_list ports)).

(** The list a call returns, read when it returns. *)
Definition parsed_ports {St} (port_range : string) : M St (list Z) :=
  let* r := parse_port_range port_range in
  read_list r.

(** *** The registry *)

Record log_entry : Type := mkLog {
  timestamp : nat;
  message : string;
  level : string
}.

(** One entry of [active_scans].  [cpu_cores] is the key of that name,
    absent until a status request puts it in, together with
    [max_recommended_threads], which is twice as much. *)
Record scan_state : Type := mkScan {
  status : string;
  progress : Z;
  start_time : nat;
  end_time : option nat;
  logs : list log_entry;
  results : gmap Z port_data;
  cpu_cores : option Z
}.

(** The module-level dictionaries, the clock behind [datetime.now()], and
    the [completed_ports] counter of the worker of each scan. *)
Record Flask : Type := mkFlask {
  active_scans : gmap string scan_state;
  scan_results : gmap string (gmap Z port_data);
  clock : nat;
  completed_ports : gmap string Z
}.

Definition initial_flask : Flask := mkFlask ∅ ∅ 0 ∅.

(** [datetime.now()] *)
Definition now : SM Flask nat :=
  let* f := get in
  let* _ := put (mkFlask (active_scans f) (scan_results f)
                   (S (clock f)) (completed_ports f)) in
  ret (clock f).

Definition set_scan (scan_id : string) (s : scan_state) : SM Flask unit :=
  let* f := get in
  put (mkFlask (<[scan_id := s]> (active_scans f)) (scan_results f)
         (clock f) (completed_ports f)).

(** [active_scans[scan_id]], a [KeyError] when absent. *)
Definition get_scan (scan_id : string) : SM Flask scan_state :=
  let* f := get in
  match active_scans f !! scan_id with
  | Some s => ret s
  | None => raise KeyError
  end.

(** [add_log(scan_id, message, level)] *)
Definition add_log (scan_id message level : string) : SM Flask unit :=
  let* f := get in
  match active_scans f !! scan_id with
  | Some _ =>
      let* t := now in
      let* s := get_scan scan_id in
      set_scan scan_id
        (mkScan (status s) (progress s) (start_time s) (end_time s)
           (logs s ++ [mkLog t message level]) (results s) (cpu_cores s))
  | None => ret tt
  end.

(** [complete_scan(scan_id, status)] *)
Definition complete_scan (scan_id new_status : string) : SM Flask unit :=
  let* f := get in
  match active_scans f !! scan_id with
  | Some _ =>
      let* s := get_scan scan_id in
      let* _ := set_scan scan_id
                  (mkScan new_status (progress s) (start_time s)
                     (end_time s) (logs s) (results s) (cpu_cores s)) in
      let* t := now in
      let* s := get_scan scan_id in
      let* _ := set_scan scan_id
                  (mkScan (status s) (progress s) (start_time s) (Some t)
                     (logs s) (results s) (cpu_cores s)) in
      let* s := get_scan scan_id in
      let* f := get in
      put (mkFlask (active_scans f)
             (<[scan_id := results s]> (scan_results f))
             (clock f) (completed_ports f))
  | None => ret tt
  end.

(** *** scan_worker *)

(** The closure [update_progress] of the worker of [scan_id]. *)
Definition update_progress (w : World) (scan_id : string)
    (total_ports : Z) : callback Flask :=
  fun port_number st =>
    let* f := get in
    let completed := default 0 (completed_ports f !! scan_id) + 1 in
    let* _ := put (mkFlask (active_scans f) (scan_results f) (clock f)
                     (<[scan_id := completed]> (completed_ports f))) in
    if total_ports =? 0 then raise ZeroDivisionError
    else
      let percent := w_percent w completed total_ports in
      let* s := get_scan scan_id in
      let* _ := set_scan scan_id
                  (mkScan (status s) percent (start_time s) (end_time s)
                     (logs s) (results s) (cpu_cores s)) in
      if status_truthy st then
        let* service := lift (fetch_service_info w port_number) in
        add_log scan_id
          ("Port " +:+ pretty port_number +:+ " is open: " +:+ service)
          "success"
      else ret tt.

(** Steps 11.1 and 11.2: register the scan and resolve the target;
    [false] is the early [return]. *)
Definition scan_worker_setup (w : World) (scan_id target : string)
  : SM Flask bool :=
  let* t := now in
  let* _ := set_scan scan_id (mkScan "running" 0 t None [] ∅ None) in
  match w_gethostbyname w target with
  | Ok ip_address =>
      let* _ :=
        if bool_decide (ip_address ≠ target)
        then add_log scan_id
               ("Resolved " +:+ target +:+ " to " +:+ ip_address) "info"
        else ret tt in
      ret true
  | Raise e =>
      let* _ := add_log scan_id
                  ("Failed to resolve " +:+ target +:+ ": "
                   +:+ w_str_exn w e) "error" in
      let* _ := complete_scan scan_id "failed" in
      ret false
  end.

(** Steps 11.3 to 11.9. *)
Definition scan_worker_scan (w : World) (scan_id target : string)
    (ports : loc) (thread_count timeout : Z) : M Flask unit :=
  let* self := get_engine in
  let* _ := set_engine (set_timeout self timeout) in
  let* l := read_list ports in
  let total_ports := Z.of_nat (length l) in
  let* _ := in_user
              (let* f := get in
               put (mkFlask (active_scans f) (scan_results f) (clock f)
                      (<[scan_id := 0]> (completed_ports f)))) in
  let* found :=
    scan_ports w target ports thread_count
      (Some (update_progress w scan_id total_ports)) in
  in_user
    (let* s := get_scan scan_id in
     let* _ := set_scan scan_id
                 (mkScan (status s) (progress s) (start_time s)
                    (end_time s) (logs s) found (cpu_cores s)) in
     let* _ :=
       if bool_decide (found = ∅)
       then add_log scan_id "Scan completed. No open ports found."
              "warning"
       else add_log scan_id
              ("Scan completed. Found " +:+ pretty (size found)
               +:+ " open ports.") "info" in
     complete_scan scan_id "completed").

(** Step 11.10: the handler of the outer [try]. *)
Definition scan_worker_except (w : World) (scan_id : string) (e : exn)
  : M Flask unit :=
  in_user
    (let* _ := add_log scan_id ("Error during scan: " +:+ w_str_exn w e)
                 "error" in
     complete_scan scan_id "failed").

(** [scan_worker(scan_id, target, ports, thread_count, timeout)] *)
Definition scan_worker (w : World) (scan_id target : string) (ports : loc)
    (thread_count timeout : Z) : M Flask unit :=
  try_catch
    (let* go_on := in_user (scan_worker_setup w scan_id target) in
     if go_on
     then scan_worker_scan w scan_id target ports thread_count timeout
     else ret tt)
    (scan_worker_except w scan_id).

(** What the worker thread still has to run once step 11.2 has resolved
    the target: the point where a request of another thread can come
    in between. *)
Definition scan_worker_resume (w : World) (scan_id target : string)
    (ports : loc) (thread_count timeout : Z) : M Flask unit :=
  try_catch
    (scan_worker_scan w scan_id target ports thread_count timeout)
    (scan_worker_except w scan_id).

(** *** api_stop_scan *)

Inductive response : Type :=
  | NotFound404
  | Stopped200.

(** [POST /api/scan/<scan_id>/stop] *)
Definition api_stop_scan (scan_id : string) : SM Flask response :=
  let* f := get in
  match active_scans f !! scan_id with
  | None => ret NotFound404
  | Some _ =>
      let* _ := complete_scan scan_id "stopped" in
      ret Stopped200
  end.

(** The [status] of a scan, as [api_scan_status] reports it. *)
Definition status_of (f : Flask) (scan_id : string) : option string :=
  status <$> (active_scans f !! scan_id).

Definition results_of (f : Flask) (scan_id : string)
  : option (gmap Z port_data) :=
  results <$> (active_scans f !! scan_id).

(** The machine when the module has been imported. *)
Definition initial_machine (w : World) : Machine Flask :=
  mkMachine initial_flask initial_heap scanner_engine.init
    (threading_module.init w) [].

End flask_web_interface.

(** ** Concrete worlds, for evaluating the code *)

Definition ECONNREFUSED : Z := 111.

(** A world given by the open ports, the CPU count, the resolver, the TLS
    handshake, the banner a plain connection reads and the bytes an HTTP
    connection receives.  Every port accepts the later connections; the
    random generator always draws 0; nothing stops or times out. *)
Definition world_of (open : Z → bool) (cpus : option positive)
    (resolve : string → res string) (peercert : res cert)
    (greeting : res string) (http : list recv_event) : World :=
  {| w_socket := fun _ _ _ => Ok tt;
     w_connect_ex := fun _ _ port => Ok (if open port then 0 else ECONNREFUSED);
     w_connect := fun _ _ _ => Ok tt;
     w_recv_first := fun _ _ => greeting;
     w_send_crlf := fun _ _ => Ok tt;
     w_recv_second := fun _ _ => Ok ""%string;
     w_wrap_socket := fun _ _ => Ok tt;
     w_send_head := fun _ _ => Ok tt;
     w_http_stream := fun _ _ => http;
     w_create_connection := fun _ _ => Ok tt;
     w_peercert := fun _ _ => peercert;
     w_services := fun _ => None;
     w_gethostbyname := resolve;
     w_decode := fun b => b;
     w_re_search := fun _ _ => None;
     w_cpu_count := cpus;
     w_random := fun _ => 0%nat;
     w_stop_at := None;
     w_future_timeout := fun _ => false;
     w_percent := fun c t => 100 * c / t;
     w_str_exn := fun _ => ""%string |}.

Definition empty_cert : cert := mkCert None None None None None None None.

(** Nothing listens; the host resolves to itself. *)
Import scanner_engine coordinator flask_web_interface.

Definition closed_world (cpus : positive) : World :=
  world_of (fun _ => false) (Some cpus) Ok (Ok empty_cert)
    (Ok ""%string) [].

(** Only the given ports listen. *)
Definition open_world (ports : list Z) (cpus : positive) : World :=
  world_of (fun p => bool_decide (p ∈ ports)) (Some cpus) Ok (Ok empty_cert)
    (Ok ""%string) [].

(** The host does not resolve. *)
Definition unresolved_world : World :=
  world_of (fun _ => true) (Some 4%positive) (fun _ => Raise Gaierror)
    (Ok empty_cert) (Ok ""%string) [].

(** A progress callback that counts its calls. *)
Definition counting_callback : callback nat :=
  fun _ _ => let* n := get in put (S n).

(** A machine whose only list object is [ports], at address 1. *)
Definition machine_with {St} (w : World) (u : St) (ports : list Z)
  : Machine St :=
  mkMachine u (<[1%nat := ports]> initial_heap) scanner_engine.init
    (threading_module.init w) [].


(** ** Measures used in the statements *)

(** The ports of the calls of [test_port], in trace order. *)
Definition probed (tr : list event) : list Z :=
  flat_map (λ e, match e with Probe _ p => [p] | _ => [] end) tr.


(** The texts of the calls [progress_callback(0, "WARNING: ...")]. *)
Definition advisories (tr : list event) : list string :=
  flat_map (λ e, match e with
                 | Progress _ (StatusStr s) => [s]
                 | _ => []
                 end) tr.





(** The [max_workers] of the thread pools made. *)
Definition pools (tr : list event) : list Z :=
  flat_map (λ e, match e with ThreadPool k => [k] | _ => [] end) tr.

(** The number of bytes in what the receive loop returned. *)
Definition response_length (r : res string) : nat :=
  match r with
  | Ok response => String.length response
  | Raise _ => 0%nat
  end.

(** [n] copies of a character. *)
Fixpoint repeat_char (n : nat) (c : ascii) : string :=
  match n with
  | O => EmptyString
  | S n' => String c (repeat_char n' c)
  end.

(** A server that answers with three full segments of 4096 bytes. *)
Definition chatty_world : World :=
  world_of (fun _ => true) (Some 4%positive) Ok (Ok empty_cert)
    (Ok ""%string)
    [Data (repeat_char (Z.to_nat 4096) "a");
     Data (repeat_char (Z.to_nat 4096) "b");
     Data (repeat_char (Z.to_nat 4096) "c")].

(** A scan of the default ports of a host where only SSH listens, on four
    CPUs, requested with eight threads and a one-second timeout; the stop
    request of another thread comes in after step 11.2. *)
Definition ssh_world : World := open_world [22] 4.

Definition scan_started : Machine Flask :=
  (in_user (scan_worker_setup ssh_world "1_h" "h")
     (initial_machine ssh_world)).1.

Definition scan_stopped : Machine Flask :=
  (in_user (api_stop_scan "1_h") scan_started).1.

Definition scan_resumed : Machine Flask :=
  (scan_worker_resume ssh_world "1_h" "h" DEFAULT_PORTS_loc 8 1000
     scan_stopped).1.

Definition scan_stopped_again : Machine Flask :=
  (in_user (api_stop_scan "1_h") scan_resumed).1.

(** ** Specifications of statement sequences *)

(** From a state in [P], [c] returns in a state in [Q] or raises in a state
    in [E]. *)
Definition spec {S A} (P : S → Prop) (c : SM S A) (Q : A → S → Prop)
    (E : exn → S → Prop) : Prop :=
  ∀ s, P s →
       match c s with
       | (s', Ok a) => Q a s'
       | (s', Raise e) => E e s'
       end.

(** [c] keeps the invariant [I], however it ends. *)
Definition keeps {S A} (I : S → Prop) (c : SM S A) : Prop :=
  spec I c (λ _, I) (λ _, I).

(** The invariant [I] of the callback's owner, on the machine. *)
Definition on_user {St} (I : St → Prop) : Machine St → Prop :=
  λ m, I (user m).

(** A callback that keeps [I], or no callback. *)
Definition callback_keeps {St} (I : St → Prop) (cb : option (callback St))
  : Prop :=
  ∀ c, cb = Some c → ∀ p s, keeps I (c p s).

(** The scan is in [active_scans]. *)
Definition registered (scan_id : string) (f : Flask) : Prop :=
  is_Some (active_scans f !! scan_id).

(** The same scan left alone, and a stop request after it has completed. *)
Definition scan_completed : Machine Flask :=
  (scan_worker ssh_world "1_h" "h" DEFAULT_PORTS_loc 8 1000
     (initial_machine ssh_world)).1.

Definition scan_stopped_late : Machine Flask :=
  (in_user (api_stop_scan "1_h") scan_completed).1.

(** What [test_port] answers for a port. *)
Definition is_open_at (w : World) (self : ScannerEngine) (host : string)
    (port : Z) : bool :=
  match test_port w self host port with
  | Ok b => b
  | Raise _ => false
  end.

(** What one worker adds to the trace: its probe, then its report when a
    callback was given. *)
Definition worker_events (w : World) (self : ScannerEngine) (host : string)
    (with_callback : bool) (port : Z) : list event :=
  Probe host port
  :: (if with_callback
      then [Progress port (StatusBool (is_open_at w self host port))]
      else []).

(** A worker result agrees with the prober and the classifier. *)
Definition sound_result (w : World) (self : ScannerEngine) (host : string)
    (r : worker_result) : Prop :=
  match r with
  | (p, o, service, _) =>
      test_port w self host p = Ok o ∧
      (o = true → fetch_service_info w p = Ok service)
  end.

(** The worker of every port of a list. *)
Definition workers {St} (w : World) (host : string)
    (cb : option (callback St)) (L : list Z) : list (M St worker_result) :=
  (λ port, scan_port_worker w host port cb) <$> L.

(** The advisory call scan_ports makes when more threads are requested
    than it recommends and a callback was given. *)
Definition advisory_events {St} (thread_count cap : Z)
    (cb : option (callback St)) : list event :=
  match cb with
  | Some _ =>
      if thread_count >? cap
      then [Progress 0 (StatusStr (advisory thread_count cap))]
      else []
  | None => []
  end.

(** What the advisory call returns: [Ok] when it is not made. *)
Definition advisory_outcome {St} (thread_count cap : Z)
    (cb : option (callback St)) (u : St) : res unit :=
  match cb with
  | Some c =>
      if thread_count >? cap
      then (c 0 (StatusStr (advisory thread_count cap)) u).2
      else Ok tt
  | None => Ok tt
  end.

(** The count scan_ports hands to execute_tasks, and the count
    execute_tasks hands to the pool. *)
Definition effective_thread_count (thread_count cap : Z) (n_ports : nat) : Z :=
  Z.min (if thread_count >? cap then cap else thread_count) (Z.of_nat n_ports).

Definition pool_size (max_thread_count thread_count cap : Z) (n_ports : nat)
  : Z :=
  threading_module.optimal_thread_count (mkTM false max_thread_count) n_ports
    (effective_thread_count thread_count cap n_ports).

(** What a run added to the trace. *)
Definition new_events {St} (m m' : Machine St) : list event :=
  drop (length (trace m)) (trace m').

(** The record [get_ssl_info] returns when a socket or TLS error ended the
    handshake. *)
Definition ssl_info_failed (e : exn) : ssl_info :=
  mkSsl false "Unknown" "Unknown" "" "" "" "" "" (Some e).

(** What the [if]/[elif] chain of grab_banner makes of a new dictionary. *)
Definition protocol_fields (w : World) (self : ScannerEngine)
    (host : string) (port : Z) (service : string) : banner_info :=
  (protocol_step w self host port service banner_info_default).1.



(** * More of the code *)

(** [except ValueError]: [UnicodeError] is a subclass. *)
Definition is_ValueError (e : exn) : bool :=
  match e with ValueError | UnicodeError => true | _ => false end.

(** ** scanner_engine.py: ping_host *)

Module scanner_engine_ping.
Import scanner_engine.

(** One connection attempt of [ping_host]: socket, timeout, [connect_ex],
    close, and whether the result was 0. *)
Definition ping_try (w : World) (host : string) (port t : Z) : res bool :=
  let! s := w_socket w ForProbe host port in
  let! _ := settimeout t in
  let! result := connect_ex w t host port in
  Ok (result =? 0).

(** The loop over the common ports: [true] is the [return True] inside. *)
Fixpoint ping_common (w : World) (host : string) (ports : list Z)
  : res bool :=
  match ports with
  | [] => Ok false
  | port :: rest =>
      let! up := ping_try w host port 500 in
      if up then Ok true else ping_common w host rest
  end.

(** [ScannerEngine.ping_host(host)] *)
Definition ping_host (w : World) (host : string) : res bool :=
  try_except
    (let! up := ping_common w host [80; 443] in
     if up then Ok true else ping_try w host 7 1000)
    any_exception (fun _ => Ok false).

End scanner_engine_ping.

(** ** Measures for execute_tasks *)

(** The results [execute_tasks] keeps when it waits for every future: those
    of the tasks that returned, and returned something truthy. *)
Definition kept {A} (truthy : A → bool) (outcomes : list (res A)) : list A :=
  omap (λ o, match o with
             | Ok a => if truthy a then Some a else None
             | Raise _ => None
             end) outcomes.

(** The machine when the first loop of [execute_tasks] starts: the stop
    flag cleared, the pool made. *)
Definition pool_started {St} (m : Machine St) (n_tasks : nat)
    (thread_count : Z) : Machine St :=
  mkMachine (user m) (heap m) (engine m)
    (mkTM false (MAX_THREAD_COUNT (tm m)))
    (trace m ++ [ThreadPool (threading_module.optimal_thread_count
                               (mkTM false (MAX_THREAD_COUNT (tm m)))
                               n_tasks thread_count)]).

(** A machine with another threading module. *)
Definition with_tm {St} (m : Machine St) (t : ThreadingModule) : Machine St :=
  mkMachine (user m) (heap m) (engine m) t (trace m).

(** A world in which another thread calls [stop] at the given tick, and
    the waits for the given futures time out. *)
Definition world_interrupted (w : World) (stop_at : option nat)
    (timeouts : nat → bool) : World :=
  {| w_socket := w_socket w;
     w_connect_ex := w_connect_ex w;
     w_connect := w_connect w;
     w_recv_first := w_recv_first w;
     w_send_crlf := w_send_crlf w;
     w_recv_second := w_recv_second w;
     w_wrap_socket := w_wrap_socket w;
     w_send_head := w_send_head w;
     w_http_stream := w_http_stream w;
     w_create_connection := w_create_connection w;
     w_peercert := w_peercert w;
     w_services := w_services w;
     w_gethostbyname := w_gethostbyname w;
     w_decode := w_decode w;
     w_re_search := w_re_search w;
     w_cpu_count := w_cpu_count w;
     w_random := w_random w;
     w_stop_at := stop_at;
     w_future_timeout := timeouts;
     w_percent := w_percent w;
     w_str_exn := w_str_exn w |}.

(** Ports 22 and 80 listen, and [stop] is called when one task has been
    submitted. *)
Definition stopped_world : World :=
  world_interrupted (open_world [22; 80] 4) (Some 1%nat) (λ _, false).

(** ** main.py: the command line *)

Module main.
Import scanner_engine coordinator.

(** The [argparse] namespace; an option that was not given is [None]. *)
Record Namespace : Type := mkArgs {
  target : option string;
  ports : option string;
  threads : Z;
  verbose : bool
}.

(** [if s:] for an optional string. *)
Definition truthy (s : option string) : bool :=
  match s with
  | Some t => negb (Py.falsy t)
  | None => false
  end.

(** One part of [args.ports] in the loop of [validate_args]: [false] is
    the [return False] of the loop. *)
Definition check_part (part : string) : res bool :=
  if Py.contains "-" part then
    match Py.split "-" part with
    | [a; b] =>
        let! start := Py.int a in
        let! end_ := Py.int b in
        if (start <? 1) || (end_ >? 65535) || (start >? end_) then Ok false
        else Ok true
    | _ => Raise ValueError
    end
  else
    let! port := Py.int part in
    if (port <? 1) || (port >? 65535) then Ok false else Ok true.

Fixpoint check_parts (parts : list string) : res bool :=
  match parts with
  | [] => Ok true
  | part :: rest =>
      let! ok := check_part part in
      if ok then check_parts rest else Ok false
  end.

(** [validate_args(args)]; the messages it prints are left out. *)
Definition validate_args (args : Namespace) : res bool :=
  if negb (truthy (target args)) then Ok false
  else
    let! ok :=
      if truthy (ports args) then
        try_except (check_parts (Py.split "," (default ""%string (ports args))))
          is_ValueError (fun _ => Ok false)
      else Ok true in
    if negb ok then Ok false
    else if threads args <? 1 then Ok false
    else Ok true.

(** One comma-separated section of [PortScanner.parse_port_range]. *)
Definition parse_section (section : string) : res (list Z) :=
  if Py.contains "-" section then
    match Py.split "-" section with
    | [a; b] =>
        let! start := Py.int a in
        let! end_ := Py.int b in
        Ok (Py.range start (end_ + 1))
    | _ => Raise ValueError
    end
  else
    let! p := Py.int section in Ok [p].

Fixpoint parse_sections (sections : list string) (acc : list Z)
  : res (list Z) :=
  match sections with
  | [] => Ok acc
  | section :: rest =>
      let! ps := parse_section section in
      parse_sections rest (acc ++ ps)
  end.

(** [PortScanner.parse_port_range(port_range)]: without a port string the
    module's [DEFAULT_PORTS] object itself (main.py has its own, with the
    same ports), otherwise a new sorted list. *)
Definition parse_port_range {St} (port_range : option string) : M St loc :=
  if negb (truthy port_range) then ret DEFAULT_PORTS_loc
  else
    let* l :=
      lift (parse_sections (Py.split "," (default ""%string port_range)) []) in
    flask_web_interface.new_list (Py.sorted (Py.set_list l)).

End main.

(** ** flask_web_interface.py: scans that have ended *)

(** The worker of the scan has ended: the scan is "completed" or "failed",
    has an end time, and its results are published in [scan_results]. *)
Definition ended (scan_id : string) (f : Flask) : Prop :=
  ∃ s, active_scans f !! scan_id = Some s ∧
       (status s = "completed"%string ∨ status s = "failed"%string) ∧
       is_Some (end_time s) ∧
       scan_results f !! scan_id = Some (results s).

(** ** flask_web_interface.py: the routes of a scan *)

(** [try: body except <classes>: handler] on the machine. *)
Definition try_except_in {S A} (body : SM S A) (catches : exn → bool)
    (handler : exn → SM S A) : SM S A :=
  fun s =>
    match body s with
    | (s1, Ok a) => (s1, Ok a)
    | (s1, Raise e) => if catches e then handler e s1 else (s1, Raise e)
    end.

(** [l[i:]] *)
Definition slice_from {A} (l : list A) (i : Z) : list A :=
  if i <? 0 then drop (Z.to_nat (Z.max (Z.of_nat (length l) + i) 0)) l
  else drop (Z.to_nat i) l.

Module flask_routes.
Import scanner_engine coordinator flask_web_interface.

(** The JSON body of [POST /api/scan/start] once [data.get] has put in
    the defaults and [int] and [float] have converted [threads] and
    [timeout] (in milliseconds here); [rq_target] is [None] when the body
    is empty or has no key "target". *)
Record scan_request : Type := mkRequest {
  rq_target : option string;
  rq_port_range : string;
  rq_threads : Z;
  rq_timeout : Z
}.

(** What the handler answers; [Started] also carries the arguments of the
    [scan_worker] thread it has started. *)
Inductive start_response : Type :=
  | BadRequest400 (error : string)
  | Started (scan_id target : string) (ports : loc)
      (thread_count timeout : Z).

(** The message of [add_thread_warning]. *)
Definition thread_warning (original_count max_count : Z) : string :=
  ("WARNING: " +:+ "Thread count " +:+ pretty original_count
   +:+ " exceeds recommended maximum of " +:+ pretty max_count
   +:+ ". Using " +:+ pretty max_count
   +:+ " threads for optimal performance.")%string.

Definition add_thread_warning (scan_id : string)
    (original_count max_count : Z) : SM Flask unit :=
  add_log scan_id (thread_warning original_count max_count) "warning".

(** [f"{int(time.time())}_{target}"] *)
Definition make_scan_id (time : Z) (target : string) : string :=
  (pretty time +:+ "_" +:+ target)%string.

(** [api_start_scan()], with the request body and [int(time.time())]. *)
Definition api_start_scan (w : World) (time : Z) (data : scan_request)
  : M Flask start_response :=
  match rq_target data with
  | None => ret (BadRequest400 "Missing target host")
  | Some t =>
      let target := Py.strip t in
      let port_range := Py.strip (rq_port_range data) in
      let thread_count := rq_threads data in
      let timeout := rq_timeout data in
      let* cpu_count := lift (cpu_count w) in
      let max_recommended_threads := cpu_count * 2 in
      let original_thread_count := thread_count in
      let should_warn := thread_count >? max_recommended_threads in
      let thread_count :=
        if should_warn then max_recommended_threads else thread_count in
      let* parsed :=
        try_except_in
          (let* ports := parse_port_range port_range in
           let* l := read_list ports in
           match l with
           | [] => ret (inl (BadRequest400 "No valid ports specified"))
           | _ => ret (inr ports)
           end)
          is_ValueError
          (fun _ => ret (inl (BadRequest400 "Invalid port range"))) in
      match parsed with
      | inl early => ret early
      | inr ports =>
          let scan_id := make_scan_id time target in
          let* _ :=
            if should_warn
            then in_user (add_thread_warning scan_id original_thread_count
                            max_recommended_threads)
            else ret tt in
          ret (Started scan_id target ports thread_count timeout)
      end
  end.

(** The request and the thread it starts, run to its end. *)
Definition start_and_scan (w : World) (time : Z) (data : scan_request)
  : M Flask start_response :=
  let* r := api_start_scan w time data in
  match r with
  | Started scan_id target ports thread_count timeout =>
      let* _ := scan_worker w scan_id target ports thread_count timeout in
      ret r
  | BadRequest400 _ => ret r
  end.

(** The JSON body of a status answer; [st_results] is absent while the
    scan runs. *)
Record status_body : Type := mkStatus {
  st_status : string;
  st_progress : Z;
  st_logs : list log_entry;
  st_logs_index : Z;
  st_duration : Z;
  st_open_ports : Z;
  st_vulnerabilities : Z;
  st_results : option (gmap Z port_data)
}.

Inductive status_response : Type :=
  | StatusNotFound404
  | Status200 (body : status_body).

Definition terminal (status : string) : bool :=
  bool_decide (status ∈ ["completed"; "failed"; "stopped"]%string).

(** [api_scan_status(scan_id)] with the query argument [logs_index].  A
    request that finds the entry without the key [cpu_cores] puts it in,
    before it reads [logs_index].  The results of a scan are a dictionary,
    never a list, so the real-time counts stay 0; the duration is in ticks
    of the clock. *)
Definition api_scan_status (w : World) (scan_id : string)
    (logs_index : option string) : SM Flask status_response :=
  let* f := get in
  match active_scans f !! scan_id with
  | None => ret StatusNotFound404
  | Some entry =>
      let* scan_data :=
        match cpu_cores entry with
        | Some _ => ret entry
        | None =>
            let* n := lift (cpu_count w) in
            let cached :=
              mkScan (status entry) (progress entry) (start_time entry)
                (end_time entry) (logs entry) (results entry) (Some n) in
            let* _ := set_scan scan_id cached in
            ret cached
        end in
      let duration :=
        match end_time scan_data with
        | Some e => Z.of_nat e - Z.of_nat (start_time scan_data)
        | None => 0
        end in
      let* logs_index :=
        lift (match logs_index with
              | Some s => Py.int s
              | None => Ok 0
              end) in
      let new_logs :=
        if logs_index <? Z.of_nat (length (logs scan_data))
        then slice_from (logs scan_data) logs_index
        else [] in
      let open_ports_count := 0 in
      let vulnerabilities_count := 0 in
      ret (Status200
             (mkStatus (status scan_data) (progress scan_data) new_logs
                (Z.of_nat (length (logs scan_data))) duration
                open_ports_count vulnerabilities_count
                (if terminal (status scan_data)
                 then Some (results scan_data) else None)))
  end.

End flask_routes.

(** The scan has a log, and the log satisfies [R]. *)
Definition logs_satisfy (scan_id : string) (R : list log_entry → Prop)
    (f : Flask) : Prop :=
  ∃ s, active_scans f !! scan_id = Some s ∧ R (logs s).

(** A registry with one scan, running, with the given log. *)
Definition flask_with_logs (scan_id : string) (l : list log_entry) : Flask :=
  mkFlask {[ scan_id := mkScan "running" 0 0 None l ∅ None ]} ∅ (length l) ∅.

(** ** data_export_layer.py *)

(** [s.replace(old, new)] for a non-empty [old]: the occurrences are taken
    from the left and do not overlap; [skip] counts the characters of a
    replaced occurrence that are still to pass. *)
Fixpoint replace_from (old new s : string) (skip : nat) : string :=
  match s with
  | EmptyString => EmptyString
  | String c s' =>
      match skip with
      | S k => replace_from old new s' k
      | O =>
          if String.prefix old s
          then new +:+ replace_from old new s' (String.length old - 1)
          else String c (replace_from old new s' 0)
      end
  end.

Definition str_replace (old new s : string) : string :=
  replace_from old new s 0.

(** Every character of [s] satisfies [P]. *)
Fixpoint all_chars (P : ascii → bool) (s : string) : bool :=
  match s with
  | EmptyString => true
  | String c s' => P c && all_chars P s'
  end.

(** [''.join(f(char) for char in s)] *)
Fixpoint map_chars (f : ascii → ascii) (s : string) : string :=
  match s with
  | EmptyString => EmptyString
  | String c s' => String (f c) (map_chars f s')
  end.

Definition CR : ascii := "013"%char.
Definition LF : ascii := "010"%char.

Definition not_newline (c : ascii) : bool :=
  negb (Ascii.eqb c CR) && negb (Ascii.eqb c LF).

(** [ord(char) < 128] *)
Definition is_ascii (c : ascii) : bool := (Py.code c <? 128)%nat.

Module data_export_layer.
Import scanner_engine coordinator.

Definition header : list string :=
  ["Host"; "Port"; "Status"; "Service"; "Version"; "Server"; "Banner";
   "SSL Certificate"; "Scan Date"]%string.

(** "Clean and truncate long banners" *)
Definition clean_banner (banner : string) : string :=
  let banner :=
    str_replace (String CR EmptyString) " | "
      (str_replace (String LF EmptyString) " | "
         (str_replace CRLF " | " banner)) in
  if Z.of_nat (String.length banner) >? 500
  then (substring 0 497 banner +:+ "...")%string
  else banner.

Definition truthy (s : string) : bool := negb (Py.falsy s).

(** [any(ssl_cert.values())] for the dictionary of [get_ssl_info]; the
    key "error" holds [str(e)]. *)
Definition any_value (w : World) (c : ssl_info) : bool :=
  si_valid c || truthy (si_issued_to c) || truthy (si_issued_by c)
  || truthy (si_valid_from c) || truthy (si_valid_until c)
  || truthy (si_version c) || truthy (si_serial_number c)
  || truthy (si_signature_algorithm c)
  || match si_error c with
     | Some e => truthy (w_str_exn w e)
     | None => false
     end.

Definition detail (label value : string) : list string :=
  if truthy value then [(label +:+ value)%string] else [].

Definition cert_details (c : ssl_info) : list string :=
  detail "Issued To: " (si_issued_to c)
  ++ detail "Issued By: " (si_issued_by c)
  ++ detail "Valid From: " (si_valid_from c)
  ++ detail "Valid Until: " (si_valid_until c)
  ++ detail "Version: " (si_version c).

(** The cell "SSL Certificate"; an absent or empty [ssl_cert] is [None]. *)
Definition ssl_cell (w : World) (ssl_cert : option ssl_info) : string :=
  match ssl_cert with
  | Some c =>
      if any_value w c then String.concat ", " (cert_details c)
      else ""%string
  | None => ""%string
  end.

Definition row (w : World) (host scan_time : string) (port : Z)
    (d : port_data) : list string :=
  [host; pretty port; "Open"%string; pd_service d; pd_version d;
   pd_server d; clean_banner (pd_banner d); ssl_cell w (pd_ssl_cert d);
   scan_time].

(** The loop over [scan_results.items()]. *)
Fixpoint add_rows (w : World) (host scan_time : string)
    (items : list (Z * port_data)) (data : list (list string))
  : list (list string) :=
  match items with
  | [] => data
  | (port, d) :: rest =>
      add_rows w host scan_time rest (data ++ [row w host scan_time port d])
  end.

(** [_prepare_data(scan_results, host)], with the items of the dictionary
    in their order and the text of [datetime.now()]. *)
Definition _prepare_data (w : World) (scan_time : string)
    (items : list (Z * port_data)) (host : string) : list (list string) :=
  add_rows w host scan_time items [header].

(** The text of one cell of the table of [export_to_pdf]. *)
Definition pdf_text (cell : string) : string :=
  let text :=
    str_replace (String CR EmptyString) " "
      (str_replace (String LF EmptyString) " "
         (str_replace CRLF " " cell)) in
  let text :=
    map_chars (fun char => if is_ascii char then char else "?"%char) text in
  if Z.of_nat (String.length text) >? 40
  then (substring 0 37 text +:+ "...")%string
  else text.

Definition pdf_headers : list string :=
  ["Host"; "Port"; "Status"; "Service"; "Version"; "Server"]%string.

(** [[data[0].index(header) for header in pdf_headers if header in
    data[0]]] *)
Definition pdf_column_indices (data0 : list string) : list nat :=
  omap (fun h => fst <$> list_find (fun x => x = h) data0) pdf_headers.

(** The texts of the table of [export_to_pdf] below its header; [None] is
    the [IndexError] of [row[idx]]. *)
Definition pdf_rows (data : list (list string))
  : option (list (list string)) :=
  match data with
  | [] => None
  | data0 :: rows =>
      let indices := pdf_column_indices data0 in
      mapM (fun r => mapM (fun idx => pdf_text <$> (r !! idx)) indices) rows
  end.

(** *** validate_filename *)

(** [os.path.basename] of posixpath: what follows the last "/". *)
Definition basename (p : string) : string :=
  List.last (Py.split "/" p) ""%string.

Definition is_alnum (c : ascii) : bool :=
  let n := Py.code c in
  ((48 <=? n) && (n <=? 57) || (65 <=? n) && (n <=? 90)
   || (97 <=? n) && (n <=? 122))%nat.

(** [\w] on one character: below 128 the letters, the digits and the
    underscore; above, what Unicode says of the character, which
    [unicode_word] stands for. *)
Definition word (unicode_word : ascii → bool) (c : ascii) : bool :=
  if is_ascii c then is_alnum c || Ascii.eqb c "_" else unicode_word c.

(** The class [[\w\-_\.]]. *)
Definition safe_char (unicode_word : ascii → bool) (c : ascii) : bool :=
  word unicode_word c || Ascii.eqb c "-" || Ascii.eqb c "_"
  || Ascii.eqb c ".".

(** [re.sub(r'[^\w\-_\.]', '_', filename)] *)
Definition sanitize (unicode_word : ascii → bool) (filename : string)
  : string :=
  map_chars (fun c => if safe_char unicode_word c then c else "_"%char)
    filename.

(** [p.rfind(c)]: the index of the last [c], or -1. *)
Fixpoint rfind_from (c : ascii) (s : string) (i last : Z) : Z :=
  match s with
  | EmptyString => last
  | String d s' => rfind_from c s' (i + 1) (if Ascii.eqb d c then i else last)
  end.

Definition rfind (c : ascii) (s : string) : Z := rfind_from c s 0 (-1).

(** The loop of [splitext] that skips the leading dots: there is a
    character other than "." at an index from [lo] up to [hi]. *)
Fixpoint nondot_between (s : string) (i lo hi : Z) : bool :=
  match s with
  | EmptyString => false
  | String c s' =>
      (lo <=? i) && (i <? hi) && negb (Ascii.eqb c ".")
      || nondot_between s' (i + 1) lo hi
  end.

(** [os.path.splitext(p)[1]] of posixpath. *)
Definition splitext_ext (p : string) : string :=
  let sepIndex := rfind "/" p in
  let dotIndex := rfind "." p in
  if (dotIndex >? sepIndex) && nondot_between p 0 (sepIndex + 1) dotIndex
  then substring (Z.to_nat dotIndex) (String.length p - Z.to_nat dotIndex) p
  else ""%string.

(** [validate_filename(filename)] *)
Definition validate_filename (unicode_word : ascii → bool)
    (filename : string) : res string :=
  if Py.falsy filename then Raise ValueError
  else
    let filename := basename filename in
    let filename := sanitize unicode_word filename in
    if Py.falsy (splitext_ext filename) then Raise ValueError
    else Ok filename.

End data_export_layer.

(** ** Scans that nothing interrupts *)

(** The calls [scan_ports] makes of a progress callback: for a port, with
    what [test_port] answered, and the advisory, with port 0. *)
Definition expected_call (w : World) (self : scanner_engine.ScannerEngine)
    (host : string) (thread_count cap : Z) (p : Z) (s : cb_status) : Prop :=
  s = StatusBool (is_open_at w self host p)
  ∨ (p = 0 ∧ s = StatusStr (advisory thread_count cap)).

(** A callback that, called so from a state in [I], returns in a state in
    [I]; or no callback. *)
Definition callback_returns {St} (I : St → Prop)
    (expected : Z → cb_status → Prop) (cb : option (callback St)) : Prop :=
  ∀ c, cb = Some c →
       ∀ p s, expected p s → spec I (c p s) (λ _, I) (λ _ _, False).

(** The result of the worker of [port]. *)
Definition result_for (w : World) (self : scanner_engine.ScannerEngine)
    (host : string) (port : Z) (r : worker_result) : Prop :=
  r.1.1.1 = port ∧ sound_result w self host r.

(** ** grab_http_banner: the text received *)

(** [text[i:]] *)
Fixpoint suffix_from (i : nat) (text : string) : string :=
  match i, text with
  | O, _ => text
  | S i', String _ text' => suffix_from i' text'
  | S _, EmptyString => EmptyString
  end.

(** An HTTP server that sends a status line, a header, a blank line and a
    body that has a blank line of its own. *)
Definition http_world : World :=
  world_of (fun _ => true) (Some 4%positive) Ok (Ok empty_cert)
    (Ok ""%string)
    [Data ("HTTP/1.1 200 OK" +:+ scanner_engine.CRLF +:+ "Server: x"
           +:+ scanner_engine.CRLF +:+ scanner_engine.CRLF
           +:+ "body" +:+ scanner_engine.CRLF +:+ scanner_engine.CRLF
           +:+ "more")%string].

(** ** flask_web_interface.py: complete_scan, statement by statement *)

(** [active_scans[scan_id]['status'] = status] *)
Definition write_status (scan_id new_status : string) : SM Flask unit :=
  let* s := get_scan scan_id in
  set_scan scan_id
    (mkScan new_status (progress s) (start_time s) (end_time s) (logs s)
       (results s) (cpu_cores s)).

(** [active_scans[scan_id]['end_time'] = datetime.now()] *)
Definition write_end_time (scan_id : string) : SM Flask unit :=
  let* t := now in
  let* s := get_scan scan_id in
  set_scan scan_id
    (mkScan (status s) (progress s) (start_time s) (Some t) (logs s)
       (results s) (cpu_cores s)).

(** [scan_results[scan_id] = active_scans[scan_id]['results']] *)
Definition publish_results (scan_id : string) : SM Flask unit :=
  let* s := get_scan scan_id in
  let* f := get in
  put (mkFlask (active_scans f) (<[scan_id := results s]> (scan_results f))
         (clock f) (completed_ports f)).

(** The three statements of [complete_scan], under its [if]. *)
Definition complete_scan_statements (scan_id new_status : string)
  : SM Flask unit :=
  let* f := get in
  match active_scans f !! scan_id with
  | Some _ =>
      let* _ := write_status scan_id new_status in
      let* _ := write_end_time scan_id in
      publish_results scan_id
  | None => ret tt
  end.

(** [complete_scan] in a thread that is suspended after its first
    statement while the server's thread handles a stop request for the
    same scan. *)
Definition complete_scan_stop_between (scan_id new_status : string)
  : SM Flask unit :=
  let* f := get in
  match active_scans f !! scan_id with
  | Some _ =>
      let* _ := write_status scan_id new_status in
      let* _ := api_stop_scan scan_id in
      let* _ := write_end_time scan_id in
      publish_results scan_id
  | None => ret tt
  end.

(** [scan_worker], with [finish] where it calls [complete_scan]. *)
Definition scan_worker_setup_with
    (finish : string → string → SM Flask unit) (w : World)
    (scan_id target : string) : SM Flask bool :=
  let* t := now in
  let* _ := set_scan scan_id (mkScan "running" 0 t None [] ∅ None) in
  match w_gethostbyname w target with
  | Ok ip_address =>
      let* _ :=
        if bool_decide (ip_address ≠ target)
        then add_log scan_id
               ("Resolved " +:+ target +:+ " to " +:+ ip_address) "info"
        else ret tt in
      ret true
  | Raise e =>
      let* _ := add_log scan_id
                  ("Failed to resolve " +:+ target +:+ ": "
                   +:+ w_str_exn w e) "error" in
      let* _ := finish scan_id "failed" in
      ret false
  end.

Definition scan_worker_scan_with
    (finish : string → string → SM Flask unit) (w : World)
    (scan_id target : string) (ports : loc) (thread_count timeout : Z)
  : M Flask unit :=
  let* self := get_engine in
  let* _ := set_engine (scanner_engine.set_timeout self timeout) in
  let* l := read_list ports in
  let total_ports := Z.of_nat (length l) in
  let* _ := in_user
              (let* f := get in
               put (mkFlask (active_scans f) (scan_results f) (clock f)
                      (<[scan_id := 0]> (completed_ports f)))) in
  let* found :=
    scan_ports w target ports thread_count
      (Some (update_progress w scan_id total_ports)) in
  in_user
    (let* s := get_scan scan_id in
     let* _ := set_scan scan_id
                 (mkScan (status s) (progress s) (start_time s)
                    (end_time s) (logs s) found (cpu_cores s)) in
     let* _ :=
       if bool_decide (found = ∅)
       then add_log scan_id "Scan completed. No open ports found."
              "warning"
       else add_log scan_id
              ("Scan completed. Found " +:+ pretty (size found)
               +:+ " open ports.") "info" in
     finish scan_id "completed").

Definition scan_worker_except_with
    (finish : string → string → SM Flask unit) (w : World)
    (scan_id : string) (e : exn) : M Flask unit :=
  in_user
    (let* _ := add_log scan_id ("Error during scan: " +:+ w_str_exn w e)
                 "error" in
     finish scan_id "failed").

Definition scan_worker_with
    (finish : string → string → SM Flask unit) (w : World)
    (scan_id target : string) (ports : loc) (thread_count timeout : Z)
  : M Flask unit :=
  try_catch
    (let* go_on := in_user (scan_worker_setup_with finish w scan_id target) in
     if go_on
     then scan_worker_scan_with finish w scan_id target ports thread_count
            timeout
     else ret tt)
    (scan_worker_except_with finish w scan_id).

(** The worker of the scan has ended and the scan is "stopped": it has an
    end time, and its results are published in [scan_results]. *)
Definition ended_stopped (scan_id : string) (f : Flask) : Prop :=
  ∃ s, active_scans f !! scan_id = Some s ∧
       status s = "stopped"%string ∧
       is_Some (end_time s) ∧
       scan_results f !! scan_id = Some (results s).
(** * Properties *)

(** ** Strings *)

Lemma length_append (s1 s2 : string) :
  String.length (s1 +:+ s2) = (String.length s1 + String.length s2)%nat.
Proof. induction s1 as [|c s1 IH]; simpl; [done | by rewrite IH]. Qed.

Lemma length_substring_le (s : string) (n k : nat) :
  (String.length (substring n k s) ≤ k)%nat.
Proof.
  revert n k. induction s as [|c s IH]; intros [|n] [|k]; simpl;
    try lia; try apply IH.
  specialize (IH 0%nat k). lia.
Qed.

(** ** test_port *)

(** What [test_port] returns, case by case. *)
Lemma test_port_spec (w : World) (self : ScannerEngine)
    (host : string) (port : Z) :
  ∃ b : bool,
    test_port w self host port = Ok b ∧
    (b = true ↔
       w_socket w ForProbe host port = Ok tt ∧
       0 ≤ timeout self ∧
       port_in_range port = true ∧
       w_connect_ex w (timeout self) host port = Ok 0).
Proof.
  unfold test_port, test_port_try, try_except, rbind, settimeout, connect_ex.
  destruct (w_socket w ForProbe host port) as [[]|e1] eqn:Hs.
  2:{ exists false. split; [done|]. split; [done|]. intros (? & _); done. }
  destruct (Z.ltb_spec (timeout self) 0) as [Ht|Ht].
  { exists false. split; [done|]. split; [done|]. intros (_ & ? & _); lia. }
  destruct (port_in_range port) eqn:Hp.
  2:{ exists false. split; [done|]. split; [done|]. intros (_ & _ & ? & _); done. }
  destruct (w_connect_ex w (timeout self) host port) as [code|e2] eqn:Hc.
  2:{ exists false. split; [done|]. split; [done|]. intros (_ & _ & _ & ?); done. }
  exists (code =? 0). split; [done|]. rewrite Z.eqb_eq. split.
  - intros ->. done.
  - intros (_ & _ & _ & [= ->]). done.
Qed.

(** A refused, timed-out or unresolvable connection reads as closed. *)
Lemma test_port_connect_error (w : World) (self : ScannerEngine)
    (host : string) (port : Z) (e : exn) :
  w_connect_ex w (timeout self) host port = Raise e →
  test_port w self host port = Ok false.
Proof.
  intros He.
  destruct (test_port_spec w self host port) as ([] & Hb & Hiff);
    [|done].
  destruct Hiff as [Hiff _]. destruct (Hiff eq_refl) as (_ & _ & _ & Hc).
  congruence.
Qed.

(** C7. For every host and port [test_port] returns a boolean and raises
    nothing: any exception of the socket calls (refused, timed out,
    unreachable, unresolved) gives [False], and [True] is returned exactly
    when the socket is made, the timeout is accepted and [connect_ex]
    reports 0 within that timeout. *)
Theorem test_port_returns_bool (w : World) (self : ScannerEngine)
    (host : string) (port : Z) :
  (∃ b : bool, test_port w self host port = Ok b) ∧
  (∀ e, w_connect_ex w (timeout self) host port = Raise e →
        test_port w self host port = Ok false) ∧
  (∀ code, w_connect_ex w (timeout self) host port = Ok code → code ≠ 0 →
           test_port w self host port = Ok false) ∧
  (test_port w self host port = Ok true ↔
     w_socket w ForProbe host port = Ok tt ∧
     0 ≤ timeout self ∧
     port_in_range port = true ∧
     w_connect_ex w (timeout self) host port = Ok 0).
Proof.
  destruct (test_port_spec w self host port) as (b & Hb & Hiff).
  split_and!.
  - eauto.
  - intros e. apply test_port_connect_error.
  - intros code Hcode Hne. rewrite Hb. f_equal.
    destruct b; [|done]. destruct (proj1 Hiff eq_refl) as (_ & _ & _ & Hc).
    congruence.
  - rewrite Hb. rewrite <- Hiff. split; [by intros [= ->] | by intros ->].
Qed.

(** ** grab_http_banner: the size of the response *)

Lemma recv_length (n : nat) (stream : list recv_event) (chunk : string) :
  (recv n stream).1 = Ok chunk → (String.length chunk ≤ n)%nat.
Proof.
  destruct stream as [|[d|e] rest]; simpl.
  - intros [= <-]. simpl. lia.
  - destruct (Nat.leb_spec (String.length d) n); simpl; intros [= <-];
      [done | apply length_substring_le].
  - done.
Qed.

Lemma falsy_length (s : string) :
  Py.falsy s = false → (1 ≤ String.length s)%nat.
Proof. destruct s; simpl; [done | lia]. Qed.

(** With [fuel] iterations left and a response that is still within the
    threshold, the loop ends before the fuel does, and what it returns is
    at most one chunk beyond the threshold. *)
Lemma recv_loop_bound (fuel : nat) :
  ∀ (stream : list recv_event) (response : string),
    Z.of_nat (String.length response) ≤ 8192 →
    8192 < Z.of_nat fuel + Z.of_nat (String.length response) →
    ∃ r, recv_loop fuel stream response = Some r ∧
         Z.of_nat (response_length r) ≤ 8192 + 4096.
Proof.
  induction fuel as [|fuel IH]; intros stream response Hle Hfuel; [lia|].
  simpl. destruct (recv 4096 stream) as [[chunk|e] stream'] eqn:Hrecv.
  - destruct (Py.falsy chunk) eqn:Hchunk.
    { eexists; split; [done|]. simpl. lia. }
    assert (String.length chunk ≤ 4096)%nat as Hc.
    { apply (recv_length 4096 stream). by rewrite Hrecv. }
    apply falsy_length in Hchunk.
    pose proof (length_append response chunk) as Happ.
    destruct (Z.ltb_spec 8192
                (Z.of_nat (String.length (response +:+ chunk)))) as [Hgt|Hok].
    + eexists; split; [done|]. simpl. lia.
    + apply IH; lia.
  - eexists; split; [done|]. destruct (is_socket_timeout e); simpl; lia.
Qed.

Lemma recv_fuel_enough : 8192 < Z.of_nat recv_fuel.
Proof. unfold recv_fuel. lia. Qed.

(** C9, as the code has it. The receive loop of [grab_http_banner] always
    ends, and the response it has accumulated is at most 12288 bytes: the
    loop stops once the response exceeds 8192 bytes, and the chunk that
    takes it there is up to 4096 bytes long. *)
Theorem http_response_at_most_12288 (w : World) (host : string) (port : Z) :
  ∃ r : res string,
    recv_loop recv_fuel (w_http_stream w host port) "" = Some r ∧
    http_response w host port = r ∧
    Z.of_nat (response_length r) ≤ 12288.
Proof.
  destruct (recv_loop_bound recv_fuel (w_http_stream w host port) "")
    as (r & Hr & Hlen).
  - simpl. lia.
  - pose proof recv_fuel_enough. simpl. lia.
  - exists r. unfold http_response. rewrite Hr. simpl. split_and!; [done..|lia].
Qed.

(** C9 as stated fails: three segments of 4096 bytes are all accumulated,
    12288 bytes, more than 8192. *)
Lemma http_response_exceeds_8192 :
  Z.of_nat (response_length (http_response chatty_world "h" 80)) = 12288 ∧
  ¬ Z.of_nat (response_length (http_response chatty_world "h" 80)) ≤ 8192.
Proof.
  assert (Z.of_nat (response_length (http_response chatty_world "h" 80))
          = 12288) as H by (vm_compute; reflexivity).
  rewrite H. split; [done | lia].
Qed.

(** ** The registry *)

(** Unfolds the plumbing of the state monad. *)
Ltac sm := repeat (unfold bind, get, put, ret, raise, lift; simpl).

Lemma get_scan_run (f : Flask) (scan_id : string) (s : scan_state) :
  active_scans f !! scan_id = Some s → get_scan scan_id f = (f, Ok s).
Proof. intros H. unfold get_scan. sm. by rewrite H. Qed.

Lemma add_log_run (f : Flask) (scan_id msg lvl : string) (s : scan_state) :
  active_scans f !! scan_id = Some s →
  add_log scan_id msg lvl f =
    (mkFlask
       (<[scan_id := mkScan (status s) (progress s) (start_time s)
                       (end_time s) (logs s ++ [mkLog (clock f) msg lvl])
                       (results s) (cpu_cores s)]> (active_scans f))
       (scan_results f) (S (clock f)) (completed_ports f), Ok tt).
Proof.
  intros H. unfold add_log, now, get_scan, set_scan. sm. rewrite !H. done.
Qed.

Lemma add_log_run_absent (f : Flask) (scan_id msg lvl : string) :
  active_scans f !! scan_id = None → add_log scan_id msg lvl f = (f, Ok tt).
Proof. intros H. unfold add_log, bind, get, ret. simpl. by rewrite H. Qed.

(** [complete_scan] has no guard on the present status: whatever it is, it
    is replaced. *)
Lemma complete_scan_run (f : Flask) (scan_id st : string) (s : scan_state) :
  active_scans f !! scan_id = Some s →
  complete_scan scan_id st f =
    (mkFlask
       (<[scan_id := mkScan st (progress s) (start_time s) (Some (clock f))
                       (logs s) (results s) (cpu_cores s)]> (active_scans f))
       (<[scan_id := results s]> (scan_results f))
       (S (clock f)) (completed_ports f), Ok tt).
Proof.
  intros H. unfold complete_scan, now, get_scan, set_scan. sm. rewrite !H.
  sm. rewrite !lookup_insert_eq. sm. rewrite !insert_insert_eq. done.
Qed.

Lemma complete_scan_run_absent (f : Flask) (scan_id st : string) :
  active_scans f !! scan_id = None → complete_scan scan_id st f = (f, Ok tt).
Proof. intros H. unfold complete_scan, bind, get, ret. simpl. by rewrite H. Qed.

Lemma complete_scan_status (f : Flask) (scan_id st : string) :
  is_Some (active_scans f !! scan_id) →
  status_of (complete_scan scan_id st f).1 scan_id = Some st.
Proof.
  intros [s H]. rewrite (complete_scan_run _ _ _ _ H). unfold status_of.
  simpl. by rewrite lookup_insert_eq.
Qed.

(** Stop on any registered scan, whatever its status, makes it "stopped". *)
Lemma api_stop_scan_status (f : Flask) (scan_id : string) :
  is_Some (active_scans f !! scan_id) →
  status_of (api_stop_scan scan_id f).1 scan_id = Some "stopped"%string ∧
  (api_stop_scan scan_id f).2 = Ok Stopped200.
Proof.
  intros [s H]. unfold api_stop_scan, bind, get, ret. simpl. rewrite H.
  rewrite (complete_scan_run _ _ _ _ H). unfold status_of. simpl.
  by rewrite lookup_insert_eq.
Qed.

Lemma api_stop_scan_unknown (f : Flask) (scan_id : string) :
  active_scans f !! scan_id = None →
  api_stop_scan scan_id f = (f, Ok NotFound404).
Proof. intros H. unfold api_stop_scan, bind, get, ret. simpl. by rewrite H. Qed.

(** [scan_worker] is its first two steps followed, when the target
    resolved, by the rest. *)
Lemma scan_worker_split (w : World) (scan_id target : string) (ports : loc)
    (thread_count timeout : Z) (m : Machine Flask) :
  scan_worker w scan_id target ports thread_count timeout m =
  match in_user (scan_worker_setup w scan_id target) m with
  | (m1, Ok true) =>
      scan_worker_resume w scan_id target ports thread_count timeout m1
  | (m1, Ok false) => (m1, Ok tt)
  | (m1, Raise e) => scan_worker_except w scan_id e m1
  end.
Proof.
  unfold scan_worker, scan_worker_resume, try_catch, bind.
  destruct (in_user (scan_worker_setup w scan_id target) m) as [m1 [[]|e]];
    done.
Qed.

(** The first two steps when the resolver raises. *)
Lemma scan_worker_setup_unresolved (w : World) (scan_id target : string)
    (f : Flask) (e : exn) :
  w_gethostbyname w target = Raise e →
  ∃ f', scan_worker_setup w scan_id target f = (f', Ok false) ∧
        status_of f' scan_id = Some "failed"%string ∧
        results_of f' scan_id = Some ∅ ∧
        scan_results f' !! scan_id = Some ∅.
Proof.
  intros He. unfold scan_worker_setup. rewrite He.
  unfold bind at 1. unfold now at 1. unfold bind at 1, get at 1.
  unfold bind at 1, put at 1. unfold ret at 1.
  unfold bind at 1, set_scan at 1. unfold bind at 1, get at 1, put at 1.
  cbn [active_scans scan_results clock completed_ports].
  set (s0 := mkScan "running" 0 (clock f) None [] ∅ None).
  set (f1 := mkFlask _ _ _ _).
  assert (active_scans f1 !! scan_id = Some s0) as H1
    by (subst f1; simpl; apply lookup_insert_eq).
  unfold bind at 1. rewrite (add_log_run _ _ _ _ _ H1).
  set (f2 := mkFlask _ _ _ _).
  assert (∃ s2, active_scans f2 !! scan_id = Some s2 ∧ results s2 = ∅)
    as (s2 & H2 & Hres).
  { eexists. subst f2. simpl. rewrite lookup_insert_eq. done. }
  unfold bind at 1. rewrite (complete_scan_run _ _ _ _ H2).
  eexists. split; [reflexivity|]. unfold status_of, results_of. simpl.
  rewrite !lookup_insert_eq. simpl. by rewrite Hres.
Qed.

(** C4. If resolving the target fails, [scan_worker] ends at once: the scan
    is "failed", its results are the empty dictionary (also in
    [scan_results]), and nothing was probed: the trace is as before. *)
Theorem resolution_failure_aborts (w : World) (scan_id target : string)
    (ports : loc) (thread_count timeout : Z) (m : Machine Flask) (e : exn) :
  w_gethostbyname w target = Raise e →
  let out := scan_worker w scan_id target ports thread_count timeout m in
  out.2 = Ok tt ∧
  status_of (user out.1) scan_id = Some "failed"%string ∧
  results_of (user out.1) scan_id = Some ∅ ∧
  scan_results (user out.1) !! scan_id = Some ∅ ∧
  trace out.1 = trace m ∧
  heap out.1 = heap m.
Proof.
  intros He. simpl. rewrite scan_worker_split. unfold in_user.
  destruct (scan_worker_setup_unresolved w scan_id target (user m) e He)
    as (f' & -> & Hst & Hres & Hsr).
  simpl. done.
Qed.

Lemma resolution_failure_aborts_witness :
  let out := scan_worker unresolved_world "1_h" "h" DEFAULT_PORTS_loc 10 1000
               (initial_machine unresolved_world) in
  out.2 = Ok tt ∧
  status_of (user out.1) "1_h" = Some "failed"%string ∧
  results_of (user out.1) "1_h" = Some ∅ ∧
  scan_results (user out.1) !! "1_h"%string = Some ∅ ∧
  trace out.1 = [] ∧
  heap out.1 = initial_heap.
Proof.
  apply (resolution_failure_aborts unresolved_world "1_h" "h"
           DEFAULT_PORTS_loc 10 1000 (initial_machine unresolved_world)
           Gaierror).
  reflexivity.
Defined.

(** ** Stop *)

(** C1, evaluated. A running scan that is stopped reads "stopped", but the
    worker thread goes on, and when its scan returns it marks the scan
    "completed"; a stop request for a scan that has completed turns it
    into "stopped". *)
Theorem stop_is_not_terminal :
  status_of (user scan_started) "1_h" = Some "running"%string ∧
  status_of (user scan_stopped) "1_h" = Some "stopped"%string ∧
  status_of (user scan_resumed) "1_h" = Some "completed"%string ∧
  status_of (user scan_stopped_again) "1_h" = Some "stopped"%string ∧
  status_of (user scan_completed) "1_h" = Some "completed"%string ∧
  status_of (user scan_stopped_late) "1_h" = Some "stopped"%string ∧
  end_time <$> (active_scans (user scan_completed) !! "1_h"%string)
    ≠ end_time <$> (active_scans (user scan_stopped_late) !! "1_h"%string).
Proof. vm_compute. split_and!; done. Qed.

(** The stopped scan was scanned to the end: all 21 ports were probed after
    the stop request. *)
Lemma stopped_scan_still_probes :
  length (probed (trace scan_resumed)) = 21%nat.
Proof. vm_compute. reflexivity. Qed.

(** ** Port-range parsing *)

(** C3, evaluated on [parse_port_range]. The empty string gives the default
    list and the scenario its five ports, but nothing is validated: 70000
    and 0 are returned as ports, and a reversed range is dropped silently
    instead of failing the parse. *)
Theorem parse_port_range_does_not_validate :
  let m := initial_machine ssh_world in
  (parsed_ports "" m).2 = Ok DEFAULT_PORTS ∧
  (parsed_ports "80,443,8000-8002" m).2 = Ok [80; 443; 8000; 8001; 8002] ∧
  (parsed_ports "443,80,80" m).2 = Ok [80; 443] ∧
  (parsed_ports "70000" m).2 = Ok [70000] ∧
  (parsed_ports "0" m).2 = Ok [0] ∧
  (parsed_ports "65530-65537" m).2
    = Ok [65530; 65531; 65532; 65533; 65534; 65535; 65536; 65537] ∧
  (parsed_ports "80,5-3" m).2 = Ok [80].
Proof. vm_compute. split_and!; reflexivity. Qed.

(** The sibling [validate_port_range] refuses those inputs, and the empty
    string too. *)
Lemma validate_port_range_examples :
  validate_port_range "80,443,8000-8002" = Ok [80; 443; 8000; 8001; 8002] ∧
  validate_port_range "70000" = Raise ValueError ∧
  validate_port_range "0" = Raise ValueError ∧
  validate_port_range "65530-65537" = Raise ValueError ∧
  validate_port_range "80,5-3" = Raise ValueError ∧
  validate_port_range "" = Raise ValueError.
Proof. vm_compute. split_and!; reflexivity. Qed.

Lemma validate_part_in_range (part : string) (ps : list Z) :
  validate_part part = Ok ps → Forall (λ p, 1 ≤ p ≤ 65535) ps.
Proof.
  unfold validate_part. destruct (Py.contains "-" (Py.strip part)).
  - destruct (Py.split "-" (Py.strip part)) as [|a [|b [|c rest]]]; try done.
    destruct (Py.int a) as [start|]; [|done].
    destruct (Py.int b) as [end_|]; [|done]. simpl.
    destruct (Z.ltb_spec start 1); [done|].
    destruct (Z.gtb_spec end_ 65535); [done|]. simpl.
    destruct (Z.gtb_spec start end_); [done|].
    intros [= <-]. apply Forall_forall. intros p Hp.
    apply elem_of_seqZ in Hp. lia.
  - destruct (Py.int (Py.strip part)) as [port|]; [|done]. simpl.
    destruct (Z.ltb_spec port 1); [done|].
    destruct (Z.gtb_spec port 65535); [done|]. simpl.
    intros [= <-]. apply Forall_singleton. lia.
Qed.

Lemma validate_parts_in_range (parts : list string) :
  ∀ acc vs,
    validate_parts parts acc = Ok vs →
    Forall (λ p, 1 ≤ p ≤ 65535) acc →
    Forall (λ p, 1 ≤ p ≤ 65535) vs.
Proof.
  induction parts as [|part rest IH]; intros acc vs; simpl.
  - by intros [= <-].
  - unfold rbind. destruct (validate_part part) as [ps|] eqn:Hpart; [|done].
    intros Hrest Hacc. apply (IH _ _ Hrest).
    apply Forall_app. split; [done | by eapply validate_part_in_range].
Qed.

(** Whatever [validate_port_range] returns is a sorted list without
    duplicates of ports between 1 and 65535. *)
Lemma validate_port_range_valid (port_range : string) (l : list Z) :
  validate_port_range port_range = Ok l →
  Forall (λ p, 1 ≤ p ≤ 65535) l ∧ NoDup l ∧ Sorted Z.le l.
Proof.
  unfold validate_port_range. destruct (Py.falsy port_range); [done|].
  destruct (validate_parts (Py.split "," port_range) []) as [vs|] eqn:Hvs;
    [|done].
  simpl. intros [= <-]. unfold Py.sorted, Py.set_list.
  split_and!.
  - rewrite merge_sort_Permutation. apply Forall_forall. intros p Hp.
    rewrite elem_of_remove_dups in Hp.
    pose proof (validate_parts_in_range _ _ _ Hvs (Forall_nil_2 _)) as Hall.
    rewrite Forall_forall in Hall. by apply Hall.
  - rewrite merge_sort_Permutation. apply NoDup_remove_dups.
  - apply (Sorted_merge_sort Z.le).
Qed.

(** The list [parse_port_range] returns for the empty string is the
    [DEFAULT_PORTS] object, which a scan shuffles: after one scan of the
    default ports the empty string no longer gives the list in the
    documented order. *)
Lemma default_ports_are_shuffled_in_place :
  (parse_port_range "" scan_completed).2 = Ok DEFAULT_PORTS_loc ∧
  (parsed_ports "" scan_completed).2
    = Ok [22; 23; 25; 53; 80; 110; 123; 135; 139; 143; 389; 443; 445; 993;
          995; 1723; 3306; 3389; 5900; 8080; 21].
Proof. vm_compute. split; reflexivity. Qed.

(** ** The shuffle *)

Lemma insert_Permutation_cons (t : list Z) :
  ∀ (j : nat) (a b : Z), t !! j = Some b → b :: <[j := a]> t ≡ₚ a :: t.
Proof.
  induction t as [|c t IH]; intros [|j] a b H; simplify_eq/=.
  - apply perm_swap.
  - rewrite (perm_swap c b). rewrite (IH j a b H). apply perm_swap.
Qed.

Lemma swap_values_Permutation (x : list Z) :
  ∀ (i j : nat) (xi xj : Z),
    x !! i = Some xi → x !! j = Some xj →
    <[j := xi]> (<[i := xj]> x) ≡ₚ x.
Proof.
  induction x as [|c x IH]; intros [|i] [|j] xi xj Hi Hj; simplify_eq/=.
  - done.
  - by apply insert_Permutation_cons.
  - by apply insert_Permutation_cons.
  - f_equiv. by apply IH.
Qed.

Lemma swap_Permutation (x : list Z) (i j : nat) : swap x i j ≡ₚ x.
Proof.
  unfold swap. destruct (x !! i) as [xi|] eqn:Hi; [|done].
  destruct (x !! j) as [xj|] eqn:Hj; [|done].
  by apply swap_values_Permutation.
Qed.

Lemma shuffle_from_Permutation (w : World) (i : nat) :
  ∀ x, shuffle_from w i x ≡ₚ x.
Proof.
  induction i as [|i IH]; intros x; simpl; [done|].
  rewrite IH. apply swap_Permutation.
Qed.

(** [random.shuffle] returns the same ports, each as often as before. *)
Lemma shuffle_Permutation (w : World) (x : list Z) : shuffle w x ≡ₚ x.
Proof. apply shuffle_from_Permutation. Qed.

Lemma shuffle_length (w : World) (x : list Z) :
  length (shuffle w x) = length x.
Proof. by rewrite shuffle_Permutation. Qed.


Lemma shuffle_from_length (w : World) (i : nat) (x : list Z) :
  length (shuffle_from w i x) = length x.
Proof. by rewrite shuffle_from_Permutation. Qed.








(** The shuffle step writes the list object and nothing else. *)
Lemma random_shuffle_run {St} (w : World) (ports : loc) (m : Machine St)
    (P : list Z) :
  heap m !! ports = Some P →
  random_shuffle w ports m =
    (mkMachine (user m) (<[ports := shuffle w P]> (heap m)) (engine m)
       (tm m) (trace m), Ok tt).
Proof.
  intros H. unfold random_shuffle, read_list, write_list, bind. by rewrite H.
Qed.

(** ** The worker *)

(** [grab_banner] returns a dictionary, whatever happens inside. *)
Lemma grab_banner_total (w : World) (self : ScannerEngine) (host : string)
    (port : Z) (service : string) :
  ∃ info, grab_banner w self host port service = Ok info.
Proof.
  unfold grab_banner.
  destruct (grab_banner_try w self host port service banner_info_default)
    as [info [[]|e]]; eauto.
Qed.

Lemma test_port_total (w : World) (self : ScannerEngine) (host : string)
    (port : Z) :
  ∃ b, test_port w self host port = Ok b.
Proof.
  destruct (test_port_spec w self host port) as (b & H & _). eauto.
Qed.

Lemma test_port_open_in_range (w : World) (self : ScannerEngine)
    (host : string) (port : Z) :
  test_port w self host port = Ok true → port_in_range port = true.
Proof.
  intros H. destruct (test_port_spec w self host port)
    as (b & Hb & Hiff).
  rewrite H in Hb. simplify_eq. by destruct (proj1 Hiff eq_refl) as (_&_&?&_).
Qed.

(** The classifier returns a name for every port a connection can be made
    to. *)
Lemma fetch_service_info_total (w : World) (port : Z) :
  port_in_range port = true → ∃ name, fetch_service_info w port = Ok name.
Proof.
  intros Hp. unfold fetch_service_info, try_except, getservbyport.
  rewrite Hp. destruct (SERVICE_MAP !! port); [eauto|].
  destruct (w_services w port); simpl; eauto.
Qed.

(** What a worker adds to the trace. *)
Lemma scan_port_worker_run {St} (w : World) (host : string) (port : Z)
    (cb : option (callback St)) (m : Machine St) :
  ∃ (b : bool) (u : St) (r : res worker_result),
    test_port w (engine m) host port = Ok b ∧
    scan_port_worker w host port cb m =
      (mkMachine u (heap m) (engine m) (tm m)
         (trace m ++ Probe host port
            :: match cb with
               | Some _ => [Progress port (StatusBool b)]
               | None => []
               end), r) ∧
    (cb = None → u = user m ∧ is_Ok r = true) ∧
    ∀ p o service info,
      r = Ok (p, o, service, info) →
      p = port ∧ o = b ∧
      (o = true → fetch_service_info w port = Ok service).
Proof.
  destruct (test_port_total w (engine m) host port) as [b Hb].
  exists b. unfold scan_port_worker, get_engine, emit, lift, bind, ret, in_user.
  cbn [user heap engine tm trace]. rewrite Hb.
  destruct b.
  - destruct (fetch_service_info_total w port
                (test_port_open_in_range _ _ _ _ Hb)) as [name Hname].
    rewrite Hname.
    destruct (grab_banner_total w (engine m) host port name) as [info Hinfo].
    rewrite Hinfo. cbn [user heap engine tm trace].
    destruct cb as [cb|]; cbn [user heap engine tm trace].
    + destruct (cb port (StatusBool true) (user m)) as [u [[]|e]] eqn:Hcb;
        cbn [user heap engine tm trace];
        rewrite <- !app_assoc; simpl;
        (eexists _, _; split_and!; [done|reflexivity|done|]).
      * intros ???? [= <- <- <- <-]. done.
      * done.
    + eexists _, _; split_and!; [done|reflexivity|done|].
      intros ???? [= <- <- <- <-]. done.
  - destruct cb as [cb|]; cbn [user heap engine tm trace].
    + destruct (cb port (StatusBool false) (user m)) as [u [[]|e]] eqn:Hcb;
        cbn [user heap engine tm trace];
        rewrite <- !app_assoc; simpl;
        (eexists _, _; split_and!; [done|reflexivity|done|]).
      * intros ???? [= <- <- <- <-]. done.
      * done.
    + eexists _, _; split_and!; [done|reflexivity|done|].
      intros ???? [= <- <- <- <-]. done.
Qed.

(** ** The pool *)

Lemma submit_prefix {T} (w : World) (self : ThreadingModule) (tasks : list T) :
  ∀ i, ∃ k, threading_module.submit w self tasks i = take k tasks.
Proof.
  induction tasks as [|t rest IH]; intros i; simpl.
  - by exists 0%nat.
  - destruct (threading_module.stop_is_set w self i).
    + by exists 0%nat.
    + destruct (IH (S i)) as [k Hk]. exists (S k). simpl. by rewrite Hk.
Qed.

(** Without a stop signal every task is submitted. *)
Lemma submit_all {T} (w : World) (self : ThreadingModule) (tasks : list T) :
  stop_event self = false → w_stop_at w = None →
  ∀ i, threading_module.submit w self tasks i = tasks.
Proof.
  intros Hs Hw. induction tasks as [|t rest IH]; intros i; simpl; [done|].
  unfold threading_module.stop_is_set. rewrite Hs, Hw. simpl. by rewrite IH.
Qed.

(** Whatever the second loop returns came out of a future. *)
Lemma collect_sound {A} (w : World) (self : ThreadingModule)
    (truthy : A → bool) (base : nat) (outcomes : list (res A)) :
  ∀ j results x,
    x ∈ threading_module.collect w self truthy base outcomes j results →
    x ∈ results ∨ Ok x ∈ outcomes.
Proof.
  induction outcomes as [|o rest IH]; intros j results x; simpl; [by left|].
  destruct (threading_module.stop_is_set w self (base + j)); [by left|].
  destruct (w_future_timeout w j).
  { intros H. destruct (IH _ _ _ H); [by left | right; by right]. }
  destruct o as [a|e].
  - intros H. destruct (IH _ _ _ H) as [Hin|Hin]; [|right; by right].
    destruct (truthy a); [|by left].
    apply elem_of_app in Hin as [Hin|Hin]; [by left|].
    apply list_elem_of_singleton in Hin as ->. right. by left.
  - intros H. destruct (IH _ _ _ H); [by left | right; by right].
Qed.

(** The pool on the workers of [L]: the objects are untouched, the trace
    gets the events of each worker in turn, and every future that holds a
    result holds a sound one for a port of [L]. *)
Lemma run_pool_workers {St} (w : World) (host : string)
    (cb : option (callback St)) (L : list Z) :
  ∀ m : Machine St,
    ∃ (u : St) (outcomes : list (res worker_result)),
      threading_module.run_pool (workers w host cb L) m =
        (mkMachine u (heap m) (engine m) (tm m)
           (trace m ++ flat_map (worker_events w (engine m) host
                                   (bool_decide (is_Some cb))) L),
         outcomes) ∧
      (cb = None → u = user m) ∧
      ∀ r, Ok r ∈ outcomes → r.1.1.1 ∈ L ∧ sound_result w (engine m) host r.
Proof.
  induction L as [|port L IH]; intros m; simpl.
  - exists (user m), []. rewrite app_nil_r. destruct m. split_and!; [done..|].
    intros r Hr. by apply elem_of_nil in Hr.
  - destruct (scan_port_worker_run w host port cb m)
      as (b & u & r & Hb & Hrun & Hnone & Hr).
    rewrite Hrun.
    destruct (IH (mkMachine u (heap m) (engine m) (tm m)
                    (trace m ++ Probe host port
                       :: match cb with
                          | Some _ => [Progress port (StatusBool b)]
                          | None => []
                          end))) as (u' & outcomes & Hpool & Hnone' & Hout).
    fold (workers w host cb L). rewrite Hpool. cbn [user heap engine tm trace].
    exists u', (r :: outcomes). split_and!.
    + f_equal. f_equal. rewrite <- app_assoc. f_equal.
      unfold worker_events at 2, is_open_at. rewrite Hb.
      destruct cb; simpl; done.
    + intros ->. destruct (Hnone eq_refl) as [-> _]. by apply Hnone'.
    + intros r0 Hin. apply elem_of_cons in Hin as [Heq|Hin].
      * destruct r0 as [[[p o] service] info]. symmetry in Heq.
        destruct (Hr _ _ _ _ Heq) as (-> & -> & Hs).
        simpl. split; [by left|]. done.
      * destruct (Hout _ Hin) as [HinL Hsound]. split; [by right | done].
Qed.

Lemma workers_length {St} (w : World) (host : string)
    (cb : option (callback St)) (L : list Z) :
  length (workers w host cb L) = length L.
Proof. apply length_fmap. Qed.

Lemma workers_take {St} (w : World) (host : string)
    (cb : option (callback St)) (L : list Z) (k : nat) :
  take k (workers w host cb L) = workers w host cb (take k L).
Proof. unfold workers. by rewrite fmap_take. Qed.

(** [execute_tasks] on the workers of [L]: one pool is made, with the
    optimal count; the workers of a prefix of [L] run (of all of [L] when
    nothing stops the run); the results are sound results for ports of
    [L]; the lists and the engine are untouched. *)
Lemma execute_tasks_workers {St} (w : World) (host : string)
    (cb : option (callback St)) (L : list Z) (thread_count : Z)
    (m : Machine St) :
  let self := mkTM false (MAX_THREAD_COUNT (tm m)) in
  let optimal :=
    threading_module.optimal_thread_count self (length L) thread_count in
  ∃ (u : St) (t' : ThreadingModule) (k : nat) (r : res (list worker_result)),
    threading_module.execute_tasks w (λ _ : worker_result, true)
      (workers w host cb L) thread_count m =
      (mkMachine u (heap m) (engine m) t'
         (trace m ++ ThreadPool optimal
            :: flat_map (worker_events w (engine m) host
                           (bool_decide (is_Some cb))) (take k L)), r) ∧
    (cb = None → u = user m) ∧
    (optimal ≤ 0 → take k L = [] ∧ r = Raise ValueError) ∧
    (0 < optimal →
       (w_stop_at w = None → take k L = L) ∧
       ∃ results, r = Ok results ∧
         ∀ x, x ∈ results → x.1.1.1 ∈ L ∧ sound_result w (engine m) host x).
Proof.
  intros self optimal.
  unfold threading_module.execute_tasks, get_tm, set_tm, emit, bind, raise,
    ret.
  cbn [user heap engine tm trace MAX_THREAD_COUNT].
  rewrite !workers_length. fold self. fold optimal.
  destruct (Z.leb_spec optimal 0) as [Hle|Hgt].
  { exists (user m), self, 0%nat, (Raise ValueError). simpl.
    split_and!; [done..|lia]. }
  destruct (submit_prefix w self (workers w host cb L) 0) as [k0 Hk0].
  rewrite Hk0. rewrite workers_take.
  destruct (run_pool_workers w host cb (take k0 L)
              (mkMachine (user m) (heap m) (engine m) self
                 (trace m ++ [ThreadPool optimal])))
    as (u & outcomes & Hpool & Hnone & Hout).
  rewrite Hpool. cbn [user heap engine tm trace MAX_THREAD_COUNT].
  eexists u, _, k0, _. split_and!.
  - rewrite <- app_assoc. simpl. reflexivity.
  - done.
  - lia.
  - intros _. split.
    + intros Hstop.
      rewrite (submit_all w self (workers w host cb L) eq_refl Hstop) in Hk0.
      apply (f_equal length) in Hk0.
      rewrite length_take, !workers_length in Hk0.
      apply take_ge. lia.
    + eexists. split; [reflexivity|]. intros x Hx.
      apply collect_sound in Hx as [Hx|Hx]; [by apply elem_of_nil in Hx|].
      destruct (Hout _ Hx) as [Hin Hsound]. split; [|done].
      by apply (subseteq_take k0 L).
Qed.

(** ** scan_ports *)

Lemma read_list_run {St} (ports : loc) (m : Machine St) (P : list Z) :
  heap m !! ports = Some P → read_list ports m = (m, Ok P).
Proof. intros H. unfold read_list. by rewrite H. Qed.

Lemma collect_open_sound (results : list worker_result) :
  ∀ (acc : gmap Z port_data) (port : Z) (d : port_data),
    collect_open results acc !! port = Some d →
    acc !! port = Some d ∨
    ∃ service info,
      (port, true, service, info) ∈ results ∧ pd_service d = service.
Proof.
  induction results as [|[[[p o] service] info] rest IH]; intros acc port d;
    simpl; [by left|].
  intros H. destruct (IH _ _ _ H) as [Hacc|(s & i & Hin & Hd)].
  - destruct o; [|by left].
    destruct (decide (p = port)) as [->|Hne].
    + rewrite lookup_insert_eq in Hacc. simplify_eq. right.
      exists service, info. split; [by left|]. by destruct info.
    + rewrite lookup_insert_ne in Hacc by done. by left.
  - right. exists s, i. split; [by right | done].
Qed.

(** What a call of [scan_ports] does, when the list object exists and the
    CPU count is known.  Either the advisory call raised and nothing else
    happened, or: the list object holds its shuffle; one pool was made; the
    workers of a prefix of the shuffled list ran, of all of it when nothing
    stopped the run; and the dictionary returned was collected from sound
    results for ports of the list. *)
Lemma scan_ports_run {St} (w : World) (host : string) (ports : loc)
    (thread_count : Z) (cb : option (callback St)) (m : Machine St)
    (P : list Z) (n : positive) :
  heap m !! ports = Some P →
  w_cpu_count w = Some n →
  let cap := Z.pos n * 2 in
  let adv := advisory_events thread_count cap cb in
  let optimal :=
    pool_size (MAX_THREAD_COUNT (tm m)) thread_count cap (length P) in
  ∃ (m' : Machine St) (r : res (gmap Z port_data)),
    scan_ports w host ports thread_count cb m = (m', r) ∧
    engine m' = engine m ∧
    (cb = None → user m' = user m) ∧
    ((∃ e, advisory_outcome thread_count cap cb (user m) = Raise e ∧
           r = Raise e ∧ heap m' = heap m ∧ trace m' = trace m ++ adv)
     ∨
     (∃ k : nat,
        advisory_outcome thread_count cap cb (user m) = Ok tt ∧
        heap m' = <[ports := shuffle w P]> (heap m) ∧
        trace m' =
          trace m ++ adv ++ ThreadPool optimal
            :: flat_map (worker_events w (engine m) host
                           (bool_decide (is_Some cb)))
                 (take k (shuffle w P)) ∧
        (optimal ≤ 0 → take k (shuffle w P) = [] ∧ r = Raise ValueError) ∧
        (0 < optimal →
           (w_stop_at w = None → take k (shuffle w P) = shuffle w P) ∧
           ∃ results,
             r = Ok (collect_open results ∅) ∧
             ∀ x, x ∈ results →
                  x.1.1.1 ∈ P ∧ sound_result w (engine m) host x))).
Proof.
  intros HP Hcpu cap adv optimal.
  assert (∀ (u : St) (tr : list event) (tc : Z),
    let m1 := mkMachine u (heap m) (engine m) (tm m) tr in
    let opt := threading_module.optimal_thread_count
                 (mkTM false (MAX_THREAD_COUNT (tm m))) (length P)
                 (Z.min tc (Z.of_nat (length P))) in
    ∃ (m' : Machine St) (r : res (gmap Z port_data)),
      (let* before := read_list ports in
       let effective_thread_count := Z.min tc (Z.of_nat (length before)) in
       let* _ := random_shuffle w ports in
       let* shuffled := read_list ports in
       let tasks :=
         (fun port => scan_port_worker w host port cb) <$> shuffled in
       let* results :=
         threading_module.execute_tasks w (fun _ : worker_result => true)
           tasks effective_thread_count in
       ret (collect_open results ∅)) m1 = (m', r) ∧
      engine m' = engine m ∧
      (cb = None → user m' = u) ∧
      ∃ k : nat,
        heap m' = <[ports := shuffle w P]> (heap m) ∧
        trace m' =
          tr ++ ThreadPool opt
            :: flat_map (worker_events w (engine m) host
                           (bool_decide (is_Some cb)))
                 (take k (shuffle w P)) ∧
        (opt ≤ 0 → take k (shuffle w P) = [] ∧ r = Raise ValueError) ∧
        (0 < opt →
           (w_stop_at w = None → take k (shuffle w P) = shuffle w P) ∧
           ∃ results,
             r = Ok (collect_open results ∅) ∧
             ∀ x, x ∈ results →
                  x.1.1.1 ∈ P ∧ sound_result w (engine m) host x)) as Htail.
  { intros u tr tc m1 opt.
    destruct (execute_tasks_workers w host cb (shuffle w P)
                (Z.min tc (Z.of_nat (length P)))
                (mkMachine u (<[ports := shuffle w P]> (heap m)) (engine m)
                   (tm m) tr))
      as (u' & t' & k & r & Hrun & Hnone & Hle & Hgt).
    cbn [user heap engine tm trace] in *.
    rewrite shuffle_length in *. fold opt in Hrun, Hle, Hgt.
    assert (∀ X : Machine St * res (gmap Z port_data),
              (let (s1, r0) :=
                 threading_module.execute_tasks w (λ _ : worker_result, true)
                   (workers w host cb (shuffle w P))
                   (Z.min tc (Z.of_nat (length P)))
                   (mkMachine u (<[ports := shuffle w P]> (heap m))
                      (engine m) (tm m) tr) in
               match r0 with
               | Ok a => ret (collect_open a ∅) s1
               | Raise e => (s1, Raise e)
               end) = X →
              (let* before := read_list ports in
               let effective_thread_count :=
                 Z.min tc (Z.of_nat (length before)) in
               let* _ := random_shuffle w ports in
               let* shuffled := read_list ports in
               let tasks :=
                 (fun port => scan_port_worker w host port cb)
                   <$> shuffled in
               let* results :=
                 threading_module.execute_tasks w
                   (fun _ : worker_result => true)
                   tasks effective_thread_count in
               ret (collect_open results ∅)) m1 = X) as Hstep.
    { intros X HX. unfold bind. rewrite (read_list_run ports m1 P HP).
      rewrite (random_shuffle_run w ports m1 P HP).
      subst m1. cbn [user heap engine tm trace].
      rewrite (read_list_run ports _ (shuffle w P))
        by (simpl; apply lookup_insert_eq).
      exact HX. }
    rewrite Hrun in Hstep.
    destruct (Z.leb_spec opt 0) as [Hopt|Hopt].
    - destruct (Hle Hopt) as [Hk ->].
      eexists _, _. split; [apply Hstep; reflexivity|].
      simpl. split_and!; [done..|].
      exists k. split_and!; [done..| |lia]. done.
    - destruct (Hgt Hopt) as (Hall & results & -> & Hres).
      eexists _, _. split; [apply Hstep; reflexivity|].
      simpl. split_and!; [done..|].
      exists k. split_and!; [done|done|lia|].
      intros _. split; [done|]. exists results. split; [done|].
      intros x Hx. destruct (Hres x Hx) as [Hin Hs]. split; [|done].
      by rewrite <- (shuffle_Permutation w P). }
  subst adv optimal. unfold pool_size, effective_thread_count,
    advisory_events, advisory_outcome.
  destruct (thread_count >? cap) eqn:Hgt.
  - destruct cb as [c|].
    + destruct (c 0 (StatusStr (advisory thread_count cap)) (user m))
        as [u [[]|e]] eqn:Hc; cbn [fst snd].
      * destruct (Htail u (trace m ++
                    [Progress 0 (StatusStr (advisory thread_count cap))]) cap)
          as (m' & r & Heq & He & Hu & k & Hh & Htr & Hle & Hgt').
        exists m', r. split.
        { rewrite <- Heq. unfold scan_ports, coordinator.cpu_count, lift.
          rewrite Hcpu. unfold bind, emit, in_user, ret.
          cbn [user heap engine tm trace]. fold cap. rewrite Hgt, Hc.
          reflexivity. }
        split_and!; [done..|]. right. exists k.
        rewrite <- app_assoc in Htr. split_and!; done.
      * eexists _, _. split.
        { unfold scan_ports, coordinator.cpu_count, lift.
          rewrite Hcpu. unfold bind, emit, in_user, ret.
          cbn [user heap engine tm trace]. fold cap. rewrite Hgt, Hc.
          reflexivity. }
        split_and!; [done..|]. left. exists e. done.
    + destruct m as [u0 h0 e0 t0 tr0].
      destruct (Htail u0 tr0 cap)
        as (m' & r & Heq & He & Hu & k & Hh & Htr & Hle & Hgt').
      exists m', r. split.
      { rewrite <- Heq. unfold scan_ports, coordinator.cpu_count, lift.
        rewrite Hcpu. unfold bind, ret. fold cap. rewrite Hgt.
        reflexivity. }
      split_and!; [done|exact Hu|]. right. exists k.
      split_and!; done.
  - destruct m as [u0 h0 e0 t0 tr0].
    destruct (Htail u0 tr0 thread_count)
      as (m' & r & Heq & He & Hu & k & Hh & Htr & Hle & Hgt').
    exists m', r. split.
    { rewrite <- Heq. unfold scan_ports, coordinator.cpu_count, lift.
      rewrite Hcpu. unfold bind, ret. fold cap. rewrite Hgt.
      reflexivity. }
    split_and!; [done|exact Hu|]. right. exists k.
    destruct cb; split_and!; done.
Qed.

(** ** Counting the trace *)

Lemma probed_app (a b : list event) : probed (a ++ b) = probed a ++ probed b.
Proof. apply flat_map_app. Qed.


Lemma advisories_app (a b : list event) :
  advisories (a ++ b) = advisories a ++ advisories b.
Proof. apply flat_map_app. Qed.


Lemma pools_app (a b : list event) : pools (a ++ b) = pools a ++ pools b.
Proof. apply flat_map_app. Qed.

Section worker_trace.
Context (w : World) (self : ScannerEngine) (host : string).

Lemma probed_workers (c : bool) (L : list Z) :
  probed (flat_map (worker_events w self host c) L) = L.
Proof.
  induction L as [|p L IH]; [done|]. simpl.
  destruct c; simpl; by rewrite IH.
Qed.

Lemma pools_workers (c : bool) (L : list Z) :
  pools (flat_map (worker_events w self host c) L) = [].
Proof.
  induction L as [|p L IH]; [done|]. simpl. destruct c; simpl; by rewrite IH.
Qed.

Lemma advisories_workers (c : bool) (L : list Z) :
  advisories (flat_map (worker_events w self host c) L) = [].
Proof.
  induction L as [|p L IH]; [done|]. simpl. destruct c; simpl; by rewrite IH.
Qed.



End worker_trace.

Lemma new_events_app {St} (m m' : Machine St) (evs : list event) :
  trace m' = trace m ++ evs → new_events m m' = evs.
Proof. intros H. unfold new_events. rewrite H. by rewrite drop_app_length. Qed.

Lemma new_events_same {St} (m : Machine St) : new_events m m = [].
Proof. apply new_events_app. by rewrite app_nil_r. Qed.

(** [ThreadingModule()] always allows at least five threads. *)
Lemma init_MAX_THREAD_COUNT (w : World) :
  5 ≤ MAX_THREAD_COUNT (threading_module.init w) ≤ 100.
Proof.
  unfold threading_module.init. simpl. destruct (w_cpu_count w); lia.
Qed.

(** The pool gets the smallest of the requested count, the number of
    ports, twice the CPU count and the threading module's own limit. *)
Lemma pool_size_min (max_thread_count thread_count cap : Z) (n_ports : nat) :
  pool_size max_thread_count thread_count cap n_ports =
  Z.min (Z.min thread_count cap)
    (Z.min (Z.of_nat n_ports) max_thread_count).
Proof.
  unfold pool_size, effective_thread_count,
    threading_module.optimal_thread_count. simpl.
  destruct (Z.gtb_spec thread_count cap); lia.
Qed.

(** When [scan_ports] cannot find the CPU count it raises at once. *)
Lemma scan_ports_no_cpu_count {St} (w : World) (host : string) (ports : loc)
    (thread_count : Z) (cb : option (callback St)) (m : Machine St) :
  w_cpu_count w = None →
  scan_ports w host ports thread_count cb m = (m, Raise NotImplementedError).
Proof.
  intros H. unfold scan_ports, coordinator.cpu_count, lift, bind.
  by rewrite H.
Qed.

(** ** The frame of scan_ports *)



(** ** The size of the pool *)

(** C5. Every thread pool a call of [scan_ports] makes is given a worker
    count that is at most the requested count, at most the number of
    ports, and at most twice the CPU count. *)
Theorem pool_size_bounded {St} (w : World) (host : string) (ports : loc)
    (thread_count : Z) (cb : option (callback St)) (m : Machine St)
    (P : list Z) (n : positive) :
  heap m !! ports = Some P →
  w_cpu_count w = Some n →
  ∀ k : Z,
    k ∈ pools (new_events m (scan_ports w host ports thread_count cb m).1) →
    k ≤ thread_count ∧ k ≤ Z.of_nat (length P) ∧ k ≤ 2 * Z.pos n.
Proof.
  intros HP Hcpu k.
  destruct (scan_ports_run w host ports thread_count cb m P n HP Hcpu)
    as (m' & r & -> & _ & _ & [(e & _ & _ & _ & Htr)
                               |(j & _ & _ & Htr & _ & _)]);
    cbn [fst snd]; rewrite (new_events_app _ _ _ Htr).
  - unfold advisory_events. destruct cb; [|by intros ?%elem_of_nil].
    destruct (thread_count >? Z.pos n * 2); by intros ?%elem_of_nil.
  - rewrite pools_app. simpl. rewrite pools_workers.
    replace (pools (advisory_events thread_count (Z.pos n * 2) cb))
      with (@nil Z).
    2:{ unfold advisory_events. destruct cb; [|done].
        by destruct (thread_count >? Z.pos n * 2). }
    simpl. intros ->%list_elem_of_singleton. rewrite pool_size_min. lia.
Qed.

Lemma pool_size_bounded_witness :
  3 ∈ pools (new_events
               (machine_with (open_world [22; 80] 8) 0%nat [22; 80; 443])
               (scan_ports (open_world [22; 80] 8) "h" 1%nat 200
                  (Some counting_callback)
                  (machine_with (open_world [22; 80] 8) 0%nat
                     [22; 80; 443])).1) ∧
  3 ≤ 200 ∧ 3 ≤ Z.of_nat (length [22; 80; 443]) ∧ 3 ≤ 2 * 8.
Proof.
  assert (3 ∈ pools (new_events
               (machine_with (open_world [22; 80] 8) 0%nat [22; 80; 443])
               (scan_ports (open_world [22; 80] 8) "h" 1%nat 200
                  (Some counting_callback)
                  (machine_with (open_world [22; 80] 8) 0%nat
                     [22; 80; 443])).1)) as Hin.
  { vm_compute. left. }
  split; [exact Hin|].
  apply (pool_size_bounded (open_world [22; 80] 8) "h" 1%nat 200
           (Some counting_callback)
           (machine_with (open_world [22; 80] 8) 0%nat [22; 80; 443])
           [22; 80; 443] 8%positive); [reflexivity | reflexivity | exact Hin].
Defined.

(** The pool of that run has three workers. *)
Lemma pool_size_example :
  pools (new_events
           (machine_with (open_world [22; 80] 8) 0%nat [22; 80; 443])
           (scan_ports (open_world [22; 80] 8) "h" 1%nat 200
              (Some counting_callback)
              (machine_with (open_world [22; 80] 8) 0%nat
                 [22; 80; 443])).1) = [3].
Proof. vm_compute. reflexivity. Qed.

(** ** The result dictionary *)

(** C6. Every key of the dictionary [scan_ports] returns is a port of the
    list that [test_port] reported open, and the [service] of its entry is
    the string [fetch_service_info] returned for it. *)
Theorem open_ports_sound {St} (w : World) (host : string) (ports : loc)
    (thread_count : Z) (cb : option (callback St)) (m : Machine St)
    (P : list Z) (open_ports : gmap Z port_data) :
  heap m !! ports = Some P →
  (scan_ports w host ports thread_count cb m).2 = Ok open_ports →
  ∀ (port : Z) (d : port_data),
    open_ports !! port = Some d →
    port ∈ P ∧
    test_port w (engine m) host port = Ok true ∧
    fetch_service_info w port = Ok (pd_service d).
Proof.
  intros HP Hres port d Hd.
  destruct (w_cpu_count w) as [n|] eqn:Hcpu.
  2:{ by rewrite scan_ports_no_cpu_count in Hres. }
  destruct (scan_ports_run w host ports thread_count cb m P n HP Hcpu)
    as (m' & r & Heq & _ & _ & [(e & _ & -> & _)
                                |(k & _ & _ & _ & Hle & Hgt)]);
    rewrite Heq in Hres; cbn [fst snd] in Hres; [done|].
  set (optimal := pool_size (MAX_THREAD_COUNT (tm m)) thread_count
                    (Z.pos n * 2) (length P)) in *.
  destruct (Z.leb_spec optimal 0) as [Hopt|Hopt].
  { destruct (Hle Hopt) as [_ ->]. done. }
  destruct (Hgt Hopt) as (_ & results & -> & Hsound).
  simplify_eq.
  destruct (collect_open_sound results ∅ port d Hd)
    as [Hempty|(service & info & Hin & Hservice)].
  { by rewrite lookup_empty in Hempty. }
  destruct (Hsound _ Hin) as [HinP [Htest Hfetch]]. simpl in *.
  split_and!; [done..|]. rewrite Hservice. by apply Hfetch.
Qed.

Lemma open_ports_sound_witness :
  22 ∈ [22; 80; 443] ∧
  test_port (open_world [22; 80] 1) scanner_engine.init "h" 22 = Ok true ∧
  fetch_service_info (open_world [22; 80] 1) 22
    = Ok (pd_service (port_data_of "SSH" (Some banner_info_default))).
Proof.
  refine (open_ports_sound (open_world [22; 80] 1) "h" 1%nat 2
            (Some counting_callback)
            (machine_with (open_world [22; 80] 1) 0%nat [22; 80; 443])
            [22; 80; 443]
            (collect_open
               [(80, true, "HTTP"%string, Some banner_info_default);
                (22, true, "SSH"%string, Some banner_info_default)] ∅)
            _ _ 22 (port_data_of "SSH" (Some banner_info_default)) _).
  - reflexivity.
  - vm_compute. reflexivity.
  - vm_compute. reflexivity.
Defined.

(** ** Probes and progress calls *)








(** ** grab_banner *)

Lemma grab_protocol_banner_total (w : World) (self : ScannerEngine)
    (host : string) (port : Z) :
  ∃ b, grab_protocol_banner w self host port = Ok b.
Proof.
  unfold grab_protocol_banner.
  match goal with
  | |- context [try_except ?body any_exception ?h] =>
      unfold try_except at 1; destruct body; simpl; eauto
  end.
Qed.

Lemma grab_http_banner_total (w : World) (self : ScannerEngine)
    (host : string) (port : Z) (use_ssl : bool) :
  ∃ h, grab_http_banner w self host port use_ssl = Ok h.
Proof.
  unfold grab_http_banner.
  match goal with
  | |- context [try_except ?body any_exception ?h] =>
      unfold try_except at 1; destruct body; simpl; eauto
  end.
Qed.

(** A branch that cannot connect leaves its fields empty. *)
Lemma grab_protocol_banner_connect_error (w : World) (self : ScannerEngine)
    (host : string) (port : Z) (e : exn) :
  w_connect w ForBanner host port = Raise e →
  grab_protocol_banner w self host port = Ok ""%string.
Proof.
  intros H. unfold grab_protocol_banner, connect, rbind, try_except.
  destruct (w_socket w ForBanner host port); [|done].
  destruct (settimeout (banner_timeout self)); [|done].
  destruct (port_in_range port); [|done]. by rewrite H.
Qed.

Lemma grab_http_banner_connect_error (w : World) (self : ScannerEngine)
    (host : string) (port : Z) (use_ssl : bool) (e : exn) :
  w_connect w ForHttp host port = Raise e →
  grab_http_banner w self host port use_ssl = Ok (mkHttp "" "" "").
Proof.
  intros H. unfold grab_http_banner, connect, rbind, try_except.
  destruct (w_socket w ForHttp host port); [|done].
  destruct (settimeout (banner_timeout self)); [|done].
  destruct (port_in_range port); [|done]. by rewrite H.
Qed.

(** A socket or TLS error in the handshake is kept in the record. *)
Lemma get_ssl_info_socket_error (w : World) (host : string) (port : Z)
    (e : exn) :
  peercert w host port = Raise e → is_OSError e = true →
  get_ssl_info w host port = Ok (ssl_info_failed e).
Proof. intros H He. unfold get_ssl_info. by rewrite H, He. Qed.

(** Any other exception of the handshake leaves [get_ssl_info]. *)
Lemma get_ssl_info_other_error (w : World) (host : string) (port : Z)
    (e : exn) :
  peercert w host port = Raise e → is_OSError e = false →
  get_ssl_info w host port = Raise e.
Proof. intros H He. unfold get_ssl_info. by rewrite H, He. Qed.

Lemma with_banner_frame (w : World) (self : ScannerEngine) (host : string)
    (port : Z) (c : option ssl_info)
    (extract : string → banner_info → banner_info) :
  (∀ b i, ssl_cert (extract b i) = ssl_cert i) →
  (∀ b i, banner (extract b i) = banner (extract b (mkBanner (banner i)
            (version i) (server i) None)) ∧
          version (extract b i) = version (extract b (mkBanner (banner i)
            (version i) (server i) None)) ∧
          server (extract b i) = server (extract b (mkBanner (banner i)
            (version i) (server i) None))) →
  let out := with_banner w self host port (mkBanner "" "" "" c) extract in
  let out0 := with_banner w self host port banner_info_default extract in
  out.2 = Ok tt ∧ banner out.1 = banner out0.1 ∧
  version out.1 = version out0.1 ∧ server out.1 = server out0.1 ∧
  ssl_cert out.1 = c.
Proof.
  intros Hssl Hfields. unfold with_banner, banner_info_default.
  destruct (grab_protocol_banner_total w self host port) as [b ->].
  destruct (Py.falsy b); simpl; [done|].
  rewrite Hssl. simpl.
  destruct (Hfields b (mkBanner b "" "" c)) as (H1 & H2 & H3). simpl in *.
  by rewrite H1, H2, H3.
Qed.

(** The chain never raises, decides [banner], [version] and [server]
    without looking at [ssl_cert], and leaves [ssl_cert] alone. *)
Lemma protocol_step_frame (w : World) (self : ScannerEngine) (host : string)
    (port : Z) (service : string) (c : option ssl_info) :
  let out := protocol_step w self host port service (mkBanner "" "" "" c) in
  let proto := protocol_fields w self host port service in
  out.2 = Ok tt ∧ banner out.1 = banner proto ∧
  version out.1 = version proto ∧ server out.1 = server proto ∧
  ssl_cert out.1 = c.
Proof.
  unfold protocol_fields, protocol_step.
  destruct (http_branch service port).
  { unfold banner_info_default.
    destruct (grab_http_banner_total w self host port
                (bool_decide (service = "HTTPS"%string)
                 || bool_decide (port = 443))) as [h ->]. done. }
  destruct (ftp_branch service port).
  { apply with_banner_frame; intros b i;
      destruct (w_re_search w _ b); by destruct i. }
  destruct (ssh_branch service port).
  { apply with_banner_frame; intros b i;
      destruct (w_re_search w _ b); by destruct i. }
  destruct (smtp_branch service port).
  { apply with_banner_frame; intros b i;
      destruct (w_re_search w _ b); by destruct i. }
  simpl. apply with_banner_frame; intros b i; by destruct i.
Qed.

(** [grab_banner] raises nothing and returns the dictionary with its four
    fields.  [banner], [version] and [server]
    are decided by the HTTP, FTP, SSH, SMTP or generic branch alone and
    [ssl_cert] by the TLS branch alone, whether the other one failed or
    not, as long as [get_ssl_info] returns; and it returns, with the error
    recorded, for every socket or TLS error of the handshake. *)
Lemma grab_banner_isolates_branches (w : World) (self : ScannerEngine)
    (host : string) (port : Z) (service : string) :
  let proto := protocol_fields w self host port service in
  ∃ info : banner_info,
    grab_banner w self host port service = Ok info ∧
    (tls_branch service port = false → info = proto ∧ ssl_cert info = None) ∧
    (∀ ssl, tls_branch service port = true →
            get_ssl_info w host port = Ok ssl →
            ssl_cert info = Some ssl ∧ banner info = banner proto ∧
            version info = version proto ∧ server info = server proto) ∧
    (∀ e, peercert w host port = Raise e → is_OSError e = true →
          get_ssl_info w host port = Ok (ssl_info_failed e)).
Proof.
  intros proto.
  assert (∃ info : banner_info,
    grab_banner w self host port service = Ok info ∧
    (tls_branch service port = false → info = proto ∧ ssl_cert info = None) ∧
    (∀ ssl, tls_branch service port = true →
            get_ssl_info w host port = Ok ssl →
            ssl_cert info = Some ssl ∧ banner info = banner proto ∧
            version info = version proto ∧ server info = server proto))
    as (info & H1 & H2 & H3).
  2:{ exists info. split_and!; [done..|].
      intros e. apply get_ssl_info_socket_error. }
  unfold grab_banner, grab_banner_try, tls_step.
  pose proof (protocol_step_frame w self host port service) as Hframe.
  fold proto in Hframe. cbv zeta in Hframe.
  destruct (tls_branch service port).
  - destruct (get_ssl_info w host port) as [ssl|e] eqn:Hssl.
    + specialize (Hframe (Some ssl)).
      destruct (protocol_step w self host port service
                  (mkBanner (banner banner_info_default)
                     (version banner_info_default)
                     (server banner_info_default) (Some ssl)))
        as [info r] eqn:Hstep.
      simpl in Hstep. rewrite Hstep in Hframe. simpl in Hframe.
      destruct Hframe as (-> & Hb & Hv & Hs & Hc).
      exists info. split_and!; [done|done|].
      intros ssl' _ [= <-]. done.
    + exists banner_info_default. simpl. split_and!; done.
  - specialize (Hframe None).
    destruct (protocol_step w self host port service banner_info_default)
      as [info r] eqn:Hstep.
    unfold protocol_fields in proto. subst proto. rewrite Hstep in *.
    unfold banner_info_default in Hstep. rewrite Hstep in Hframe.
    simpl in Hframe. destruct Hframe as (-> & _ & _ & _ & Hc).
    exists info. split_and!; done.
Qed.



(** ** Invariants of the callback's owner *)

Lemma spec_bind {S A B} (P : S → Prop) (c : SM S A) (k : A → SM S B)
    (Q : A → S → Prop) (R : B → S → Prop) (E : exn → S → Prop) :
  spec P c Q E → (∀ a, spec (Q a) (k a) R E) → spec P (bind c k) R E.
Proof.
  intros Hc Hk s Hs. unfold bind. specialize (Hc s Hs).
  destruct (c s) as [s1 [a|e]]; [|done]. by apply Hk.
Qed.

Lemma spec_try_catch {S A} (P : S → Prop) (body : SM S A)
    (handler : exn → SM S A) (Q : A → S → Prop) (E E' : exn → S → Prop) :
  spec P body Q E → (∀ e, spec (E e) (handler e) Q E') →
  spec P (try_catch body handler) Q E'.
Proof.
  intros Hb Hh s Hs. unfold try_catch. specialize (Hb s Hs).
  destruct (body s) as [s1 [a|e]]; [done|]. by apply Hh.
Qed.

Lemma spec_post {S A} (P : S → Prop) (c : SM S A) (Q Q' : A → S → Prop)
    (E E' : exn → S → Prop) :
  spec P c Q E → (∀ a s, Q a s → Q' a s) → (∀ e s, E e s → E' e s) →
  spec P c Q' E'.
Proof.
  intros Hc HQ HE s Hs. specialize (Hc s Hs).
  destruct (c s) as [s1 [a|e]]; [by apply HQ | by apply HE].
Qed.

Lemma keeps_bind {S A B} (I : S → Prop) (c : SM S A) (k : A → SM S B) :
  keeps I c → (∀ a, keeps I (k a)) → keeps I (bind c k).
Proof. intros Hc Hk. by apply (spec_bind I c k (λ _, I)). Qed.

Lemma keeps_ret {S A} (I : S → Prop) (a : A) : keeps I (ret a).
Proof. by intros s Hs. Qed.

Lemma keeps_raise {S A} (I : S → Prop) (e : exn) : keeps I (@raise S A e).
Proof. by intros s Hs. Qed.

Lemma keeps_lift {S A} (I : S → Prop) (r : res A) : keeps I (lift r).
Proof. intros s Hs. unfold lift. by destruct r. Qed.

Lemma keeps_get {S} (I : S → Prop) : keeps I get.
Proof. by intros s Hs. Qed.

Section machine_invariants.
Context {St : Type} (I : St → Prop).

Lemma keeps_emit (e : event) : keeps (on_user I) (@emit St e).
Proof. by intros s Hs. Qed.

Lemma keeps_get_engine : keeps (on_user I) (@get_engine St).
Proof. by intros s Hs. Qed.

Lemma keeps_set_engine (e : ScannerEngine) :
  keeps (on_user I) (@set_engine St e).
Proof. by intros s Hs. Qed.

Lemma keeps_get_tm : keeps (on_user I) (@get_tm St).
Proof. by intros s Hs. Qed.

Lemma keeps_set_tm (t : ThreadingModule) : keeps (on_user I) (@set_tm St t).
Proof. by intros s Hs. Qed.

Lemma keeps_read_list (r : loc) : keeps (on_user I) (@read_list St r).
Proof. intros s Hs. unfold read_list. by destruct (heap s !! r). Qed.

Lemma keeps_write_list (r : loc) (l : list Z) :
  keeps (on_user I) (@write_list St r l).
Proof. by intros s Hs. Qed.

Lemma keeps_in_user {A} (c : SM St A) : keeps I c → keeps (on_user I) (in_user c).
Proof.
  intros Hc m Hm. unfold in_user. specialize (Hc (user m) Hm).
  by destruct (c (user m)) as [u [a|e]].
Qed.

Lemma keeps_scan_port_worker (w : World) (host : string) (port : Z)
    (cb : option (callback St)) :
  callback_keeps I cb → keeps (on_user I) (scan_port_worker w host port cb).
Proof.
  intros Hcb. unfold scan_port_worker.
  apply keeps_bind; [apply keeps_get_engine | intros self].
  apply keeps_bind; [apply keeps_emit | intros _].
  apply keeps_bind; [apply keeps_lift | intros is_open].
  apply keeps_bind.
  { destruct is_open; [apply keeps_lift | apply keeps_ret]. }
  intros service. apply keeps_bind.
  { destruct is_open; [|apply keeps_ret].
    apply keeps_bind; [apply keeps_lift | intros b; apply keeps_ret]. }
  intros info. apply keeps_bind; [|intros _; apply keeps_ret].
  destruct cb as [c|]; [|apply keeps_ret].
  apply keeps_bind; [apply keeps_emit | intros _].
  apply keeps_in_user. by apply (Hcb c).
Qed.

Lemma keeps_run_pool {A} (futures : list (M St A)) :
  Forall (keeps (on_user I)) futures →
  ∀ m, on_user I m → on_user I (threading_module.run_pool futures m).1.
Proof.
  induction 1 as [|t rest Ht _ IH]; intros m Hm; simpl; [done|].
  specialize (Ht m Hm). destruct (t m) as [m1 r].
  assert (on_user I m1) as Hm1 by (by destruct r).
  specialize (IH m1 Hm1).
  by destruct (threading_module.run_pool rest m1) as [m2 rs].
Qed.

Lemma keeps_execute_tasks {A} (w : World) (truthy : A → bool)
    (tasks : list (M St A)) (thread_count : Z) :
  Forall (keeps (on_user I)) tasks →
  keeps (on_user I)
    (threading_module.execute_tasks w truthy tasks thread_count).
Proof.
  intros Htasks. unfold threading_module.execute_tasks.
  apply keeps_bind; [apply keeps_get_tm | intros self0].
  apply keeps_bind; [apply keeps_set_tm | intros _].
  apply keeps_bind; [apply keeps_emit | intros _].
  match goal with |- context [if ?b then _ else _] => destruct b end;
    [apply keeps_raise|].
  apply keeps_bind.
  - intros m Hm.
    destruct (submit_prefix w (mkTM false (MAX_THREAD_COUNT self0)) tasks 0)
      as [k ->].
    assert (Forall (keeps (on_user I)) (take k tasks)) as Htake
      by (by apply Forall_take).
    pose proof (keeps_run_pool (take k tasks) Htake m Hm) as Hpool.
    by destruct (threading_module.run_pool (take k tasks) m).
  - intros outcomes.
    apply keeps_bind; [apply keeps_set_tm | intros _; apply keeps_ret].
Qed.

(** [scan_ports] changes the state of the callback's owner through the
    callback only. *)
Lemma keeps_scan_ports (w : World) (host : string) (ports : loc)
    (thread_count : Z) (cb : option (callback St)) :
  callback_keeps I cb →
  keeps (on_user I) (scan_ports w host ports thread_count cb).
Proof.
  intros Hcb. unfold scan_ports.
  apply keeps_bind; [apply keeps_lift | intros cpus].
  apply keeps_bind.
  { match goal with |- context [if ?b then _ else _] => destruct b end;
      [|apply keeps_ret].
    apply keeps_bind; [|intros _; apply keeps_ret].
    destruct cb as [c|]; [|apply keeps_ret].
    apply keeps_bind; [apply keeps_emit | intros _].
    apply keeps_in_user. by apply (Hcb c). }
  intros tc. apply keeps_bind; [apply keeps_read_list | intros before].
  apply keeps_bind.
  { unfold random_shuffle.
    apply keeps_bind; [apply keeps_read_list | intros x].
    apply keeps_write_list. }
  intros _. apply keeps_bind; [apply keeps_read_list | intros shuffled].
  apply keeps_bind; [|intros results; apply keeps_ret].
  apply keeps_execute_tasks. apply Forall_fmap, Forall_forall.
  intros port _. by apply keeps_scan_port_worker.
Qed.

End machine_invariants.

(** ** The registry under a running scan *)

Section registry_invariants.
Context (scan_id : string).

Lemma keeps_now : keeps (registered scan_id) now.
Proof. by intros f Hf. Qed.

Lemma keeps_set_scan (id : string) (s : scan_state) :
  keeps (registered scan_id) (set_scan id s).
Proof.
  intros f Hf. unfold registered in *. simpl.
  destruct (decide (id = scan_id)) as [->|Hne].
  - by rewrite lookup_insert_eq.
  - by rewrite lookup_insert_ne.
Qed.

Lemma keeps_get_scan (id : string) : keeps (registered scan_id) (get_scan id).
Proof.
  intros f Hf. unfold get_scan, bind, get, ret, raise. simpl.
  by destruct (active_scans f !! id).
Qed.

Lemma keeps_add_log (id msg lvl : string) :
  keeps (registered scan_id) (add_log id msg lvl).
Proof.
  unfold add_log. apply keeps_bind; [apply keeps_get | intros f0].
  destruct (active_scans f0 !! id) as [s0|]; [|apply keeps_ret].
  apply keeps_bind; [apply keeps_now | intros t].
  apply keeps_bind; [apply keeps_get_scan | intros s1].
  apply keeps_set_scan.
Qed.

(** The progress callback of a worker never removes a scan. *)
Lemma keeps_update_progress (w : World) (id : string) (total_ports : Z)
    (port_number : Z) (st : cb_status) :
  keeps (registered scan_id)
    (update_progress w id total_ports port_number st).
Proof.
  intros f Hf. unfold update_progress.
  unfold bind at 1, get at 1. unfold bind at 1, put at 1.
  set (f1 := mkFlask _ _ _ _).
  assert (registered scan_id f1) as Hf1 by done.
  refine ((_ : keeps (registered scan_id) _) f1 Hf1). clear Hf1.
  destruct (total_ports =? 0); [apply keeps_raise|].
  apply keeps_bind; [apply keeps_get_scan | intros s1].
  apply keeps_bind; [apply keeps_set_scan | intros _].
  destruct (status_truthy st); [|apply keeps_ret].
  apply keeps_bind; [apply keeps_lift | intros service].
  apply keeps_add_log.
Qed.

(** Steps 11.7 to 11.9 on a registered scan: it ends "completed". *)
Lemma scan_worker_finish_run (found : gmap Z port_data) (f : Flask) :
  registered scan_id f →
  ∃ f',
    (let* s := get_scan scan_id in
     let* _ := set_scan scan_id
                 (mkScan (status s) (progress s) (start_time s)
                    (end_time s) (logs s) found (cpu_cores s)) in
     let* _ :=
       if bool_decide (found = ∅)
       then add_log scan_id "Scan completed. No open ports found."
              "warning"
       else add_log scan_id
              ("Scan completed. Found " +:+ pretty (size found)
               +:+ " open ports.") "info" in
     complete_scan scan_id "completed") f = (f', Ok tt) ∧
    status_of f' scan_id = Some "completed"%string.
Proof.
  intros [s Hs]. unfold bind at 1. rewrite (get_scan_run _ _ _ Hs).
  unfold bind at 1. unfold set_scan at 1, bind at 1, get, put.
  cbn [active_scans scan_results clock completed_ports].
  set (f1 := mkFlask _ _ _ _).
  assert (∃ s1, active_scans f1 !! scan_id = Some s1) as [s1 H1].
  { eexists. subst f1. simpl. apply lookup_insert_eq. }
  unfold bind at 1.
  assert (∃ f2 s2,
            (if bool_decide (found = ∅)
             then add_log scan_id "Scan completed. No open ports found."
                    "warning"
             else add_log scan_id
                    ("Scan completed. Found " +:+ pretty (size found)
                     +:+ " open ports.") "info") f1 = (f2, Ok tt) ∧
            active_scans f2 !! scan_id = Some s2) as (f2 & s2 & -> & H2).
  { destruct (bool_decide (found = ∅));
      rewrite (add_log_run _ _ _ _ _ H1); eexists _, _;
      (split; [reflexivity|]); simpl; apply lookup_insert_eq. }
  rewrite (complete_scan_run _ _ _ _ H2). eexists. split; [reflexivity|].
  unfold status_of. simpl. by rewrite lookup_insert_eq.
Qed.

(** Whatever status a registered scan has when the worker thread goes on
    (also "stopped"), the thread ends with the scan "completed", or with
    an exception and the scan still registered. *)
Lemma scan_worker_scan_spec (w : World) (target : string) (ports : loc)
    (thread_count timeout : Z) :
  spec (on_user (registered scan_id))
    (scan_worker_scan w scan_id target ports thread_count timeout)
    (λ _ m, status_of (user m) scan_id = Some "completed"%string)
    (λ _, on_user (registered scan_id)).
Proof.
  unfold scan_worker_scan.
  eapply spec_bind; [apply keeps_get_engine | intros self]. simpl.
  eapply spec_bind; [apply keeps_set_engine | intros u1]. simpl.
  eapply spec_bind; [apply keeps_read_list | intros l]. simpl.
  eapply spec_bind.
  { apply keeps_in_user. by intros f Hf. }
  intros u2. simpl.
  eapply spec_bind.
  { apply keeps_scan_ports. intros c [= <-] p s.
    apply keeps_update_progress. }
  intros found. simpl. intros m Hm. unfold in_user.
  destruct (scan_worker_finish_run found (user m) Hm) as (f' & -> & Hst).
  done.
Qed.

Lemma scan_worker_except_spec (w : World) (e : exn) :
  spec (on_user (registered scan_id)) (scan_worker_except w scan_id e)
    (λ _ m, status_of (user m) scan_id = Some "failed"%string)
    (λ _ _, False).
Proof.
  intros m [s Hs]. unfold scan_worker_except, in_user, bind.
  rewrite (add_log_run _ _ _ _ _ Hs).
  set (f1 := mkFlask _ _ _ _).
  assert (∃ s1, active_scans f1 !! scan_id = Some s1) as [s1 H1].
  { eexists. subst f1. simpl. apply lookup_insert_eq. }
  rewrite (complete_scan_run _ _ _ _ H1). simpl.
  unfold status_of. simpl. by rewrite lookup_insert_eq.
Qed.

(** The worker thread of a scan never leaves it "stopped": when it ends,
    the scan is "completed" or "failed", whatever a stop request had made
    of it in between. *)
Lemma scan_worker_resume_overwrites (w : World) (target : string)
    (ports : loc) (thread_count timeout : Z) (m : Machine Flask) :
  registered scan_id (user m) →
  let out := scan_worker_resume w scan_id target ports thread_count timeout m in
  out.2 = Ok tt ∧
  (status_of (user out.1) scan_id = Some "completed"%string ∨
   status_of (user out.1) scan_id = Some "failed"%string).
Proof.
  intros Hm.
  assert (spec (on_user (registered scan_id))
            (scan_worker_resume w scan_id target ports thread_count timeout)
            (λ _ m', status_of (user m') scan_id = Some "completed"%string ∨
                     status_of (user m') scan_id = Some "failed"%string)
            (λ _ _, False)) as Hspec.
  { unfold scan_worker_resume.
    apply (spec_try_catch _ _ _ _ (λ _, on_user (registered scan_id))).
    - eapply spec_post; [apply scan_worker_scan_spec | |]; simpl; auto.
    - intros e. eapply spec_post; [apply scan_worker_except_spec | |];
        simpl; auto. }
  specialize (Hspec m Hm). simpl.
  destruct (scan_worker_resume w scan_id target ports thread_count timeout m)
    as [m' [[]|e]]; [|done].
  simpl. by split.
Qed.

(** So a stop request never lasts while the worker thread lives: the scan
    reads "stopped" right after the request and "completed" or "failed"
    once the thread has ended. *)
Lemma stop_does_not_last (w : World) (target : string) (ports : loc)
    (thread_count timeout : Z) (m : Machine Flask) :
  registered scan_id (user m) →
  let stopped := (in_user (api_stop_scan scan_id) m).1 in
  let ended :=
    (scan_worker_resume w scan_id target ports thread_count timeout
       stopped).1 in
  status_of (user stopped) scan_id = Some "stopped"%string ∧
  status_of (user ended) scan_id ≠ Some "stopped"%string.
Proof.
  intros Hm. simpl.
  destruct (api_stop_scan_status (user m) scan_id Hm) as [Hst _].
  assert (registered scan_id
            (user (in_user (api_stop_scan scan_id) m).1)) as Hreg.
  { unfold in_user. destruct (api_stop_scan scan_id (user m)) as [f r].
    simpl in *. unfold status_of in Hst. unfold registered.
    by destruct (active_scans f !! scan_id). }
  split.
  - unfold in_user. by destruct (api_stop_scan scan_id (user m)).
  - destruct (scan_worker_resume_overwrites w target ports thread_count
                timeout _ Hreg) as [_ [H|H]]; simpl in H; rewrite H; done.
Qed.

End registry_invariants.

(** * Properties of more of the code *)

Import scanner_engine_ping.

(** ** Sorted lists of ports *)

Lemma StronglySorted_le_lt (l : list Z) :
  StronglySorted Z.le l → NoDup l → StronglySorted Z.lt l.
Proof.
  induction 1 as [|x l Hl IH Hx]; intros Hnd; [constructor|].
  apply NoDup_cons in Hnd as [Hnotin Hnd].
  constructor; [by apply IH|].
  rewrite Forall_forall in Hx. apply Forall_forall. intros y Hy.
  specialize (Hx y Hy). assert (x ≠ y) by (intros ->; done). lia.
Qed.

(** [sorted(list(set(ports)))] is strictly increasing and has the elements
    of [ports]. *)
Lemma sorted_set_list (ports : list Z) :
  StronglySorted Z.lt (Py.sorted (Py.set_list ports)) ∧
  ∀ p, p ∈ Py.sorted (Py.set_list ports) ↔ p ∈ ports.
Proof.
  unfold Py.sorted, Py.set_list. split.
  - apply StronglySorted_le_lt.
    + apply (StronglySorted_merge_sort Z.le).
    + rewrite merge_sort_Permutation. apply NoDup_remove_dups.
  - intros p. rewrite merge_sort_Permutation. apply elem_of_remove_dups.
Qed.

Lemma split_nonempty (sep : ascii) (s : string) : Py.split sep s ≠ [].
Proof.
  destruct s as [|c s]; simpl; [done|].
  destruct (Ascii.eqb c sep); [done|]. by destruct (Py.split sep s).
Qed.

Lemma range_nonempty (a b : Z) : a < b → Py.range a b ≠ [].
Proof.
  intros H Hnil. apply (f_equal length) in Hnil. unfold Py.range in Hnil.
  rewrite length_seqZ in Hnil. simpl in Hnil. lia.
Qed.

Lemma validate_part_nonempty (part : string) (ps : list Z) :
  validate_part part = Ok ps → ps ≠ [].
Proof.
  unfold validate_part. destruct (Py.contains "-" (Py.strip part)).
  - destruct (Py.split "-" (Py.strip part)) as [|a [|b [|c rest]]]; try done.
    destruct (Py.int a) as [start|]; [|done].
    destruct (Py.int b) as [end_|]; [|done]. simpl.
    destruct (Z.ltb_spec start 1); [done|].
    destruct (Z.gtb_spec end_ 65535); [done|]. simpl.
    destruct (Z.gtb_spec start end_); [done|].
    intros [= <-]. apply range_nonempty. lia.
  - destruct (Py.int (Py.strip part)) as [port|]; [|done]. simpl.
    destruct (Z.ltb_spec port 1); [done|].
    destruct (Z.gtb_spec port 65535); [done|]. simpl. by intros [= <-].
Qed.

Lemma validate_parts_nonempty (parts : list string) :
  ∀ acc vs,
    validate_parts parts acc = Ok vs → parts ≠ [] ∨ acc ≠ [] → vs ≠ [].
Proof.
  induction parts as [|part rest IH]; intros acc vs; simpl.
  - intros [= <-] [?|?]; done.
  - unfold rbind. destruct (validate_part part) as [ps|] eqn:Hpart; [|done].
    intros Hrest _. apply (IH _ _ Hrest). right.
    apply validate_part_nonempty in Hpart. by destruct acc, ps.
Qed.

(** X1. Whatever [validate_port_range] accepts, it returns at least one
    port, every port between 1 and 65535, in strictly increasing order. *)
Theorem validate_port_range_sorted_ports (port_range : string) (l : list Z) :
  validate_port_range port_range = Ok l →
  l ≠ [] ∧ Forall (λ p, 1 ≤ p ≤ 65535) l ∧ StronglySorted Z.lt l.
Proof.
  intros H. destruct (validate_port_range_valid _ _ H) as (Hrange & _ & _).
  split_and!; [|done|].
  - revert H. unfold validate_port_range.
    destruct (Py.falsy port_range); [done|].
    destruct (validate_parts (Py.split "," port_range) []) as [vs|] eqn:Hvs;
      [|done].
    simpl. intros [= <-] Hnil.
    assert (vs ≠ []) as Hne.
    { apply (validate_parts_nonempty _ _ _ Hvs). left. apply split_nonempty. }
    destruct vs as [|v vs]; [done|].
    assert (v ∈ Py.sorted (Py.set_list (v :: vs))) as Hin
      by (apply sorted_set_list; left).
    rewrite Hnil in Hin. by apply elem_of_nil in Hin.
  - revert H. unfold validate_port_range.
    destruct (Py.falsy port_range); [done|].
    destruct (validate_parts (Py.split "," port_range) []); [|done].
    simpl. intros [= <-]. apply sorted_set_list.
Qed.

Lemma validate_port_range_sorted_ports_witness :
  [22; 80; 81; 82] ≠ [] ∧
  Forall (λ p, 1 ≤ p ≤ 65535) [22; 80; 81; 82] ∧
  StronglySorted Z.lt [22; 80; 81; 82].
Proof.
  apply (validate_port_range_sorted_ports " 80-82,22 , 81").
  vm_compute. reflexivity.
Defined.

(** ** ping_host *)

Lemma ping_try_true (w : World) (host : string) (port t : Z) :
  ping_try w host port t = Ok true → w_connect_ex w t host port = Ok 0.
Proof.
  unfold ping_try, rbind, settimeout, connect_ex.
  destruct (w_socket w ForProbe host port); [|done].
  destruct (t <? 0); [done|].
  destruct (port_in_range port); [|done].
  destruct (w_connect_ex w t host port) as [code|]; [|done].
  intros [= H]. apply Z.eqb_eq in H. by subst.
Qed.

(** X2. [ping_host] raises nothing, and it answers [True] only when port
    80 or 443 (within half a second) or port 7 (within a second) accepted
    a connection: a host that listens on other ports only reads as down. *)
Theorem ping_host_only_three_ports (w : World) (host : string) :
  ∃ up : bool,
    ping_host w host = Ok up ∧
    (up = true →
       w_connect_ex w 500 host 80 = Ok 0 ∨
       w_connect_ex w 500 host 443 = Ok 0 ∨
       w_connect_ex w 1000 host 7 = Ok 0).
Proof.
  unfold ping_host, try_except. simpl. unfold rbind.
  destruct (ping_try w host 80 500) as [[]|] eqn:H80.
  - exists true. split; [done|]. intros _. left. by apply ping_try_true.
  - destruct (ping_try w host 443 500) as [[]|] eqn:H443.
    + exists true. split; [done|]. intros _. right. left.
      by apply ping_try_true.
    + destruct (ping_try w host 7 1000) as [[]|] eqn:H7.
      * exists true. split; [done|]. intros _. right. right.
        by apply ping_try_true.
      * exists false. by split.
      * exists false. by split.
    + exists false. by split.
  - exists false. by split.
Qed.

(** ** fetch_service_info *)

Lemma SERVICE_MAP_in_range (port : Z) (name : string) :
  SERVICE_MAP !! port = Some name → port_in_range port = true.
Proof.
  intros H. apply elem_of_dom_2 in H.
  assert (dom SERVICE_MAP =
          list_to_set [21; 22; 23; 25; 53; 80; 110; 123; 137; 138; 139; 143;
                       389; 443; 445; 993; 995; 1723; 3306; 3389; 5900; 8080])
    as Hdom by (vm_compute; reflexivity).
  rewrite Hdom in H. rewrite elem_of_list_to_set in H.
  repeat (apply elem_of_cons in H as [->|H]; [done|]).
  by apply elem_of_nil in H.
Qed.

(** X3. [fetch_service_info] answers from its own table before the system
    database, answers every port from 0 to 65535 (with "Unknown" when
    neither knows it), and raises, an [OverflowError] that its [except]
    clause does not catch, exactly for the ports outside that range. *)
Theorem fetch_service_info_cases (w : World) (port : Z) :
  (∀ name, SERVICE_MAP !! port = Some name →
           fetch_service_info w port = Ok name) ∧
  (SERVICE_MAP !! port = None → port_in_range port = true →
   fetch_service_info w port = Ok (default "Unknown"%string (w_services w port))) ∧
  (port_in_range port = false →
   fetch_service_info w port = Raise OverflowError).
Proof.
  unfold fetch_service_info, try_except, getservbyport. split_and!.
  - by intros name ->.
  - intros -> ->. by destruct (w_services w port).
  - intros Hr. destruct (SERVICE_MAP !! port) as [name|] eqn:Hm.
    + apply SERVICE_MAP_in_range in Hm. congruence.
    + by rewrite Hr.
Qed.

(** ** parse_port_range *)

Lemma run_parse_port_range {St} (port_range : string) (m : Machine St) :
  Py.falsy port_range = false →
  parse_port_range port_range m =
  match parse_sections (Py.split "," port_range) [] with
  | Ok ports =>
      (mkMachine (user m)
         (<[fresh (dom (heap m)) := Py.sorted (Py.set_list ports)]> (heap m))
         (engine m) (tm m) (trace m),
       Ok (fresh (dom (heap m))))
  | Raise e => (m, Raise e)
  end.
Proof.
  intros H. unfold parse_port_range. rewrite H.
  unfold bind, lift, new_list, alloc.
  by destruct (parse_sections (Py.split "," port_range) []).
Qed.

(** X4. For a non-empty string [parse_port_range] either raises, changing
    nothing, or returns a new list object, leaving every list that existed
    (the default ports among them) as it was; the new list is strictly
    increasing. *)
Theorem parse_port_range_new_sorted_list {St} (port_range : string)
    (m : Machine St) :
  Py.falsy port_range = false →
  let out := parse_port_range port_range m in
  (∃ e, out = (m, Raise e)) ∨
  (∃ r l,
     out.2 = Ok r ∧ heap m !! r = None ∧ heap out.1 !! r = Some l ∧
     StronglySorted Z.lt l ∧
     (∀ r' l', heap m !! r' = Some l' → heap out.1 !! r' = Some l') ∧
     user out.1 = user m ∧ engine out.1 = engine m ∧ trace out.1 = trace m).
Proof.
  intros H. simpl. rewrite (run_parse_port_range _ _ H).
  destruct (parse_sections (Py.split "," port_range) []) as [ports|e].
  - right. eexists _, _. simpl. split_and!; [done| | |..].
    + apply not_elem_of_dom. apply is_fresh.
    + apply lookup_insert_eq.
    + apply sorted_set_list.
    + intros r' l' Hr'. rewrite lookup_insert_ne; [done|].
      intros <-. pose proof (is_fresh (dom (heap m))) as Hf.
      apply not_elem_of_dom in Hf. congruence.
    + done.
    + done.
    + done.
  - left. by exists e.
Qed.

Lemma parse_port_range_new_sorted_list_witness :
  let m := initial_machine ssh_world in
  let out := parse_port_range "443,80,8000-8002,80" m in
  (∃ e, out = (m, Raise e)) ∨
  (∃ r l,
     out.2 = Ok r ∧ heap m !! r = None ∧ heap out.1 !! r = Some l ∧
     StronglySorted Z.lt l ∧
     (∀ r' l', heap m !! r' = Some l' → heap out.1 !! r' = Some l') ∧
     user out.1 = user m ∧ engine out.1 = engine m ∧ trace out.1 = trace m).
Proof.
  apply (parse_port_range_new_sorted_list "443,80,8000-8002,80"
           (initial_machine ssh_world)).
  reflexivity.
Defined.

(** ** execute_tasks and stop *)

Lemma submit_until_stop {T} (w : World) (self : ThreadingModule)
    (tasks : list T) (k : nat) :
  stop_event self = false → w_stop_at w = Some k →
  ∀ i, threading_module.submit w self tasks i = take (k - i) tasks.
Proof.
  intros Hs Hw. induction tasks as [|t rest IH]; intros i; simpl.
  - by rewrite take_nil.
  - unfold threading_module.stop_is_set. rewrite Hs, Hw. simpl.
    destruct (Nat.leb_spec k i) as [Hle|Hgt].
    + by replace (k - i)%nat with 0%nat by lia.
    + rewrite IH. replace (k - i)%nat with (S (k - S i)) by lia. done.
Qed.

Lemma execute_tasks_interrupted {St A} (w : World) (truthy : A → bool)
    (tasks : list (M St A)) (thread_count : Z) (m : Machine St) (k : nat) :
  w_stop_at w = Some k →
  (k ≤ length tasks)%nat →
  0 < threading_module.optimal_thread_count
        (mkTM false (MAX_THREAD_COUNT (tm m))) (length tasks) thread_count →
  threading_module.execute_tasks w truthy tasks thread_count m =
    (with_tm
       (threading_module.run_pool (take k tasks)
          (pool_started m (length tasks) thread_count)).1
       (mkTM true (MAX_THREAD_COUNT (tm m))),
     Ok []).
Proof.
  intros Hstop Hk Hopt.
  unfold threading_module.execute_tasks, get_tm, set_tm, emit, bind, ret,
    raise.
  cbn [user heap engine tm trace MAX_THREAD_COUNT].
  destruct (Z.leb_spec
              (threading_module.optimal_thread_count
                 (mkTM false (MAX_THREAD_COUNT (tm m))) (length tasks)
                 thread_count) 0) as [Hle|_]; [lia|].
  rewrite (submit_until_stop w (mkTM false (MAX_THREAD_COUNT (tm m))) tasks k
             eq_refl Hstop), Nat.sub_0_r.
  fold (pool_started m (length tasks) thread_count).
  destruct (threading_module.run_pool (take k tasks)
              (pool_started m (length tasks) thread_count))
    as [m1 outcomes] eqn:Hpool.
  unfold with_tm. cbn [fst snd user heap engine tm trace].
  assert (threading_module.stop_is_set w
            (mkTM false (MAX_THREAD_COUNT (tm m)))
            (length tasks + length outcomes) = true) as ->.
  { unfold threading_module.stop_is_set. rewrite Hstop. simpl.
    apply Nat.leb_le. lia. }
  f_equal. f_equal. destruct outcomes as [|o rest]; [done|]. simpl.
  unfold threading_module.stop_is_set. rewrite Hstop. simpl.
  destruct (Nat.leb_spec k (length tasks + 0)); [done | lia].
Qed.

(** X5. When the stop signal comes while [execute_tasks] is still
    submitting (at tick [k] of at most [len(tasks)]), the first [k] tasks
    are submitted and run to their end, but the list returned is empty:
    the collecting loop sees the flag before it reads any future. *)
Theorem execute_tasks_stopped_early {St A} (w : World) (truthy : A → bool)
    (tasks : list (M St A)) (thread_count : Z) (m : Machine St) (k : nat) :
  w_stop_at w = Some k →
  (k ≤ length tasks)%nat →
  0 < threading_module.optimal_thread_count
        (mkTM false (MAX_THREAD_COUNT (tm m))) (length tasks) thread_count →
  threading_module.execute_tasks w truthy tasks thread_count m =
    (with_tm
       (threading_module.run_pool (take k tasks)
          (pool_started m (length tasks) thread_count)).1
       (mkTM true (MAX_THREAD_COUNT (tm m))),
     Ok []).
Proof. apply execute_tasks_interrupted. Qed.

Lemma execute_tasks_stopped_early_witness :
  threading_module.execute_tasks stopped_world (λ _ : worker_result, true)
    (workers stopped_world "h" (Some counting_callback) [22; 80; 443]) 3
    (machine_with stopped_world 0%nat [22; 80; 443]) =
    (with_tm
       (threading_module.run_pool
          (take 1 (workers stopped_world "h" (Some counting_callback)
                     [22; 80; 443]))
          (pool_started (machine_with stopped_world 0%nat [22; 80; 443])
             (length (workers stopped_world "h" (Some counting_callback)
                        [22; 80; 443])) 3)).1
       (mkTM true
          (MAX_THREAD_COUNT
             (tm (machine_with stopped_world 0%nat [22; 80; 443])))),
     Ok []).
Proof.
  apply (execute_tasks_stopped_early stopped_world (λ _ : worker_result, true)
           (workers stopped_world "h" (Some counting_callback) [22; 80; 443])
           3 (machine_with stopped_world 0%nat [22; 80; 443]) 1%nat).
  - reflexivity.
  - simpl. lia.
  - vm_compute. reflexivity.
Defined.

(** X6. A stop signal sent before [execute_tasks] is called is lost: the
    call clears the flag first, and runs exactly as if [stop] had not been
    called. *)
Theorem stop_before_execute_tasks_is_lost {St A} (w : World)
    (truthy : A → bool) (tasks : list (M St A)) (thread_count : Z)
    (m : Machine St) :
  stop_event (tm (threading_module.stop m).1) = true ∧
  threading_module.execute_tasks w truthy tasks thread_count
    (threading_module.stop m).1 =
  threading_module.execute_tasks w truthy tasks thread_count m.
Proof. split; reflexivity. Qed.

(** ** execute_tasks: what is returned *)

Lemma collect_kept {A} (w : World) (self : ThreadingModule)
    (truthy : A → bool) (base : nat) (outcomes : list (res A)) :
  ∀ j results,
    ∃ l, threading_module.collect w self truthy base outcomes j results
           = results ++ l ∧
         l `sublist_of` kept truthy outcomes.
Proof.
  induction outcomes as [|o rest IH]; intros j results; simpl.
  - exists []. by rewrite app_nil_r.
  - destruct (threading_module.stop_is_set w self (base + j)).
    { exists []. rewrite app_nil_r. split; [done | apply sublist_nil_l]. }
    destruct (w_future_timeout w j).
    { destruct (IH (S j) results) as (l & -> & Hl). exists l.
      split; [done|]. unfold kept. simpl.
      destruct o as [a|e]; [destruct (truthy a)|]; simpl;
        [by apply sublist_cons | done | done]. }
    destruct o as [a|e].
    + unfold kept. simpl. destruct (truthy a); simpl.
      * destruct (IH (S j) (results ++ [a])) as (l & -> & Hl).
        exists (a :: l). rewrite <- app_assoc. split; [done|].
        by apply sublist_skip.
      * apply IH.
    + apply IH.
Qed.

Lemma collect_all {A} (w : World) (self : ThreadingModule)
    (truthy : A → bool) (base : nat) (outcomes : list (res A)) :
  stop_event self = false → w_stop_at w = None →
  (∀ i, w_future_timeout w i = false) →
  ∀ j results,
    threading_module.collect w self truthy base outcomes j results
    = results ++ kept truthy outcomes.
Proof.
  intros Hs Hw Ht.
  induction outcomes as [|o rest IH]; intros j results; simpl.
  - by rewrite app_nil_r.
  - unfold threading_module.stop_is_set. rewrite Hs, Hw, Ht. simpl.
    unfold kept. simpl. destruct o as [a|e]; [|apply IH].
    destruct (truthy a); simpl; [|apply IH].
    rewrite IH. by rewrite <- app_assoc.
Qed.

(** X7. Whenever [execute_tasks] returns a list, it holds results of tasks
    that ran, in the order the tasks were submitted (not the order they
    finished), each at most once; and when nothing stops the run and no
    wait times out, it holds the result of every task that returned a
    truthy value. *)
Theorem execute_tasks_results_in_order {St A} (w : World)
    (truthy : A → bool) (tasks : list (M St A)) (thread_count : Z)
    (m : Machine St) (results : list A) :
  (threading_module.execute_tasks w truthy tasks thread_count m).2
    = Ok results →
  (∃ k, results `sublist_of`
          kept truthy
            (threading_module.run_pool (take k tasks)
               (pool_started m (length tasks) thread_count)).2) ∧
  (w_stop_at w = None → (∀ i, w_future_timeout w i = false) →
   results = kept truthy
               (threading_module.run_pool tasks
                  (pool_started m (length tasks) thread_count)).2).
Proof.
  unfold threading_module.execute_tasks, get_tm, set_tm, emit, bind, ret,
    raise.
  cbn [user heap engine tm trace MAX_THREAD_COUNT].
  fold (pool_started m (length tasks) thread_count).
  destruct (_ <=? 0); [done|].
  set (self := mkTM false (MAX_THREAD_COUNT (tm m))).
  destruct (submit_prefix w self tasks 0) as [k Hk].
  destruct (threading_module.run_pool (threading_module.submit w self tasks 0)
              (pool_started m (length tasks) thread_count))
    as [m1 outcomes] eqn:Hpool.
  cbn [fst snd]. intros [= <-]. split.
  - exists k. rewrite <- Hk, Hpool. simpl.
    destruct (collect_kept w self truthy (length tasks) outcomes 0 [])
      as (l & -> & Hl). done.
  - intros Hstop Htime.
    rewrite (submit_all w self tasks eq_refl Hstop) in Hpool.
    rewrite Hpool. simpl.
    by rewrite (collect_all w self truthy _ _ eq_refl Hstop Htime).
Qed.

Lemma execute_tasks_results_in_order_witness :
  let w := open_world [22; 80] 4 in
  let m := machine_with w 0%nat [22; 80; 443] in
  let tasks := workers w "h" (Some counting_callback) [22; 80; 443] in
  let results :=
    [(22, true, "SSH"%string, Some banner_info_default);
     (80, true, "HTTP"%string, Some banner_info_default);
     (443, false, ""%string, None)] in
  (∃ k, results `sublist_of`
          kept (λ _ : worker_result, true)
            (threading_module.run_pool (take k tasks)
               (pool_started m (length tasks) 3)).2) ∧
  (w_stop_at w = None → (∀ i, w_future_timeout w i = false) →
   results = kept (λ _ : worker_result, true)
               (threading_module.run_pool tasks
                  (pool_started m (length tasks) 3)).2).
Proof.
  apply (execute_tasks_results_in_order (open_world [22; 80] 4)
           (λ _ : worker_result, true)
           (workers (open_world [22; 80] 4) "h" (Some counting_callback)
              [22; 80; 443]) 3
           (machine_with (open_world [22; 80] 4) 0%nat [22; 80; 443])).
  vm_compute. reflexivity.
Defined.

(** ** scan_ports under a stop signal *)

(** X8. When the requested thread count is within twice the CPU count and
    the stop signal comes while the tasks are being submitted, [scan_ports]
    has shuffled the caller's list, has probed the first [k] ports of the
    shuffled list, and returns an empty dictionary: the ports found open by
    those probes are not reported. *)
Theorem scan_ports_stopped_reports_nothing {St} (w : World) (host : string)
    (ports : loc) (thread_count : Z) (cb : option (callback St))
    (m : Machine St) (P : list Z) (n : positive) (k : nat) :
  heap m !! ports = Some P →
  w_cpu_count w = Some n →
  thread_count ≤ Z.pos n * 2 →
  w_stop_at w = Some k →
  (k ≤ length P)%nat →
  0 < pool_size (MAX_THREAD_COUNT (tm m)) thread_count (Z.pos n * 2)
         (length P) →
  let out := scan_ports w host ports thread_count cb m in
  out.2 = Ok ∅ ∧
  heap out.1 = <[ports := shuffle w P]> (heap m) ∧
  probed (trace out.1) =
    probed (trace m) ++ take k (shuffle w P).
Proof.
  intros HP Hcpu Hle Hstop Hk Hopt out. subst out.
  unfold pool_size, effective_thread_count in Hopt.
  assert ((thread_count >? Z.pos n * 2) = false) as Hgt by lia.
  rewrite Hgt in Hopt.
  destruct (run_pool_workers w host cb (take k (shuffle w P))
              (mkMachine (user m) (<[ports := shuffle w P]> (heap m))
                 (engine m) (mkTM false (MAX_THREAD_COUNT (tm m)))
                 (trace m ++
                    [ThreadPool
                       (threading_module.optimal_thread_count
                          (mkTM false (MAX_THREAD_COUNT (tm m)))
                          (length P)
                          (Z.min thread_count (Z.of_nat (length P))))])))
    as (u & outcomes & Hrun & _ & _).
  cbn [user heap engine tm trace] in Hrun.
  destruct (scan_ports w host ports thread_count cb m) as [m' r] eqn:Heq.
  unfold scan_ports, coordinator.cpu_count, lift in Heq. rewrite Hcpu in Heq.
  unfold bind at 1 in Heq. unfold ret at 1 in Heq. rewrite Hgt in Heq.
  unfold bind at 1 in Heq. unfold ret at 1 in Heq.
  unfold bind at 1 in Heq. rewrite (read_list_run ports m P HP) in Heq.
  unfold bind at 1 in Heq.
  rewrite (random_shuffle_run w ports m P HP) in Heq.
  unfold bind at 1 in Heq.
  rewrite (read_list_run ports _ (shuffle w P)) in Heq
    by (simpl; apply lookup_insert_eq).
  fold (workers w host cb (shuffle w P)) in Heq.
  unfold bind at 1 in Heq.
  rewrite (execute_tasks_interrupted w _ _ _ _ k Hstop) in Heq
    by (rewrite ?workers_length, ?shuffle_length; simpl; done).
  rewrite workers_take, workers_length, shuffle_length in Heq.
  unfold pool_started in Heq.
  cbn [user heap engine tm trace MAX_THREAD_COUNT] in Heq.
  rewrite Hrun in Heq.
  unfold with_tm, ret in Heq. cbn [fst snd user heap engine tm trace] in Heq.
  injection Heq as <- <-. cbn [fst snd user heap engine tm trace].
  split_and!; [done..|].
  rewrite !probed_app. simpl. rewrite app_nil_r. f_equal.
  apply probed_workers.
Qed.

Lemma scan_ports_stopped_reports_nothing_witness :
  let m := machine_with stopped_world 0%nat [22; 80; 443] in
  let out := scan_ports stopped_world "h" 1%nat 3
               (Some counting_callback) m in
  out.2 = Ok ∅ ∧
  heap out.1 = <[1%nat := shuffle stopped_world [22; 80; 443]]> (heap m) ∧
  probed (trace out.1) =
    probed (trace m) ++ take 1 (shuffle stopped_world [22; 80; 443]).
Proof.
  apply (scan_ports_stopped_reports_nothing stopped_world "h" 1%nat 3
           (Some counting_callback)
           (machine_with stopped_world 0%nat [22; 80; 443])
           [22; 80; 443] 4%positive 1%nat).
  - reflexivity.
  - reflexivity.
  - lia.
  - reflexivity.
  - simpl. lia.
  - vm_compute. reflexivity.
Defined.

(** The port probed before the stop was open, yet nothing is returned. *)
Lemma scan_ports_stopped_example :
  let out := scan_ports stopped_world "h" 1%nat 3 (Some counting_callback)
               (machine_with stopped_world 0%nat [22; 80; 443]) in
  probed (trace out.1) = [80] ∧ is_open_at stopped_world scanner_engine.init "h" 80 = true ∧
  out.2 = Ok ∅.
Proof. vm_compute. done. Qed.

(** ** The command line: validate_args before parse_port_range *)

Lemma check_part_parse_section (part : string) :
  main.check_part part = Ok true →
  ∃ ps, main.parse_section part = Ok ps ∧ ps ≠ [] ∧
        Forall (λ p, 1 ≤ p ≤ 65535) ps.
Proof.
  unfold main.check_part, main.parse_section.
  destruct (Py.contains "-" part).
  - destruct (Py.split "-" part) as [|a [|b [|c rest]]]; try done.
    destruct (Py.int a) as [start|]; [|done].
    destruct (Py.int b) as [end_|]; [|done]. simpl.
    destruct (Z.ltb_spec start 1); [done|].
    destruct (Z.gtb_spec end_ 65535); [done|].
    destruct (Z.gtb_spec start end_); [done|]. simpl. intros _.
    eexists. split_and!; [done| |].
    + apply range_nonempty. lia.
    + apply Forall_forall. intros p Hp. apply elem_of_seqZ in Hp. lia.
  - destruct (Py.int part) as [port|]; [|done]. simpl.
    destruct (Z.ltb_spec port 1); [done|].
    destruct (Z.gtb_spec port 65535); [done|]. simpl. intros _.
    eexists. split_and!; [done..|]. apply Forall_singleton. lia.
Qed.

Lemma check_parts_parse_sections (parts : list string) :
  ∀ acc,
    main.check_parts parts = Ok true →
    Forall (λ p, 1 ≤ p ≤ 65535) acc →
    ∃ l, main.parse_sections parts acc = Ok l ∧
         Forall (λ p, 1 ≤ p ≤ 65535) l ∧
         (parts ≠ [] ∨ acc ≠ [] → l ≠ []).
Proof.
  induction parts as [|part rest IH]; intros acc; simpl.
  - intros _ Hacc. exists acc. split_and!; [done..|]. by intros [?|?].
  - unfold rbind.
    destruct (main.check_part part) as [[]|] eqn:Hpart; [|done..].
    destruct (check_part_parse_section _ Hpart) as (ps & -> & Hne & Hps).
    intros Hrest Hacc.
    destruct (IH (acc ++ ps) Hrest) as (l & Hl & Hall & Hnil).
    { apply Forall_app. by split. }
    exists l. split_and!; [done..|]. intros _. apply Hnil. right.
    by destruct acc, ps.
Qed.

Lemma validate_args_parse_inv {St} (args : main.Namespace)
    (m : Machine St) :
  main.validate_args args = Ok true →
  1 ≤ main.threads args ∧
  main.truthy (main.target args) = true ∧
  (main.truthy (main.ports args) = false →
   main.parse_port_range (main.ports args) m = (m, Ok DEFAULT_PORTS_loc)) ∧
  (main.truthy (main.ports args) = true →
   ∃ l : list Z,
     main.parse_port_range (main.ports args) m =
       (mkMachine (user m) (<[fresh (dom (heap m)) := l]> (heap m))
          (engine m) (tm m) (trace m),
        Ok (fresh (dom (heap m)))) ∧
     heap m !! fresh (dom (heap m)) = None ∧
     l ≠ [] ∧ Forall (λ p, 1 ≤ p ≤ 65535) l ∧ StronglySorted Z.lt l).
Proof.
  unfold main.validate_args, main.parse_port_range.
  destruct (main.truthy (main.target args)); [|done]. simpl.
  destruct (main.truthy (main.ports args)) eqn:Hports; simpl.
  - unfold try_except.
    destruct (main.check_parts _) as [[]|e] eqn:Hcheck; simpl;
      [|done|by destruct (is_ValueError e)].
    destruct (Z.ltb_spec (main.threads args) 1); [done|]. intros _.
    split_and!; [lia|done|done|]. intros _.
    destruct (check_parts_parse_sections _ [] Hcheck (Forall_nil_2 _))
      as (l & Hl & Hall & Hne).
    exists (Py.sorted (Py.set_list l)).
    unfold bind, lift. rewrite Hl.
    unfold flask_web_interface.new_list, alloc.
    destruct (sorted_set_list l) as [Hsorted Hin].
    split_and!; [done| | | |done].
    + apply not_elem_of_dom. apply is_fresh.
    + intros Hnil. destruct l as [|p l].
      { apply Hne; [|done]. left. apply split_nonempty. }
      assert (p ∈ Py.sorted (Py.set_list (p :: l))) as Hp
        by (apply Hin; left).
      rewrite Hnil in Hp. by apply elem_of_nil in Hp.
    + apply Forall_forall. intros p Hp. apply Hin in Hp.
      rewrite Forall_forall in Hall. by apply Hall.
  - destruct (Z.ltb_spec (main.threads args) 1); [done|]. intros _.
    split_and!; [lia|done| |done]. done.
Qed.

(** X9. On the command line a port string that [validate_args] accepts is
    one that [parse_port_range] parses without an exception, into a new
    list that is not empty, strictly increasing, and holds ports between 1
    and 65535 only; without a port string the list is the [DEFAULT_PORTS]
    object itself; and the thread count is at least 1. *)
Theorem validate_args_then_parse_port_range {St} (args : main.Namespace)
    (m : Machine St) :
  main.validate_args args = Ok true →
  1 ≤ main.threads args ∧
  main.truthy (main.target args) = true ∧
  (main.truthy (main.ports args) = false →
   main.parse_port_range (main.ports args) m = (m, Ok DEFAULT_PORTS_loc)) ∧
  (main.truthy (main.ports args) = true →
   ∃ l : list Z,
     main.parse_port_range (main.ports args) m =
       (mkMachine (user m) (<[fresh (dom (heap m)) := l]> (heap m))
          (engine m) (tm m) (trace m),
        Ok (fresh (dom (heap m)))) ∧
     heap m !! fresh (dom (heap m)) = None ∧
     l ≠ [] ∧ Forall (λ p, 1 ≤ p ≤ 65535) l ∧ StronglySorted Z.lt l).
Proof. apply validate_args_parse_inv. Qed.

Lemma validate_args_then_parse_port_range_witness :
  let args := main.mkArgs (Some "h"%string) (Some "443, 80,8000-8002,80"%string)
                10 false in
  let m := machine_with (closed_world 4) 0%nat [] in
  1 ≤ main.threads args ∧
  main.truthy (main.target args) = true ∧
  (main.truthy (main.ports args) = false →
   main.parse_port_range (main.ports args) m = (m, Ok DEFAULT_PORTS_loc)) ∧
  (main.truthy (main.ports args) = true →
   ∃ l : list Z,
     main.parse_port_range (main.ports args) m =
       (mkMachine (user m) (<[fresh (dom (heap m)) := l]> (heap m))
          (engine m) (tm m) (trace m),
        Ok (fresh (dom (heap m)))) ∧
     heap m !! fresh (dom (heap m)) = None ∧
     l ≠ [] ∧ Forall (λ p, 1 ≤ p ≤ 65535) l ∧ StronglySorted Z.lt l).
Proof.
  apply (validate_args_then_parse_port_range
           (main.mkArgs (Some "h"%string)
              (Some "443, 80,8000-8002,80"%string) 10 false)
           (machine_with (closed_world 4) 0%nat [])).
  vm_compute. reflexivity.
Defined.

(** ** scan_worker: how a worker thread ends *)

Lemma spec_in_user {St A} (P : St → Prop) (c : SM St A) (Q : A → St → Prop)
    (E : exn → St → Prop) :
  spec P c Q E →
  spec (on_user P) (in_user c) (λ a, on_user (Q a)) (λ e, on_user (E e)).
Proof.
  intros Hc m Hm. unfold in_user. specialize (Hc (user m) Hm).
  by destruct (c (user m)) as [u [a|e]].
Qed.

Lemma add_log_returns (scan_id id msg lvl : string) :
  spec (registered scan_id) (add_log id msg lvl)
    (λ _, registered scan_id) (λ _ _, False).
Proof.
  intros f Hf. destruct (active_scans f !! id) as [s|] eqn:Hs.
  - rewrite (add_log_run _ _ _ _ _ Hs). unfold registered. simpl.
    destruct (decide (id = scan_id)) as [->|Hne].
    + by rewrite lookup_insert_eq.
    + by rewrite lookup_insert_ne.
  - by rewrite (add_log_run_absent _ _ _ _ Hs).
Qed.

(** The worker ends as its last call, of [finish], ends. *)
Section worker_end.
Context (w : World) (scan_id : string).
Context (finish : string → string → SM Flask unit) (Q : Flask → Prop).
Hypothesis finish_returns :
  ∀ st, st = "completed"%string ∨ st = "failed"%string →
        spec (registered scan_id) (finish scan_id st)
          (λ _, Q) (λ _ _, False).

Lemma scan_worker_finish_with (found : gmap Z port_data) :
  spec (registered scan_id)
    (let* s := get_scan scan_id in
     let* _ := set_scan scan_id
                 (mkScan (status s) (progress s) (start_time s)
                    (end_time s) (logs s) found (cpu_cores s)) in
     let* _ :=
       if bool_decide (found = ∅)
       then add_log scan_id "Scan completed. No open ports found."
              "warning"
       else add_log scan_id
              ("Scan completed. Found " +:+ pretty (size found)
               +:+ " open ports.") "info" in
     finish scan_id "completed")
    (λ _, Q) (λ _, registered scan_id).
Proof.
  eapply spec_bind; [apply keeps_get_scan | intros s]. simpl.
  eapply spec_bind; [apply keeps_set_scan | intros u1]. simpl.
  eapply spec_bind.
  { destruct (bool_decide (found = ∅)); apply keeps_add_log. }
  intros u2. simpl.
  eapply spec_post; [apply finish_returns; by left | done | done].
Qed.

Lemma scan_worker_scan_with_spec (target : string) (ports : loc)
    (thread_count timeout : Z) :
  spec (on_user (registered scan_id))
    (scan_worker_scan_with finish w scan_id target ports thread_count
       timeout)
    (λ _, on_user Q) (λ _, on_user (registered scan_id)).
Proof.
  unfold scan_worker_scan_with.
  eapply spec_bind; [apply keeps_get_engine | intros self]. simpl.
  eapply spec_bind; [apply keeps_set_engine | intros u1]. simpl.
  eapply spec_bind; [apply keeps_read_list | intros l]. simpl.
  eapply spec_bind.
  { apply keeps_in_user. by intros f Hf. }
  intros u2. simpl.
  eapply spec_bind.
  { apply keeps_scan_ports. intros c [= <-] p s.
    apply keeps_update_progress. }
  intros found. simpl.
  apply (spec_in_user _ _ _ _ (scan_worker_finish_with found)).
Qed.

Lemma scan_worker_except_with_spec (e : exn) :
  spec (on_user (registered scan_id))
    (scan_worker_except_with finish w scan_id e)
    (λ _, on_user Q) (λ _ _, False).
Proof.
  unfold scan_worker_except_with.
  eapply spec_post;
    [apply (spec_in_user (registered scan_id) _ (λ _, Q) (λ _ _, False))
    | done | done].
  eapply spec_bind; [apply add_log_returns | intros u]. simpl.
  apply finish_returns. by right.
Qed.

Lemma scan_worker_setup_with_spec (target : string) :
  spec (λ _, True) (scan_worker_setup_with finish w scan_id target)
    (λ go_on f, if go_on then registered scan_id f else Q f)
    (λ _, registered scan_id).
Proof.
  unfold scan_worker_setup_with.
  eapply (spec_bind _ _ _ (λ _ _, True)); [by intros f _ | intros t].
  eapply (spec_bind _ _ _ (λ _, registered scan_id)).
  { intros f _. unfold registered. simpl. by rewrite lookup_insert_eq. }
  intros u. destruct (w_gethostbyname w target) as [ip_address|e].
  - eapply (spec_bind _ _ _ (λ _, registered scan_id)).
    + destruct (bool_decide (ip_address ≠ target));
        [apply keeps_add_log | apply keeps_ret].
    + intros u1 f Hf. done.
  - eapply (spec_bind _ _ _ (λ _, registered scan_id));
      [apply keeps_add_log | intros u1].
    eapply (spec_bind _ _ _ (λ _, Q)).
    + eapply spec_post; [apply finish_returns; by right | done | done].
    + intros u2 f Hf. done.
Qed.

Lemma scan_worker_with_ends (target : string) (ports : loc)
    (thread_count timeout : Z) (m : Machine Flask) :
  let out :=
    scan_worker_with finish w scan_id target ports thread_count timeout m in
  out.2 = Ok tt ∧ Q (user out.1).
Proof.
  assert (spec (λ _, True)
            (scan_worker_with finish w scan_id target ports thread_count
               timeout)
            (λ _, on_user Q) (λ _ _, False)) as Hspec.
  { unfold scan_worker_with.
    apply (spec_try_catch _ _ _ _ (λ _, on_user (registered scan_id))).
    - eapply (spec_bind _ _ _
                (λ go_on : bool,
                   on_user (λ f, if go_on then registered scan_id f
                                 else Q f))).
      + eapply spec_post;
          [apply (spec_in_user _ _ _ _ (scan_worker_setup_with_spec target))
          | done | done].
      + intros [|]; [apply scan_worker_scan_with_spec|]. by intros m1 Hm1.
    - apply scan_worker_except_with_spec. }
  specialize (Hspec m I). simpl.
  by destruct (scan_worker_with finish w scan_id target ports thread_count
                 timeout m) as [m' [[]|e]].
Qed.

End worker_end.

Lemma complete_scan_ended (scan_id st : string) :
  st = "completed"%string ∨ st = "failed"%string →
  spec (registered scan_id) (complete_scan scan_id st)
    (λ _, ended scan_id) (λ _ _, False).
Proof.
  intros Hst f [s Hs]. rewrite (complete_scan_run _ _ _ _ Hs).
  eexists. simpl. rewrite !lookup_insert_eq. split_and!; [done|..]; by eauto.
Qed.

Lemma scan_worker_setup_spec (w : World) (scan_id target : string) :
  spec (λ _, True) (scan_worker_setup w scan_id target)
    (λ go_on f, if go_on then registered scan_id f else ended scan_id f)
    (λ _, registered scan_id).
Proof.
  apply (scan_worker_setup_with_spec w scan_id complete_scan
           (ended scan_id) (complete_scan_ended scan_id) target).
Qed.

Lemma bind_run {S A B} (c : SM S A) (k : A → SM S B) (s : S) :
  bind c k s =
    match c s with
    | (s1, Ok a) => k a s1
    | (s1, Raise e) => (s1, Raise e)
    end.
Proof. reflexivity. Qed.

Lemma write_status_run (f : Flask) (scan_id st : string) (s : scan_state) :
  active_scans f !! scan_id = Some s →
  write_status scan_id st f =
    (mkFlask
       (<[scan_id := mkScan st (progress s) (start_time s) (end_time s)
                       (logs s) (results s) (cpu_cores s)]> (active_scans f))
       (scan_results f) (clock f) (completed_ports f), Ok tt).
Proof. intros H. unfold write_status, get_scan, set_scan. sm. by rewrite H. Qed.

Lemma write_end_time_run (f : Flask) (scan_id : string) (s : scan_state) :
  active_scans f !! scan_id = Some s →
  write_end_time scan_id f =
    (mkFlask
       (<[scan_id := mkScan (status s) (progress s) (start_time s)
                       (Some (clock f)) (logs s) (results s)
                       (cpu_cores s)]> (active_scans f))
       (scan_results f) (S (clock f)) (completed_ports f), Ok tt).
Proof.
  intros H. unfold write_end_time, now, get_scan, set_scan. sm.
  by rewrite H.
Qed.

Lemma publish_results_run (f : Flask) (scan_id : string) (s : scan_state) :
  active_scans f !! scan_id = Some s →
  publish_results scan_id f =
    (mkFlask (active_scans f) (<[scan_id := results s]> (scan_results f))
       (clock f) (completed_ports f), Ok tt).
Proof. intros H. unfold publish_results, get_scan. sm. by rewrite H. Qed.

(** [complete_scan] is its three statements, one after the other. *)
Lemma complete_scan_three_statements (scan_id st : string) (f : Flask) :
  complete_scan scan_id st f = complete_scan_statements scan_id st f.
Proof.
  destruct (active_scans f !! scan_id) as [s|] eqn:Hs.
  - rewrite (complete_scan_run _ _ _ _ Hs).
    unfold complete_scan_statements. rewrite bind_run.
    change (get f) with (f, Ok f). cbv beta iota. rewrite Hs.
    rewrite bind_run, (write_status_run _ _ _ _ Hs).
    rewrite bind_run.
    erewrite write_end_time_run by (simpl; apply lookup_insert_eq).
    erewrite publish_results_run by (simpl; apply lookup_insert_eq).
    simpl. by rewrite !insert_insert_eq.
  - rewrite (complete_scan_run_absent _ _ _ Hs).
    unfold complete_scan_statements. rewrite bind_run.
    change (get f) with (f, Ok f). cbv beta iota. by rewrite Hs.
Qed.

(** A stop request between the first two of them leaves "stopped". *)
Lemma complete_scan_stop_between_stopped (scan_id st : string) :
  spec (registered scan_id) (complete_scan_stop_between scan_id st)
    (λ _, ended_stopped scan_id) (λ _ _, False).
Proof.
  intros f [s Hs].
  unfold complete_scan_stop_between. rewrite bind_run.
  change (get f) with (f, Ok f). cbv beta iota. rewrite Hs.
  rewrite bind_run, (write_status_run _ _ _ _ Hs).
  rewrite bind_run. unfold api_stop_scan at 1. rewrite bind_run.
  match goal with
  | |- context [get ?g] => change (get g) with (g, Ok g)
  end.
  cbv beta iota. cbn [active_scans]. rewrite lookup_insert_eq.
  rewrite bind_run.
  erewrite complete_scan_run by (simpl; apply lookup_insert_eq).
  cbn [ret]. rewrite bind_run.
  erewrite write_end_time_run by (simpl; apply lookup_insert_eq).
  erewrite publish_results_run by (simpl; apply lookup_insert_eq).
  eexists. simpl. rewrite !lookup_insert_eq.
  split_and!; [done|done|by eauto|done].
Qed.

(** X10. A worker thread that runs with no other request in between
    ends without an exception, whatever the network, the port list and
    the parameters; the scan then is "completed" or "failed", has an end
    time, and its results are published under its id in [scan_results].
    [complete_scan], the worker's last call, is three statements; when
    the server handles a stop request for the scan between the first two
    of them, the worker still ends without an exception, with the end
    time set and the results published, but the scan is left
    "stopped". *)
Theorem scan_worker_always_ends (w : World) (scan_id target : string)
    (ports : loc) (thread_count timeout : Z) (m : Machine Flask) :
  let out := scan_worker w scan_id target ports thread_count timeout m in
  let raced :=
    scan_worker_with complete_scan_stop_between w scan_id target ports
      thread_count timeout m in
  out.2 = Ok tt ∧ ended scan_id (user out.1) ∧
  scan_worker_with complete_scan w scan_id target ports thread_count
    timeout m = out ∧
  (∀ st f, complete_scan scan_id st f = complete_scan_statements scan_id st f) ∧
  raced.2 = Ok tt ∧ ended_stopped scan_id (user raced.1).
Proof.
  intros out raced.
  destruct (scan_worker_with_ends w scan_id complete_scan (ended scan_id)
              (complete_scan_ended scan_id) target ports thread_count
              timeout m) as [Hout Hended].
  destruct (scan_worker_with_ends w scan_id complete_scan_stop_between
              (ended_stopped scan_id)
              (λ st _, complete_scan_stop_between_stopped scan_id st)
              target ports thread_count timeout m) as [Hraced Hstopped].
  split_and!; try done.
  intros st f. apply complete_scan_three_statements.
Qed.

(** The scan of [ssh_world], with a stop request inside the worker's
    [complete_scan]. *)
Lemma scan_worker_stop_between_example :
  let raced :=
    scan_worker_with complete_scan_stop_between ssh_world "1_h" "h"
      DEFAULT_PORTS_loc 8 1000 (initial_machine ssh_world) in
  raced.2 = Ok tt ∧ status_of (user raced.1) "1_h" = Some "stopped"%string
  ∧ status_of (user scan_completed) "1_h" = Some "completed"%string.
Proof. vm_compute. split_and!; reflexivity. Qed.

(** ** api_scan_status: polling the log *)

Import flask_routes.

(** The registry after a status request for the entry [s] of [scan_id]:
    as it was when the entry has the key [cpu_cores], with the key put in
    otherwise. *)
Lemma api_scan_status_run (w : World) (scan_id : string)
    (arg : option string) (f : Flask) (s : scan_state) (i : Z) :
  active_scans f !! scan_id = Some s →
  (cpu_cores s = None → is_Some (w_cpu_count w)) →
  match arg with Some a => Py.int a | None => Ok 0 end = Ok i →
  ∃ f',
    api_scan_status w scan_id arg f =
      (f', Ok (Status200
                 (mkStatus (status s) (progress s)
                    (if i <? Z.of_nat (length (logs s))
                     then slice_from (logs s) i else [])
                    (Z.of_nat (length (logs s)))
                    match end_time s with
                    | Some e => Z.of_nat e - Z.of_nat (start_time s)
                    | None => 0
                    end 0 0
                    (if terminal (status s) then Some (results s)
                     else None)))) ∧
    (is_Some (cpu_cores s) → f' = f) ∧
    (cpu_cores s = None →
     ∃ n, w_cpu_count w = Some n ∧
          f' = mkFlask
                 (<[scan_id := mkScan (status s) (progress s) (start_time s)
                                 (end_time s) (logs s) (results s)
                                 (Some (Z.pos n))]> (active_scans f))
                 (scan_results f) (clock f) (completed_ports f)).
Proof.
  intros Hs Hcpu Harg.
  unfold api_scan_status, set_scan, bind, get, put, ret, lift. simpl.
  rewrite Hs. destruct (cpu_cores s) as [cores|] eqn:Hcores.
  - rewrite Harg. eexists. split_and!; [reflexivity|done|done].
  - destruct (Hcpu eq_refl) as [n Hn]. unfold coordinator.cpu_count.
    rewrite Hn. simpl. rewrite Harg. eexists.
    split_and!; [reflexivity|by intros [? [=]]|].
    intros _. by exists n.
Qed.

(** X11. Polling the status of a scan is incremental: when the log of the
    scan has only grown since an answer, a request that passes the
    [logs_index] of that answer gets exactly the entries added since, and
    the index to pass next.  The request leaves the registry as it was
    when the entry has the key [cpu_cores]; otherwise it puts the CPU
    count in the entry, under that key, and changes nothing else. *)
Theorem status_polling_is_incremental (w : World) (scan_id : string)
    (arg1 : option string) (arg2 : string) (f1 f2 : Flask)
    (s1 s2 : scan_state) (b1 : status_body) :
  (cpu_cores s2 = None → is_Some (w_cpu_count w)) →
  active_scans f1 !! scan_id = Some s1 →
  active_scans f2 !! scan_id = Some s2 →
  logs s1 `prefix_of` logs s2 →
  (api_scan_status w scan_id arg1 f1).2 = Ok (Status200 b1) →
  Py.int arg2 = Ok (st_logs_index b1) →
  ∃ b2 f2',
    api_scan_status w scan_id (Some arg2) f2 = (f2', Ok (Status200 b2)) ∧
    logs s1 ++ st_logs b2 = logs s2 ∧
    st_logs_index b2 = Z.of_nat (length (logs s2)) ∧
    (is_Some (cpu_cores s2) → f2' = f2) ∧
    (cpu_cores s2 = None →
     ∃ n, w_cpu_count w = Some n ∧
          f2' = mkFlask
                  (<[scan_id := mkScan (status s2) (progress s2)
                                  (start_time s2) (end_time s2) (logs s2)
                                  (results s2) (Some (Z.pos n))]>
                     (active_scans f2))
                  (scan_results f2) (clock f2) (completed_ports f2)).
Proof.
  intros Hcpu H1 H2 [extra Hextra] Hb1 Harg.
  assert (st_logs_index b1 = Z.of_nat (length (logs s1))) as Hindex.
  { revert Hb1.
    unfold api_scan_status, set_scan, bind, get, put, ret, lift. simpl.
    rewrite H1.
    destruct (cpu_cores s1), (coordinator.cpu_count w), arg1 as [a1|];
      try destruct (Py.int a1); simpl; try done; by intros [= <-]. }
  rewrite Hindex in Harg.
  destruct (api_scan_status_run w scan_id (Some arg2) f2 s2 _ H2 Hcpu Harg)
    as (f2' & -> & Hsame & Hcached).
  eexists _, f2'. split; [reflexivity|]. simpl.
  split_and!; [|done|done|done].
  rewrite Hextra, length_app. unfold slice_from.
  destruct (Z.ltb_spec (Z.of_nat (length (logs s1)))
              (Z.of_nat (length (logs s1) + length extra))).
  - destruct (Z.ltb_spec (Z.of_nat (length (logs s1))) 0); [lia|].
    by rewrite Nat2Z.id, drop_app_length.
  - destruct extra; [done | simpl in *; lia].
Qed.

Lemma status_polling_is_incremental_witness :
  let w := closed_world 4 in
  let l1 := [mkLog 0 "Resolved h to 10.0.0.1" "info"] in
  let l2 := l1 ++ [mkLog 1 "Port 22 is open: SSH" "success"] in
  let s2 := mkScan "running" 0 0 None l2 ∅ None in
  ∃ b2 f2',
    api_scan_status w "1_h" (Some "1"%string) (flask_with_logs "1_h" l2) =
      (f2', Ok (Status200 b2)) ∧
    l1 ++ st_logs b2 = l2 ∧
    st_logs_index b2 = 2 ∧
    (is_Some (cpu_cores s2) → f2' = flask_with_logs "1_h" l2) ∧
    (cpu_cores s2 = None →
     ∃ n, w_cpu_count w = Some n ∧
          f2' = mkFlask
                  (<["1_h"%string := mkScan "running" 0 0 None l2 ∅
                                       (Some (Z.pos n))]>
                     (active_scans (flask_with_logs "1_h" l2)))
                  ∅ 2 ∅).
Proof.
  apply (status_polling_is_incremental (closed_world 4) "1_h" None "1"
           (flask_with_logs "1_h"
              [mkLog 0 "Resolved h to 10.0.0.1" "info"])
           (flask_with_logs "1_h"
              ([mkLog 0 "Resolved h to 10.0.0.1" "info"]
               ++ [mkLog 1 "Port 22 is open: SSH" "success"]))
           (mkScan "running" 0 0 None
              [mkLog 0 "Resolved h to 10.0.0.1" "info"] ∅ None)
           (mkScan "running" 0 0 None
              ([mkLog 0 "Resolved h to 10.0.0.1" "info"]
               ++ [mkLog 1 "Port 22 is open: SSH" "success"]) ∅ None)
           (mkStatus "running" 0 [mkLog 0 "Resolved h to 10.0.0.1" "info"]
              1 0 0 0 None)).
  - by eexists.
  - apply lookup_singleton_eq.
  - apply lookup_singleton_eq.
  - by eexists.
  - vm_compute. reflexivity.
  - vm_compute. reflexivity.
Defined.

(** ** The log of a scan only grows *)

Section log_invariants.
Context (scan_id : string) (R : list log_entry → Prop).
Hypothesis R_append : ∀ l e, R l → R (l ++ [e]).

Lemma logs_add_log (id msg lvl : string) :
  spec (logs_satisfy scan_id R) (add_log id msg lvl)
    (λ _, logs_satisfy scan_id R) (λ _ _, False).
Proof.
  intros f (s & Hs & HR). destruct (active_scans f !! id) as [s0|] eqn:Hid.
  - rewrite (add_log_run _ _ _ _ _ Hid). unfold logs_satisfy. simpl.
    destruct (decide (id = scan_id)) as [->|Hne].
    + rewrite lookup_insert_eq. eexists. split; [done|]. simpl.
      rewrite Hs in Hid. injection Hid as <-. by apply R_append.
    + rewrite lookup_insert_ne by done. by exists s.
  - rewrite (add_log_run_absent _ _ _ _ Hid). by exists s.
Qed.

Lemma logs_complete_scan (id st : string) :
  spec (logs_satisfy scan_id R) (complete_scan id st)
    (λ _, logs_satisfy scan_id R) (λ _ _, False).
Proof.
  intros f (s & Hs & HR). destruct (active_scans f !! id) as [s0|] eqn:Hid.
  - rewrite (complete_scan_run _ _ _ _ Hid). unfold logs_satisfy. simpl.
    destruct (decide (id = scan_id)) as [->|Hne].
    + rewrite lookup_insert_eq. eexists. split; [done|]. simpl.
      rewrite Hs in Hid. by injection Hid as <-.
    + rewrite lookup_insert_ne by done. by exists s.
  - rewrite (complete_scan_run_absent _ _ _ Hid). by exists s.
Qed.

(** Reading the entry, and writing it back with the same log. *)
Lemma logs_get_scan (id : string) :
  spec (logs_satisfy scan_id R) (get_scan id)
    (λ s f, logs_satisfy scan_id R f ∧ active_scans f !! id = Some s)
    (λ _, logs_satisfy scan_id R).
Proof.
  intros f Hf. unfold get_scan. sm.
  by destruct (active_scans f !! id) as [s0|] eqn:Hid.
Qed.

Lemma logs_set_scan (id : string) (s s' : scan_state) :
  logs s' = logs s →
  spec (λ f, logs_satisfy scan_id R f ∧ active_scans f !! id = Some s)
    (set_scan id s')
    (λ _, logs_satisfy scan_id R) (λ _ _, False).
Proof.
  intros Hlogs f [(s0 & Hs0 & HR) Hid]. unfold set_scan. sm.
  unfold logs_satisfy. simpl.
  destruct (decide (id = scan_id)) as [->|Hne].
  - rewrite lookup_insert_eq. eexists. split; [done|].
    rewrite Hlogs. rewrite Hs0 in Hid. by injection Hid as <-.
  - rewrite lookup_insert_ne by done. by exists s0.
Qed.

Lemma logs_update_progress (w : World) (id : string) (total_ports : Z)
    (port_number : Z) (st : cb_status) :
  keeps (logs_satisfy scan_id R)
    (update_progress w id total_ports port_number st).
Proof.
  intros f Hf. unfold update_progress.
  unfold bind at 1, get at 1. unfold bind at 1, put at 1.
  set (f1 := mkFlask _ _ _ _).
  assert (logs_satisfy scan_id R f1) as Hf1 by done.
  refine ((_ : keeps (logs_satisfy scan_id R) _) f1 Hf1). clear Hf1.
  destruct (total_ports =? 0); [apply keeps_raise|].
  eapply spec_bind; [apply logs_get_scan | intros s1].
  eapply spec_bind.
  { eapply spec_post; [by apply (logs_set_scan id s1) | | done].
    intros a s Hs. exact Hs. }
  intros u. simpl. destruct (status_truthy st); [|apply keeps_ret].
  apply keeps_bind; [apply keeps_lift | intros service].
  eapply spec_post; [apply logs_add_log | done | done].
Qed.

(** Steps 11.7 to 11.9. *)
Lemma logs_scan_worker_finish (found : gmap Z port_data) :
  keeps (logs_satisfy scan_id R)
    (let* s := get_scan scan_id in
     let* _ := set_scan scan_id
                 (mkScan (status s) (progress s) (start_time s)
                    (end_time s) (logs s) found (cpu_cores s)) in
     let* _ :=
       if bool_decide (found = ∅)
       then add_log scan_id "Scan completed. No open ports found."
              "warning"
       else add_log scan_id
              ("Scan completed. Found " +:+ pretty (size found)
               +:+ " open ports.") "info" in
     complete_scan scan_id "completed").
Proof.
  eapply spec_bind; [apply logs_get_scan | intros s1].
  eapply spec_bind.
  { eapply spec_post; [by apply (logs_set_scan scan_id s1) | | done].
    intros a s Hs. exact Hs. }
  intros u. simpl.
  eapply spec_bind.
  { destruct (bool_decide (found = ∅));
      (eapply spec_post; [apply logs_add_log | | done]);
      intros a s Hs; exact Hs. }
  intros u1. simpl. eapply spec_post; [apply logs_complete_scan | done | done].
Qed.

Lemma logs_scan_worker_resume (w : World) (target : string) (ports : loc)
    (thread_count timeout : Z) :
  spec (on_user (logs_satisfy scan_id R))
    (scan_worker_resume w scan_id target ports thread_count timeout)
    (λ _, on_user (logs_satisfy scan_id R)) (λ _ _, False).
Proof.
  unfold scan_worker_resume.
  apply (spec_try_catch _ _ _ _ (λ _, on_user (logs_satisfy scan_id R))).
  - unfold scan_worker_scan.
    eapply spec_bind; [apply keeps_get_engine | intros self]. simpl.
    eapply spec_bind; [apply keeps_set_engine | intros u1]. simpl.
    eapply spec_bind; [apply keeps_read_list | intros l]. simpl.
    eapply spec_bind.
    { apply keeps_in_user. by intros f Hf. }
    intros u2. simpl.
    eapply spec_bind.
    { apply keeps_scan_ports. intros c [= <-] p s.
      apply logs_update_progress. }
    intros found. simpl.
    apply keeps_in_user, logs_scan_worker_finish.
  - intros e. unfold scan_worker_except.
    eapply spec_post;
      [apply (spec_in_user (logs_satisfy scan_id R) _
                (λ _, logs_satisfy scan_id R) (λ _ _, False))
      | done | done].
    eapply spec_bind; [apply logs_add_log | intros u]. simpl.
    apply logs_complete_scan.
Qed.

End log_invariants.

(** X12. Once steps 11.1 and 11.2 have registered a scan, its log only
    grows: what the log holds when the worker thread goes on, or when a
    stop request comes in, is a prefix of what it holds when the thread
    has ended, or when the request has been answered.  So entries a
    client has read are never changed or removed by them. *)
Theorem logs_only_grow (w : World) (scan_id target : string) (ports : loc)
    (thread_count timeout : Z) (m : Machine Flask) (s : scan_state) :
  active_scans (user m) !! scan_id = Some s →
  logs_satisfy scan_id (λ l, logs s `prefix_of` l)
    (user (scan_worker_resume w scan_id target ports thread_count timeout
             m).1) ∧
  logs_satisfy scan_id (λ l, logs s `prefix_of` l)
    (api_stop_scan scan_id (user m)).1.
Proof.
  intros Hs.
  assert (∀ (l : list log_entry) (e : log_entry),
            logs s `prefix_of` l → logs s `prefix_of` l ++ [e]) as Happ.
  { intros l e Hl. by apply prefix_app_r. }
  assert (logs_satisfy scan_id (λ l, logs s `prefix_of` l) (user m)) as Hm.
  { by exists s. }
  split.
  - pose proof (logs_scan_worker_resume scan_id _ Happ w target ports
                  thread_count timeout m Hm) as H.
    by destruct (scan_worker_resume w scan_id target ports thread_count
                   timeout m) as [m' [[]|e]].
  - unfold api_stop_scan. sm. rewrite Hs.
    pose proof (logs_complete_scan scan_id _ scan_id "stopped" (user m) Hm)
      as H.
    by destruct (complete_scan scan_id "stopped" (user m)) as [f' [[]|e]].
Qed.

Lemma logs_only_grow_witness :
  let s := default (mkScan "" 0 0 None [] ∅ None)
             (active_scans (user scan_completed) !! "1_h"%string) in
  logs_satisfy "1_h" (λ l, logs s `prefix_of` l)
    (user (scan_worker_resume ssh_world "1_h" "h" DEFAULT_PORTS_loc 8 1000
             scan_completed).1) ∧
  logs_satisfy "1_h" (λ l, logs s `prefix_of` l)
    (api_stop_scan "1_h" (user scan_completed)).1.
Proof.
  apply (logs_only_grow ssh_world "1_h" "h" DEFAULT_PORTS_loc 8 1000
           scan_completed
           (default (mkScan "" 0 0 None [] ∅ None)
              (active_scans (user scan_completed) !! "1_h"%string))).
  vm_compute. reflexivity.
Defined.

(** ** api_start_scan *)

Lemma in_user_run {St A} (c : SM St A) (m : Machine St) :
  in_user c m =
    (mkMachine (c (user m)).1 (heap m) (engine m) (tm m) (trace m),
     (c (user m)).2).
Proof. unfold in_user. by destruct (c (user m)). Qed.

(** Step 14.3.5: the ports of the request. *)
Lemma api_start_scan_ports (port_range : string) (m m' : Machine Flask)
    (r : res (start_response + loc)) :
  try_except_in
    (let* ports := parse_port_range port_range in
     let* l := read_list ports in
     match l with
     | [] => ret (inl (BadRequest400 "No valid ports specified"))
     | _ => ret (inr ports)
     end)
    is_ValueError
    (fun _ => ret (inl (BadRequest400 "Invalid port range"))) m = (m', r) →
  user m' = user m ∧ trace m' = trace m ∧ engine m' = engine m ∧
  tm m' = tm m ∧
  (∀ r0 l0, heap m !! r0 = Some l0 → heap m' !! r0 = Some l0) ∧
  (∀ early, r = Ok (inl early) → ∃ error, early = BadRequest400 error) ∧
  ∀ ports, r = Ok (inr ports) → ∃ l, heap m' !! ports = Some l ∧ l ≠ [].
Proof.
  unfold try_except_in. unfold bind at 1.
  destruct (Py.falsy port_range) eqn:Hfalsy.
  - unfold parse_port_range. rewrite Hfalsy. unfold ret at 1.
    unfold bind, read_list.
    destruct (heap m !! DEFAULT_PORTS_loc) as [[|p l]|] eqn:Hl; simpl;
      intros [= <- <-]; split_and!; try done;
      try (intros early [= <-]; by eexists).
  - rewrite (run_parse_port_range _ _ Hfalsy).
    destruct (parse_sections (Py.split "," port_range) []) as [parsed|e].
    + unfold bind, read_list. cbn [heap]. rewrite lookup_insert_eq.
      assert (∀ r0 l0, heap m !! r0 = Some l0 →
                <[fresh (dom (heap m)) := Py.sorted (Py.set_list parsed)]>
                  (heap m) !! r0 = Some l0) as Hkeep.
      { intros r0 l0 Hr0. rewrite lookup_insert_ne; [done|].
        intros <-. apply elem_of_dom_2 in Hr0. by apply is_fresh in Hr0. }
      destruct (Py.sorted (Py.set_list parsed)) as [|p l] eqn:Hsorted;
        simpl; intros [= <- <-]; split_and!; try done;
        try (intros early [= <-]; by eexists).
      intros ports [= <-]. simpl. rewrite lookup_insert_eq. by eexists.
    + destruct (is_ValueError e); simpl; intros [= <- <-];
        split_and!; try done; intros early [= <-]; by eexists.
Qed.

Lemma api_start_scan_inv (w : World) (time : Z) (data : scan_request)
    (m m' : Machine Flask) (scan_id target : string) (ports : loc)
    (thread_count timeout : Z) :
  api_start_scan w time data m =
    (m', Ok (Started scan_id target ports thread_count timeout)) →
  ∃ (n : positive) (t : string) (l : list Z),
    w_cpu_count w = Some n ∧
    rq_target data = Some t ∧ target = Py.strip t ∧
    scan_id = make_scan_id time target ∧
    thread_count = Z.min (rq_threads data) (Z.pos n * 2) ∧
    timeout = rq_timeout data ∧
    heap m' !! ports = Some l ∧ l ≠ [] ∧
    (∀ r0 l0, heap m !! r0 = Some l0 → heap m' !! r0 = Some l0) ∧
    trace m' = trace m ∧ engine m' = engine m ∧ tm m' = tm m ∧
    (active_scans (user m) !! scan_id = None → user m' = user m).
Proof.
  unfold api_start_scan. destruct (rq_target data) as [t|]; [|done].
  unfold bind at 1, lift, coordinator.cpu_count.
  destruct (w_cpu_count w) as [n|]; [|done].
  unfold bind at 1.
  destruct (try_except_in _ _ _ m) as [m1 r] eqn:Hparse.
  destruct (api_start_scan_ports _ _ _ _ Hparse)
    as (Hu & Htr & He & Htm & Hheap & Hearly & Hports).
  destruct r as [[early|ports0]|e]; [|
    |done].
  { destruct (Hearly early eq_refl) as [error ->]. done. }
  destruct (Hports ports0 eq_refl) as (l & Hl & Hne).
  unfold bind, ret.
  destruct (rq_threads data >? Z.pos n * 2) eqn:Hwarn.
  - rewrite in_user_run. unfold add_thread_warning.
    destruct (active_scans (user m1) !! make_scan_id time (Py.strip t))
      as [s0|] eqn:Hid.
    + rewrite (add_log_run _ _ _ _ _ Hid). cbn [fst snd].
      intros Heq. simplify_eq. exists n, t, l.
      cbn [user heap engine tm trace].
      split_and!; try done; [lia|]. rewrite <- Hu. congruence.
    + rewrite (add_log_run_absent _ _ _ _ Hid). cbn [fst snd].
      intros Heq. simplify_eq. exists n, t, l.
      cbn [user heap engine tm trace].
      split_and!; try done. lia.
  - intros Heq. simplify_eq. exists n, t, l.
    split_and!; try done. lia.
Qed.

(** X13. When [api_start_scan] starts a scan, the machine has a known CPU
    count, the thread count handed to the worker is the requested one
    capped at twice the CPU count (there is no lower bound), the port list
    handed over exists and is not empty, the lists that existed are
    unchanged, nothing was probed, and for an id that is not registered
    yet the registry is unchanged. *)
Theorem api_start_scan_started (w : World) (time : Z) (data : scan_request)
    (m m' : Machine Flask) (scan_id target : string) (ports : loc)
    (thread_count timeout : Z) :
  api_start_scan w time data m =
    (m', Ok (Started scan_id target ports thread_count timeout)) →
  ∃ (n : positive) (t : string) (l : list Z),
    w_cpu_count w = Some n ∧
    rq_target data = Some t ∧ target = Py.strip t ∧
    scan_id = make_scan_id time target ∧
    thread_count = Z.min (rq_threads data) (Z.pos n * 2) ∧
    timeout = rq_timeout data ∧
    heap m' !! ports = Some l ∧ l ≠ [] ∧
    (∀ r0 l0, heap m !! r0 = Some l0 → heap m' !! r0 = Some l0) ∧
    trace m' = trace m ∧ engine m' = engine m ∧ tm m' = tm m ∧
    (active_scans (user m) !! scan_id = None → user m' = user m).
Proof. apply api_start_scan_inv. Qed.

Lemma api_start_scan_started_witness :
  let w := open_world [22] 4 in
  let data := mkRequest (Some " h "%string) "22,80" 20 1000 in
  let m := initial_machine w in
  let m' := (api_start_scan w 1 data m).1 in
  ∃ (n : positive) (t : string) (l : list Z),
    w_cpu_count w = Some n ∧
    rq_target data = Some t ∧ "h"%string = Py.strip t ∧
    "1_h"%string = make_scan_id 1 "h" ∧
    8 = Z.min (rq_threads data) (Z.pos n * 2) ∧
    1000 = rq_timeout data ∧
    heap m' !! 1%nat = Some l ∧ l ≠ [] ∧
    (∀ r0 l0, heap m !! r0 = Some l0 → heap m' !! r0 = Some l0) ∧
    trace m' = trace m ∧ engine m' = engine m ∧ tm m' = tm m ∧
    (active_scans (user m) !! "1_h"%string = None → user m' = user m).
Proof.
  apply (api_start_scan_started (open_world [22] 4) 1
           (mkRequest (Some " h "%string) "22,80" 20 1000)
           (initial_machine (open_world [22] 4))
           (api_start_scan (open_world [22] 4) 1
              (mkRequest (Some " h "%string) "22,80" 20 1000)
              (initial_machine (open_world [22] 4))).1
           "1_h" "h" 1%nat 8 1000).
  vm_compute. reflexivity.
Defined.

(** ** The scan a request starts *)

Lemma scan_worker_scan_run (w : World) (scan_id target : string)
    (ports : loc) (thread_count timeout : Z) (m : Machine Flask)
    (P : list Z) (n : positive) :
  heap m !! ports = Some P →
  w_cpu_count w = Some n →
  thread_count ≤ Z.pos n * 2 →
  let self := set_timeout (engine m) timeout in
  let optimal :=
    pool_size (MAX_THREAD_COUNT (tm m)) thread_count (Z.pos n * 2)
      (length P) in
  ∃ (m' : Machine Flask) (r : res unit) (k : nat),
    scan_worker_scan w scan_id target ports thread_count timeout m
      = (m', r) ∧
    trace m' =
      trace m ++ ThreadPool optimal
        :: flat_map (worker_events w self target true)
             (take k (shuffle w P)) ∧
    (optimal ≤ 0 → take k (shuffle w P) = [] ∧ r = Raise ValueError).
Proof.
  intros HP Hcpu Hle self optimal.
  assert ((thread_count >? Z.pos n * 2) = false) as Hgt by lia.
  unfold scan_worker_scan.
  unfold bind at 1, get_engine. unfold bind at 1, set_engine.
  unfold bind at 1. rewrite (read_list_run ports _ P) by done.
  unfold bind at 1. rewrite in_user_run.
  cbn [user heap engine tm trace fst snd bind get put].
  set (u2 := (_ : Flask)).
  set (cb := update_progress w scan_id (Z.of_nat (length P))).
  destruct (scan_ports_run w target ports thread_count (Some cb)
              (mkMachine u2 (heap m) self (tm m) (trace m)) P n HP Hcpu)
    as (m' & r & Heq & _ & _ & Hcases).
  cbn [user heap engine tm trace] in Hcases.
  subst self. rewrite bind_run, Heq.
  destruct Hcases as [(e & Hadv & _)|(k & _ & _ & Htr & Hnonpos & _)].
  { unfold advisory_outcome in Hadv. by rewrite Hgt in Hadv. }
  unfold advisory_events in Htr. rewrite Hgt in Htr. simpl in Htr.
  rewrite ?bool_decide_eq_true_2 in Htr by eauto.
  destruct r as [found|e].
  - rewrite in_user_run. eexists _, _, k. split; [reflexivity|].
    cbn [trace]. split; [done|]. intros Hopt.
    destruct (Hnonpos Hopt) as [_ ?]. done.
  - eexists _, _, k. split; [reflexivity|]. split; [done|].
    intros Hopt. destruct (Hnonpos Hopt) as [? [= ->]]. done.
Qed.

(** Steps 11.1 and 11.2, from any registry: the entry of the scan is made
    anew, and its log then holds at most the line about the resolution. *)
Lemma scan_worker_setup_run (w : World) (scan_id target : string)
    (f : Flask) :
  ∃ (f' : Flask) (s : scan_state),
    active_scans f' !! scan_id = Some s ∧
    (length (logs s) ≤ 1)%nat ∧
    Forall (λ e, level e ≠ "warning"%string) (logs s) ∧
    match w_gethostbyname w target with
    | Ok _ =>
        scan_worker_setup w scan_id target f = (f', Ok true) ∧
        status s = "running"%string
    | Raise _ =>
        scan_worker_setup w scan_id target f = (f', Ok false) ∧
        status s = "failed"%string
    end.
Proof.
  unfold scan_worker_setup.
  set (s0 := mkScan "running" 0 (clock f) None [] ∅ None).
  set (f1 := mkFlask (<[scan_id := s0]> (active_scans f)) (scan_results f)
               (S (clock f)) (completed_ports f)).
  assert (active_scans f1 !! scan_id = Some s0) as H1
    by (subst f1; simpl; apply lookup_insert_eq).
  assert (∀ (A : Type) (k : SM Flask A),
            (let* t := now in
             let* _ := set_scan scan_id (mkScan "running" 0 t None [] ∅ None) in
             k) f = k f1) as Hstart by done.
  destruct (w_gethostbyname w target) as [ip_address|e]; rewrite Hstart.
  - destruct (bool_decide (ip_address ≠ target)).
    + rewrite bind_run, (add_log_run _ _ _ _ _ H1).
      eexists _, (mkScan "running" 0 (clock f) None
                    [mkLog (clock f1)
                       ("Resolved " +:+ target +:+ " to " +:+ ip_address)
                       "info"] ∅ None).
      split_and!; cycle 3.
      * reflexivity.
      * done.
      * simpl. apply lookup_insert_eq.
      * simpl. lia.
      * apply Forall_singleton. done.
    + exists f1, s0. split_and!; try done. simpl. lia.
  - rewrite bind_run, (add_log_run _ _ _ _ _ H1).
    set (f2 := mkFlask _ _ _ _).
    assert (∃ s2, active_scans f2 !! scan_id = Some s2 ∧
                  logs s2 = [mkLog (clock f1)
                               ("Failed to resolve " +:+ target +:+ ": "
                                +:+ w_str_exn w e) "error"])
      as (s2 & H2 & Hlogs).
    { eexists. subst f2. simpl. rewrite lookup_insert_eq. done. }
    rewrite bind_run, (complete_scan_run _ _ _ _ H2).
    eexists _, (mkScan "failed" (progress s2) (start_time s2)
                  (Some (clock f2)) (logs s2) (results s2) (cpu_cores s2)).
    split_and!; cycle 3.
    * reflexivity.
    * done.
    * simpl. apply lookup_insert_eq.
    * simpl. rewrite Hlogs. simpl. lia.
    * simpl. rewrite Hlogs. apply Forall_singleton. done.
Qed.

(** What a worker thread adds to the trace, and how it ends when the pool
    cannot be made, for a thread count within twice the CPU count. *)
Lemma scan_worker_run_trace (w : World) (scan_id target : string)
    (ports : loc) (thread_count timeout : Z) (m : Machine Flask)
    (P : list Z) (n : positive) :
  heap m !! ports = Some P →
  w_cpu_count w = Some n →
  thread_count ≤ Z.pos n * 2 →
  let out := scan_worker w scan_id target ports thread_count timeout m in
  let self := set_timeout (engine m) timeout in
  let optimal :=
    pool_size (MAX_THREAD_COUNT (tm m)) thread_count (Z.pos n * 2)
      (length P) in
  (trace out.1 = trace m ∧
   status_of (user out.1) scan_id = Some "failed"%string)
  ∨
  (∃ k : nat,
     trace out.1 =
       trace m ++ ThreadPool optimal
         :: flat_map (worker_events w self target true)
              (take k (shuffle w P)) ∧
     (optimal ≤ 0 →
      take k (shuffle w P) = [] ∧
      status_of (user out.1) scan_id = Some "failed"%string)).
Proof.
  intros HP Hcpu Hle. simpl.
  rewrite scan_worker_split, in_user_run.
  destruct (scan_worker_setup_run w scan_id target (user m))
    as (f1 & s1 & Hs1 & _ & _ & Hsetup).
  destruct (w_gethostbyname w target) as [ip|e0].
  - destruct Hsetup as [-> Hst]. cbn [fst snd]. right.
    set (m1 := mkMachine f1 (heap m) (engine m) (tm m) (trace m)).
    assert (on_user (registered scan_id) m1) as Hreg by (by exists s1).
    destruct (scan_worker_scan_run w scan_id target ports thread_count
                timeout m1 P n HP Hcpu Hle)
      as (m' & r & k & Heq & Htr & Hnonpos).
    pose proof (scan_worker_scan_spec scan_id w target ports thread_count
                  timeout m1 Hreg) as Hspec.
    unfold scan_worker_resume, try_catch. rewrite Heq in *.
    exists k. destruct r as [[]|e].
    + split; [done|]. intros Hopt. by destruct (Hnonpos Hopt).
    + pose proof (scan_worker_except_spec scan_id w e m' Hspec) as Hexc.
      unfold scan_worker_except in *. rewrite in_user_run in *.
      cbn [fst snd trace user] in *. split; [done|]. intros Hopt.
      destruct (Hnonpos Hopt) as [Hk _]. split; [done|].
      by destruct (let* _ := _ in _) as [f' [[]|e']].
  - destruct Hsetup as [-> Hst]. cbn [fst snd trace user]. left.
    split; [done|]. unfold status_of. rewrite Hs1. simpl. by rewrite Hst.
Qed.

(** X14. In a scan started through the web interface [scan_ports] never
    makes its advisory call of the progress callback: [api_start_scan] has
    already capped the thread count at the same bound, twice the CPU
    count. *)
Theorem web_scan_has_no_advisory (w : World) (time : Z)
    (data : scan_request) (m m' : Machine Flask) (scan_id target : string)
    (ports : loc) (thread_count timeout : Z) :
  api_start_scan w time data m =
    (m', Ok (Started scan_id target ports thread_count timeout)) →
  advisories
    (trace (scan_worker w scan_id target ports thread_count timeout m').1)
  = advisories (trace m).
Proof.
  intros Hstart.
  destruct (api_start_scan_inv _ _ _ _ _ _ _ _ _ _ Hstart)
    as (n & t & l & Hcpu & _ & _ & _ & Htc & _ & Hl & _ & _ & Htr & _).
  assert (thread_count ≤ Z.pos n * 2) as Hle by lia.
  destruct (scan_worker_run_trace w scan_id target ports thread_count
              timeout m' l n Hl Hcpu Hle) as [[-> _]|(k & -> & _)].
  - by rewrite Htr.
  - rewrite advisories_app, Htr. simpl.
    rewrite advisories_workers. apply app_nil_r.
Qed.

Lemma web_scan_has_no_advisory_witness :
  let w := open_world [22] 4 in
  let data := mkRequest (Some "h"%string) "22,80" 20 1000 in
  let m := initial_machine w in
  advisories
    (trace (scan_worker w "1_h" "h" 1%nat 8 1000
              (api_start_scan w 1 data m).1).1)
  = advisories (trace m).
Proof.
  apply (web_scan_has_no_advisory (open_world [22] 4) 1
           (mkRequest (Some "h"%string) "22,80" 20 1000)
           (initial_machine (open_world [22] 4))
           (api_start_scan (open_world [22] 4) 1
              (mkRequest (Some "h"%string) "22,80" 20 1000)
              (initial_machine (open_world [22] 4))).1
           "1_h" "h" 1%nat 8 1000).
  vm_compute. reflexivity.
Defined.

(** X15. The thread-count warning of [api_start_scan] never reaches the
    log of the scan it starts: for an id that is not registered yet
    [add_log] stores nothing, and in any case steps 11.1 and 11.2 of the
    worker make the entry anew, so that after them the log holds no
    warning at all. *)
Theorem thread_warning_is_lost (w : World) (time : Z) (data : scan_request)
    (m m' : Machine Flask) (scan_id target : string) (ports : loc)
    (thread_count timeout : Z) :
  api_start_scan w time data m =
    (m', Ok (Started scan_id target ports thread_count timeout)) →
  (active_scans (user m) !! scan_id = None → user m' = user m) ∧
  ∃ s, active_scans
         (scan_worker_setup w scan_id target (user m')).1 !! scan_id
       = Some s ∧
       Forall (λ e, level e ≠ "warning"%string) (logs s).
Proof.
  intros Hstart.
  destruct (api_start_scan_inv _ _ _ _ _ _ _ _ _ _ Hstart)
    as (n & t & l & _ & _ & _ & _ & _ & _ & _ & _ & _ & _ & _ & _ & Hfresh).
  split; [done|].
  destruct (scan_worker_setup_run w scan_id target (user m'))
    as (f1 & s1 & Hs1 & _ & Hlogs & Hsetup).
  exists s1. split; [|done].
  by destruct (w_gethostbyname w target); destruct Hsetup as [-> _].
Qed.

Lemma thread_warning_is_lost_witness :
  let w := open_world [22] 4 in
  let data := mkRequest (Some "h"%string) "22,80" 20 1000 in
  let m := scan_completed in
  let m' := (api_start_scan w 1 data m).1 in
  (active_scans (user m) !! "1_h"%string = None → user m' = user m) ∧
  ∃ s, active_scans
         (scan_worker_setup w "1_h" "h" (user m')).1 !! "1_h"%string
       = Some s ∧
       Forall (λ e, level e ≠ "warning"%string) (logs s).
Proof.
  apply (thread_warning_is_lost (open_world [22] 4) 1
           (mkRequest (Some "h"%string) "22,80" 20 1000)
           scan_completed
           (api_start_scan (open_world [22] 4) 1
              (mkRequest (Some "h"%string) "22,80" 20 1000)
              scan_completed).1
           "1_h" "h" 1%nat 8 1000).
  vm_compute. reflexivity.
Defined.

(** X16. [api_start_scan] accepts a thread count of 0 or less; the scan it
    starts then ends "failed" without a single probe, the thread pool
    having refused the count. *)
Theorem nonpositive_threads_fail_without_probing (w : World) (time : Z)
    (data : scan_request) (m m' : Machine Flask) (scan_id target : string)
    (ports : loc) (thread_count timeout : Z) :
  rq_threads data ≤ 0 →
  api_start_scan w time data m =
    (m', Ok (Started scan_id target ports thread_count timeout)) →
  let out := scan_worker w scan_id target ports thread_count timeout m' in
  out.2 = Ok tt ∧
  status_of (user out.1) scan_id = Some "failed"%string ∧
  probed (trace out.1) = probed (trace m).
Proof.
  intros Hthreads Hstart.
  destruct (api_start_scan_inv _ _ _ _ _ _ _ _ _ _ Hstart)
    as (n & t & l & Hcpu & _ & _ & _ & Htc & _ & Hl & _ & _ & Htr & _).
  assert (thread_count ≤ Z.pos n * 2) as Hle by lia.
  assert (pool_size (MAX_THREAD_COUNT (tm m')) thread_count (Z.pos n * 2)
            (length l) ≤ 0) as Hpool.
  { unfold pool_size, effective_thread_count,
      threading_module.optimal_thread_count.
    destruct (Z.gtb_spec thread_count (Z.pos n * 2)); simpl; lia. }
  simpl. split.
  { assert (spec (λ _, True)
              (scan_worker w scan_id target ports thread_count timeout)
              (λ _ _, True) (λ _ _, False)) as Hspec.
    { unfold scan_worker.
      apply (spec_try_catch _ _ _ _ (λ _, on_user (registered scan_id))).
      - eapply (spec_bind _ _ _
                  (λ go_on : bool,
                     on_user (λ f, if go_on then registered scan_id f
                                   else ended scan_id f))).
        + eapply spec_post;
            [apply (spec_in_user _ _ _ _
                      (scan_worker_setup_spec w scan_id target))
            | done | done].
        + intros [|]; [|by intros m1 Hm1].
          eapply spec_post; [apply scan_worker_scan_spec | done | done].
      - intros e. eapply spec_post;
          [apply scan_worker_except_spec | done | done]. }
    specialize (Hspec m' I).
    by destruct (scan_worker w scan_id target ports thread_count timeout m')
      as [m2 [[]|e]]. }
  destruct (scan_worker_run_trace w scan_id target ports thread_count
              timeout m' l n Hl Hcpu Hle) as [[-> ?]|(k & -> & Hnonpos)].
  - by rewrite Htr.
  - destruct (Hnonpos Hpool) as [-> ?]. split; [done|].
    rewrite probed_app, Htr. simpl. apply app_nil_r.
Qed.

Lemma nonpositive_threads_fail_without_probing_witness :
  let w := open_world [22] 4 in
  let data := mkRequest (Some "h"%string) "22,80" 0 1000 in
  let m := initial_machine w in
  let out := scan_worker w "1_h" "h" 1%nat 0 1000
               (api_start_scan w 1 data m).1 in
  out.2 = Ok tt ∧
  status_of (user out.1) "1_h" = Some "failed"%string ∧
  probed (trace out.1) = probed (trace m).
Proof.
  apply (nonpositive_threads_fail_without_probing (open_world [22] 4) 1
           (mkRequest (Some "h"%string) "22,80" 0 1000)
           (initial_machine (open_world [22] 4))
           (api_start_scan (open_world [22] 4) 1
              (mkRequest (Some "h"%string) "22,80" 0 1000)
              (initial_machine (open_world [22] 4))).1
           "1_h" "h" 1%nat 0 1000).
  - simpl. lia.
  - vm_compute. reflexivity.
Defined.

(** ** data_export_layer: the rows of an export *)

Lemma all_chars_append (P : ascii → bool) (s1 s2 : string) :
  all_chars P (s1 +:+ s2) = all_chars P s1 && all_chars P s2.
Proof.
  induction s1 as [|c s1 IH]; simpl; [done|]. rewrite IH.
  by rewrite andb_assoc.
Qed.

Lemma all_chars_substring (P : ascii → bool) (s : string) :
  all_chars P s = true → ∀ n k, all_chars P (substring n k s) = true.
Proof.
  induction s as [|c s IH]; intros Hs [|n] [|k]; simpl in *; try done.
  - apply andb_true_iff in Hs as [Hc Hs]. rewrite Hc. simpl. by apply IH.
  - apply andb_true_iff in Hs as [Hc Hs]. by apply IH.
  - apply andb_true_iff in Hs as [Hc Hs]. by apply IH.
Qed.

(** Replacing keeps what holds of every character of the text and of the
    replacement. *)
Lemma all_chars_replace_from (P : ascii → bool) (old new : string) :
  all_chars P new = true →
  ∀ s skip, all_chars P s = true →
            all_chars P (replace_from old new s skip) = true.
Proof.
  intros Hnew. induction s as [|c s IH]; intros skip Hs; [done|].
  cbn [replace_from]. simpl in Hs. apply andb_true_iff in Hs as [Hc Hs].
  destruct skip as [|k]; [|by apply IH].
  destruct (String.prefix old (String c s)).
  - rewrite all_chars_append, Hnew. simpl. by apply IH.
  - cbn [all_chars]. rewrite Hc. simpl. by apply IH.
Qed.

(** Replacing a character removes it. *)
Lemma replace_char_removes (c : ascii) (new : string) :
  all_chars (λ d, negb (Ascii.eqb d c)) new = true →
  ∀ s, all_chars (λ d, negb (Ascii.eqb d c))
         (str_replace (String c EmptyString) new s) = true.
Proof.
  intros Hnew. unfold str_replace.
  induction s as [|d s IH]; simpl; [done|].
  destruct (ascii_dec c d) as [->|Hne].
  - assert (String.prefix "" s = true) as -> by (by destruct s).
    by rewrite all_chars_append, Hnew, IH.
  - simpl. rewrite IH, andb_true_r. apply negb_true_iff.
    apply Ascii.eqb_neq. congruence.
Qed.

Lemma all_chars_and (P Q : ascii → bool) (s : string) :
  all_chars P s = true → all_chars Q s = true →
  all_chars (λ c, P c && Q c) s = true.
Proof.
  induction s as [|c s IH]; simpl; [done|].
  intros [-> ?]%andb_true_iff [-> ?]%andb_true_iff. simpl. by apply IH.
Qed.

(** The three replacements leave no carriage return and no line feed. *)
Lemma no_newline_after_replacing (new s : string) :
  all_chars not_newline new = true →
  all_chars not_newline
    (str_replace (String CR EmptyString) new
       (str_replace (String LF EmptyString) new
          (str_replace CRLF new s))) = true.
Proof.
  intros Hnew.
  assert (all_chars (λ d, negb (Ascii.eqb d CR)) new = true ∧
          all_chars (λ d, negb (Ascii.eqb d LF)) new = true) as [Hcr Hlf].
  { clear s. induction new as [|c new IH]; simpl in *; [done|].
    apply andb_true_iff in Hnew as [Hc Hnew].
    apply andb_true_iff in Hc as [-> ->]. simpl. by apply IH. }
  apply (all_chars_and (λ d, negb (Ascii.eqb d CR))
           (λ d, negb (Ascii.eqb d LF))).
  - by apply replace_char_removes.
  - apply all_chars_replace_from; [done|]. by apply replace_char_removes.
Qed.

Lemma length_substring_exact (s : string) (k : nat) :
  (k ≤ String.length s)%nat → String.length (substring 0 k s) = k.
Proof.
  revert k. induction s as [|c s IH]; intros [|k] Hk; simpl in *;
    try done; try lia.
  rewrite IH; lia.
Qed.

Import data_export_layer.

Lemma clean_banner_fits (banner : string) :
  Z.of_nat (String.length (clean_banner banner)) ≤ 500 ∧
  all_chars not_newline (clean_banner banner) = true.
Proof.
  unfold clean_banner.
  set (b := str_replace _ _ (str_replace _ _ (str_replace _ _ banner))).
  assert (all_chars not_newline b = true) as Hb
    by (by apply no_newline_after_replacing).
  destruct (Z.gtb_spec (Z.of_nat (String.length b)) 500) as [Hlong|Hshort].
  - split.
    + rewrite length_append, length_substring_exact by lia. simpl. lia.
    + rewrite all_chars_append, all_chars_substring by done. done.
  - by split.
Qed.

Lemma add_rows_map (w : World) (host scan_time : string)
    (items : list (Z * port_data)) :
  ∀ data,
    add_rows w host scan_time items data =
    data ++ ((λ x, row w host scan_time x.1 x.2) <$> items).
Proof.
  induction items as [|[port d] rest IH]; intros data; simpl.
  - by rewrite app_nil_r.
  - rewrite IH. by rewrite <- app_assoc.
Qed.

(** X17. [_prepare_data] returns the header followed by one row for each
    item of the results, in their order; every row has the nine columns of
    the header; the row of a port holds the host, the port number,
    "Open", the service, version and server as they are, and a banner of
    at most 500 characters in which no carriage return or line feed is
    left. *)
Theorem prepare_data_rows (w : World) (scan_time host : string)
    (items : list (Z * port_data)) :
  let data := _prepare_data w scan_time items host in
  data = header :: ((λ x, row w host scan_time x.1 x.2) <$> items) ∧
  Forall (λ r, length r = length header) data ∧
  ∀ (i : nat) (port : Z) (d : port_data),
    items !! i = Some (port, d) →
    ∃ banner ssl,
      data !! S i =
        Some [host; pretty port; "Open"%string; pd_service d; pd_version d;
              pd_server d; banner; ssl; scan_time] ∧
      Z.of_nat (String.length banner) ≤ 500 ∧
      all_chars not_newline banner = true.
Proof.
  simpl. unfold _prepare_data. rewrite add_rows_map. simpl.
  split_and!; [done| |].
  - constructor; [done|]. apply Forall_fmap, Forall_forall. by intros [p d] _.
  - intros i port d Hi. eexists _, _. split.
    + rewrite list_lookup_fmap, Hi. reflexivity.
    + apply clean_banner_fits.
Qed.

Lemma length_map_chars (f : ascii → ascii) (s : string) :
  String.length (map_chars f s) = String.length s.
Proof. induction s as [|c s IH]; simpl; [done | by rewrite IH]. Qed.

Lemma all_chars_map_chars (P : ascii → bool) (f : ascii → ascii)
    (s : string) :
  (∀ c, P (f c) = true) → all_chars P (map_chars f s) = true.
Proof.
  intros Hf. induction s as [|c s IH]; simpl; [done|]. by rewrite Hf, IH.
Qed.

Lemma all_chars_map_chars_keep (P : ascii → bool) (f : ascii → ascii)
    (s : string) :
  (∀ c, P c = true → P (f c) = true) →
  all_chars P s = true → all_chars P (map_chars f s) = true.
Proof.
  intros Hf. induction s as [|c s IH]; simpl; [done|].
  intros [Hc Hs]%andb_true_iff. by rewrite Hf, IH.
Qed.

Lemma pdf_text_fits (cell : string) :
  Z.of_nat (String.length (pdf_text cell)) ≤ 40 ∧
  all_chars is_ascii (pdf_text cell) = true ∧
  all_chars not_newline (pdf_text cell) = true.
Proof.
  unfold pdf_text.
  set (t := str_replace _ _ (str_replace _ _ (str_replace _ _ cell))).
  set (f := λ char : ascii, if is_ascii char then char else "?"%char).
  assert (all_chars not_newline t = true) as Ht
    by (by apply no_newline_after_replacing).
  assert (all_chars is_ascii (map_chars f t) = true) as Hascii.
  { apply all_chars_map_chars. intros c. unfold f.
    by destruct (is_ascii c) eqn:Hc. }
  assert (all_chars not_newline (map_chars f t) = true) as Hnl.
  { apply all_chars_map_chars_keep; [|done]. intros c Hc. unfold f.
    by destruct (is_ascii c). }
  destruct (Z.gtb_spec (Z.of_nat (String.length (map_chars f t))) 40)
    as [Hlong|Hshort].
  - split_and!.
    + rewrite length_append, length_substring_exact by lia. simpl. lia.
    + rewrite all_chars_append, all_chars_substring by done. done.
    + rewrite all_chars_append, all_chars_substring by done. done.
  - by split_and!.
Qed.

Lemma mapM_fmap_Some {A B C} (g : B → option C) (h : A → B) (k : A → C)
    (l : list A) :
  (∀ x, g (h x) = Some (k x)) → mapM g (h <$> l) = Some (k <$> l).
Proof.
  intros Hg. induction l as [|x l IH]; [done|].
  rewrite !fmap_cons. cbn [mapM]. rewrite Hg, IH. done.
Qed.

(** X18. The table [export_to_pdf] prints for the data of [_prepare_data]
    has one line for each result, made of the first six cells of its row;
    every text in it has at most 40 characters, all of them ASCII, and no
    carriage return or line feed. *)
Theorem pdf_rows_fit (w : World) (scan_time host : string)
    (items : list (Z * port_data)) :
  ∃ rows,
    pdf_rows (_prepare_data w scan_time items host) = Some rows ∧
    rows = (λ x, pdf_text <$> take 6 (row w host scan_time x.1 x.2))
             <$> items ∧
    Forall (λ r, length r = 6%nat ∧
                 Forall (λ text,
                           Z.of_nat (String.length text) ≤ 40 ∧
                           all_chars is_ascii text = true ∧
                           all_chars not_newline text = true) r) rows.
Proof.
  eexists. split_and!; [|reflexivity|].
  - unfold _prepare_data. rewrite add_rows_map. cbn [app]. unfold pdf_rows.
    assert (pdf_column_indices header = [0; 1; 2; 3; 4; 5]%nat) as ->
      by (vm_compute; reflexivity).
    by apply mapM_fmap_Some.
  - apply Forall_fmap, Forall_forall. intros [port d] _. simpl.
    split; [done|]. repeat (constructor; [apply pdf_text_fits|]).
    constructor.
Qed.

(** X19. In the cell "SSL Certificate" the test [any(ssl_cert.values())]
    decides nothing: for every certificate record the cell is the list of
    the details that are not empty, joined by ", ".  So a port whose TLS
    handshake failed is exported as "Issued To: Unknown, Issued By:
    Unknown". *)
Theorem ssl_cell_is_the_details (w : World) (c : ssl_info) (e : exn) :
  ssl_cell w (Some c) = String.concat ", " (cert_details c) ∧
  ssl_cell w (Some (ssl_info_failed e)) =
    "Issued To: Unknown, Issued By: Unknown"%string.
Proof.
  split; [|done]. unfold ssl_cell.
  destruct (any_value w c) eqn:Hany; [done|].
  unfold any_value in Hany. repeat apply orb_false_iff in Hany as [Hany ?].
  unfold cert_details, detail.
  by repeat match goal with H : truthy _ = false |- _ => rewrite H; clear H end.
Qed.

(** ** data_export_layer: validate_filename *)

Section filenames.
Context (unicode_word : ascii → bool).

Lemma sanitize_safe (s : string) :
  all_chars (safe_char unicode_word) (sanitize unicode_word s) = true.
Proof.
  apply all_chars_map_chars. intros c.
  by destruct (safe_char unicode_word c) eqn:Hc.
Qed.

Lemma sanitize_fixed (s : string) :
  all_chars (safe_char unicode_word) s = true → sanitize unicode_word s = s.
Proof.
  unfold sanitize. induction s as [|c s IH]; simpl; [done|].
  intros [-> Hs]%andb_true_iff. by rewrite IH.
Qed.

Lemma safe_has_no_slash (s : string) :
  all_chars (safe_char unicode_word) s = true → Py.contains "/" s = false.
Proof.
  induction s as [|c s IH]; simpl; [done|].
  intros [Hc Hs]%andb_true_iff. rewrite IH by done.
  destruct (Ascii.eqb_spec c "/") as [->|]; [|done].
  by compute in Hc.
Qed.

Lemma split_without_separator (sep : ascii) (s : string) :
  Py.contains sep s = false → Py.split sep s = [s].
Proof.
  induction s as [|c s IH]; simpl; [done|].
  intros [Hc Hs]%orb_false_iff. rewrite Hc, IH by done. done.
Qed.

Lemma rfind_from_absent (c : ascii) (s : string) :
  Py.contains c s = false → ∀ i last, rfind_from c s i last = last.
Proof.
  induction s as [|d s IH]; simpl; [done|].
  intros [Hd Hs]%orb_false_iff i last. rewrite Hd. by apply IH.
Qed.

Lemma rfind_from_ge (c : ascii) (s : string) :
  ∀ i last, 0 ≤ i → -1 ≤ last → -1 ≤ rfind_from c s i last.
Proof.
  induction s as [|d s IH]; simpl; intros i last Hi Hlast; [done|].
  apply IH; [lia|]. destruct (Ascii.eqb d c); lia.
Qed.

(** A name with an extension has a dot. *)
Lemma splitext_ext_dot (p : string) :
  Py.falsy (splitext_ext p) = false → Py.contains "." p = true.
Proof.
  intros Hext. destruct (Py.contains "." p) eqn:Hdot; [done|].
  unfold splitext_ext, rfind in Hext.
  rewrite (rfind_from_absent "." p Hdot) in Hext.
  pose proof (rfind_from_ge "/" p 0 (-1)) as Hsep.
  destruct (Z.gtb_spec (-1) (rfind_from "/" p 0 (-1))); [lia|]. done.
Qed.

Lemma validate_filename_inv (filename g : string) :
  validate_filename unicode_word filename = Ok g →
  g ≠ ""%string ∧
  all_chars (safe_char unicode_word) g = true ∧
  Py.contains "/" g = false ∧
  Py.contains "." g = true ∧
  validate_filename unicode_word g = Ok g.
Proof.
  unfold validate_filename at 1.
  destruct (Py.falsy filename); [done|].
  destruct (Py.falsy (splitext_ext _)) eqn:Hext; [done|].
  intros [= <-].
  set (g := sanitize unicode_word (basename filename)) in *.
  pose proof (sanitize_safe (basename filename)) as Hsafe. fold g in Hsafe.
  pose proof (safe_has_no_slash g Hsafe) as Hslash.
  assert (g ≠ ""%string) as Hne.
  { intros Hg. rewrite Hg in Hext. by compute in Hext. }
  split_and!; [done..| |].
  - by apply splitext_ext_dot.
  - unfold validate_filename, basename.
    rewrite (split_without_separator _ _ Hslash). simpl.
    rewrite (sanitize_fixed _ Hsafe), Hext.
    by destruct g.
Qed.

End filenames.

(** X20. A file name that [validate_filename] returns is not empty, is
    made of letters, digits, "_", "-" and "." only, so that it has no
    path separator, has a dot, and is returned unchanged when it is
    validated again. *)
Theorem validate_filename_safe (unicode_word : ascii → bool)
    (filename g : string) :
  validate_filename unicode_word filename = Ok g →
  g ≠ ""%string ∧
  all_chars (safe_char unicode_word) g = true ∧
  Py.contains "/" g = false ∧
  Py.contains "." g = true ∧
  validate_filename unicode_word g = Ok g.
Proof. apply validate_filename_inv. Qed.

Lemma validate_filename_safe_witness :
  "pass_wd.txt"%string ≠ ""%string ∧
  all_chars (safe_char (λ _, false)) "pass_wd.txt" = true ∧
  Py.contains "/" "pass_wd.txt" = false ∧
  Py.contains "." "pass_wd.txt" = true ∧
  validate_filename (λ _, false) "pass_wd.txt" = Ok "pass_wd.txt"%string.
Proof.
  apply (validate_filename_safe (λ _, false) "../../etc/pass wd.txt").
  vm_compute. reflexivity.
Defined.

(** What is refused: the empty name, a name without a dot, a name of dots
    only, and a name that ends in "/". *)
Lemma validate_filename_refused :
  validate_filename (λ _, false) "" = Raise ValueError ∧
  validate_filename (λ _, false) "report" = Raise ValueError ∧
  validate_filename (λ _, false) "..." = Raise ValueError ∧
  validate_filename (λ _, false) ".hidden" = Raise ValueError ∧
  validate_filename (λ _, false) "out/report.csv/" = Raise ValueError ∧
  validate_filename (λ _, false) "report." = Ok "report."%string.
Proof. vm_compute. split_and!; reflexivity. Qed.

(** ** Scans that nothing interrupts *)

Section uninterrupted.
Context {St : Type} (w : World) (host : string) (cb : option (callback St)).
Context (I : St → Prop) (self : ScannerEngine) (thread_count cap : Z).
Hypothesis cb_returns :
  callback_returns I (expected_call w self host thread_count cap) cb.

Lemma worker_returns (port : Z) (m : Machine St) :
  engine m = self → I (user m) →
  ∃ (u : St) (r : worker_result),
    scan_port_worker w host port cb m =
      (mkMachine u (heap m) (engine m) (tm m)
         (trace m ++ worker_events w self host (bool_decide (is_Some cb))
                       port), Ok r) ∧
    I u ∧ result_for w self host port r.
Proof.
  intros He HI.
  destruct (test_port_total w self host port) as [b Hb].
  assert (is_open_at w self host port = b) as Hopen
    by (unfold is_open_at; by rewrite Hb).
  unfold scan_port_worker, get_engine, emit, lift, bind, ret, in_user,
    worker_events.
  cbn [user heap engine tm trace]. rewrite He, Hb, Hopen.
  assert (∃ service info,
            (if b then fetch_service_info w port else Ok ""%string)
              = Ok service ∧
            (if b
             then match grab_banner w self host port service with
                  | Ok b0 => Ok (Some b0)
                  | Raise e => Raise e
                  end
             else Ok None) = Ok info) as (service & info & Hservice & Hinfo).
  { destruct b; [|by eexists _, _].
    destruct (fetch_service_info_total w port
                (test_port_open_in_range _ _ _ _ Hb)) as [name Hname].
    destruct (grab_banner_total w self host port name) as [i Hi].
    exists name, (Some i). by rewrite Hi. }
  destruct b.
  - rewrite Hservice. simpl in Hinfo.
    destruct (grab_banner w self host port service) as [b0|]; [|done].
    injection Hinfo as <-. cbn [user heap engine tm trace].
    destruct cb as [c|]; cbn [user heap engine tm trace].
    + pose proof (cb_returns c eq_refl port (StatusBool true)) as Hc.
      specialize (Hc (or_introl (f_equal StatusBool (eq_sym Hopen)))
                    (user m) HI).
      destruct (c port (StatusBool true) (user m)) as [u [[]|e]]; [|done].
      cbn [user heap engine tm trace]. rewrite <- app_assoc.
      exists u, (port, true, service, Some b0).
      rewrite bool_decide_eq_true_2 by eauto.
      split_and!; try done.
    + exists (user m), (port, true, service, Some b0).
      rewrite bool_decide_eq_false_2 by (by intros [? ?]).
      split_and!; try done.
  - injection Hservice as <-. injection Hinfo as <-.
    cbn [user heap engine tm trace].
    destruct cb as [c|]; cbn [user heap engine tm trace].
    + pose proof (cb_returns c eq_refl port (StatusBool false)) as Hc.
      specialize (Hc (or_introl (f_equal StatusBool (eq_sym Hopen)))
                    (user m) HI).
      destruct (c port (StatusBool false) (user m)) as [u [[]|e]]; [|done].
      cbn [user heap engine tm trace]. rewrite <- app_assoc.
      exists u, (port, false, ""%string, None).
      rewrite bool_decide_eq_true_2 by eauto.
      split_and!; try done.
    + exists (user m), (port, false, ""%string, None).
      rewrite bool_decide_eq_false_2 by (by intros [? ?]).
      split_and!; try done.
Qed.

Lemma pool_returns (L : list Z) :
  ∀ m : Machine St,
    engine m = self → I (user m) →
    ∃ (u : St) (rs : list worker_result),
      threading_module.run_pool (workers w host cb L) m =
        (mkMachine u (heap m) (engine m) (tm m)
           (trace m ++ flat_map (worker_events w self host
                                   (bool_decide (is_Some cb))) L),
         Ok <$> rs) ∧
      I u ∧ Forall2 (result_for w self host) L rs.
Proof.
  induction L as [|port L IH]; intros m He HI; simpl.
  - exists (user m), []. rewrite app_nil_r. destruct m. by split_and!.
  - destruct (worker_returns port m He HI) as (u & r & -> & Hu & Hr).
    set (m1 := mkMachine u _ _ _ _).
    destruct (IH m1 He Hu) as (u' & rs & Hpool & Hu' & Hrs).
    fold (workers w host cb L). rewrite Hpool.
    exists u', (r :: rs). subst m1. cbn [user heap engine tm trace].
    split_and!; [|done|by constructor].
    rewrite <- app_assoc. done.
Qed.

Lemma kept_Ok {A} (rs : list A) : kept (λ _, true) (Ok <$> rs) = rs.
Proof.
  induction rs as [|r rs IH]; [done|].
  change (kept (λ _, true) (Ok <$> r :: rs))
    with (r :: kept (λ _, true) (Ok <$> rs)).
  by rewrite IH.
Qed.

(** Without a stop signal and without a wait that times out, the results
    of all workers come back. *)
Lemma execute_tasks_returns (L : list Z) (count : Z) (m : Machine St) :
  engine m = self → I (user m) →
  w_stop_at w = None → (∀ i, w_future_timeout w i = false) →
  let tm0 := mkTM false (MAX_THREAD_COUNT (tm m)) in
  let optimal :=
    threading_module.optimal_thread_count tm0 (length L) count in
  0 < optimal →
  ∃ (u : St) (rs : list worker_result),
    threading_module.execute_tasks w (λ _ : worker_result, true)
      (workers w host cb L) count m =
      (mkMachine u (heap m) (engine m) tm0
         (trace m ++ ThreadPool optimal
            :: flat_map (worker_events w self host
                           (bool_decide (is_Some cb))) L), Ok rs) ∧
    I u ∧ Forall2 (result_for w self host) L rs.
Proof.
  intros He HI Hstop Htime tm0 optimal Hopt.
  unfold threading_module.execute_tasks, get_tm, set_tm, emit, bind, raise,
    ret.
  cbn [user heap engine tm trace MAX_THREAD_COUNT].
  rewrite !workers_length. fold tm0. fold optimal.
  destruct (Z.leb_spec optimal 0) as [Hle|_]; [lia|].
  rewrite (submit_all w tm0 (workers w host cb L) eq_refl Hstop).
  destruct (pool_returns L
              (mkMachine (user m) (heap m) (engine m) tm0
                 (trace m ++ [ThreadPool optimal])) He HI)
    as (u & rs & Hpool & Hu & Hrs).
  rewrite Hpool. cbn [user heap engine tm trace MAX_THREAD_COUNT].
  exists u, rs. split_and!; [|done..].
  rewrite (collect_all w tm0 _ _ _ eq_refl Hstop Htime), kept_Ok.
  unfold threading_module.stop_is_set. rewrite Hstop. simpl.
  rewrite <- app_assoc. done.
Qed.

(** Every open port of the list gets an entry. *)
Lemma collect_open_complete (L : list Z) (rs : list worker_result) :
  Forall2 (result_for w self host) L rs →
  ∀ (acc : gmap Z port_data) (p : Z),
    is_Some (acc !! p) ∨ (p ∈ L ∧ test_port w self host p = Ok true) →
    is_Some (collect_open rs acc !! p).
Proof.
  induction 1 as [|port [[[p0 o] service] info] L rs [Hp [Ho _]] _ IH];
    intros acc p; simpl.
  - intros [?|[Hin _]]; [done | by apply elem_of_nil in Hin].
  - simpl in Hp. subst p0. intros [Hacc|[Hin Hopen]].
    + apply IH. left. destruct o; [|done].
      destruct (decide (port = p)) as [->|Hne].
      * by rewrite lookup_insert_eq.
      * by rewrite lookup_insert_ne.
    + apply IH. apply elem_of_cons in Hin as [->|Hin]; [|by right].
      left. rewrite Hopen in Ho. injection Ho as <-.
      by rewrite lookup_insert_eq.
Qed.

(** Steps 9.5 to 9.10 of scan_ports. *)
Lemma scan_ports_tail_returns (ports : loc) (count : Z) (m : Machine St)
    (P : list Z) :
  heap m !! ports = Some P → engine m = self → I (user m) →
  w_stop_at w = None → (∀ i, w_future_timeout w i = false) →
  let tm0 := mkTM false (MAX_THREAD_COUNT (tm m)) in
  let optimal :=
    threading_module.optimal_thread_count tm0 (length P)
      (Z.min count (Z.of_nat (length P))) in
  0 < optimal →
  ∃ (u : St) (rs : list worker_result),
    (let* before := read_list ports in
     let effective_thread_count :=
       Z.min count (Z.of_nat (length before)) in
     let* _ := random_shuffle w ports in
     let* shuffled := read_list ports in
     let tasks :=
       (fun port => scan_port_worker w host port cb) <$> shuffled in
     let* results :=
       threading_module.execute_tasks w (fun _ : worker_result => true)
         tasks effective_thread_count in
     ret (collect_open results ∅)) m =
      (mkMachine u (<[ports := shuffle w P]> (heap m)) (engine m) tm0
         (trace m ++ ThreadPool optimal
            :: flat_map (worker_events w self host
                           (bool_decide (is_Some cb))) (shuffle w P)),
       Ok (collect_open rs ∅)) ∧
    I u ∧ Forall2 (result_for w self host) (shuffle w P) rs.
Proof.
  intros HP He HI Hstop Htime tm0 optimal Hopt.
  destruct (execute_tasks_returns (shuffle w P)
              (Z.min count (Z.of_nat (length P)))
              (mkMachine (user m) (<[ports := shuffle w P]> (heap m))
                 (engine m) (tm m) (trace m)) He HI Hstop Htime)
    as (u & rs & Hrun & Hu & Hrs).
  { cbn [tm]. by rewrite shuffle_length. }
  cbn [user heap engine tm trace] in Hrun. rewrite shuffle_length in Hrun.
  exists u, rs. split_and!; [|done..].
  rewrite bind_run, (read_list_run ports m P HP).
  rewrite bind_run, (random_shuffle_run w ports m P HP).
  rewrite bind_run, (read_list_run ports _ (shuffle w P))
    by (simpl; apply lookup_insert_eq).
  fold (workers w host cb (shuffle w P)).
  rewrite bind_run, Hrun. done.
Qed.

End uninterrupted.

Lemma scan_ports_returns {St} (w : World) (host : string)
    (cb : option (callback St)) (I : St → Prop) (self : ScannerEngine)
    (thread_count cap : Z) (ports : loc) (m : Machine St) (P : list Z)
    (n : positive) :
  callback_returns I (expected_call w self host thread_count cap) cb →
  cap = Z.pos n * 2 →
  heap m !! ports = Some P → engine m = self → I (user m) →
  w_cpu_count w = Some n →
  w_stop_at w = None → (∀ i, w_future_timeout w i = false) →
  0 < pool_size (MAX_THREAD_COUNT (tm m)) thread_count cap (length P) →
  ∃ (m' : Machine St) (rs : list worker_result),
    scan_ports w host ports thread_count cb m
      = (m', Ok (collect_open rs ∅)) ∧
    I (user m') ∧
    heap m' = <[ports := shuffle w P]> (heap m) ∧
    engine m' = engine m ∧
    trace m' =
      trace m ++ advisory_events thread_count cap cb
        ++ ThreadPool (pool_size (MAX_THREAD_COUNT (tm m)) thread_count cap
                         (length P))
        :: flat_map (worker_events w self host (bool_decide (is_Some cb)))
             (shuffle w P) ∧
    Forall2 (result_for w self host) (shuffle w P) rs.
Proof.
  intros cb_returns -> HP He HI Hcpu Hstop Htime Hopt.
  unfold pool_size, effective_thread_count in *.
  unfold scan_ports, coordinator.cpu_count, lift. rewrite Hcpu.
  rewrite bind_run. unfold advisory_events.
  destruct (thread_count >? Z.pos n * 2) eqn:Hgt.
  - destruct cb as [c|].
    + rewrite bind_run, bind_run, bind_run. unfold emit at 1.
      cbn [user heap engine tm trace]. rewrite in_user_run.
      cbn [user heap engine tm trace].
      pose proof (cb_returns c eq_refl 0
                    (StatusStr (advisory thread_count (Z.pos n * 2)))
                    (or_intror (conj eq_refl eq_refl)) (user m) HI) as Hc.
      destruct (c 0 (StatusStr (advisory thread_count (Z.pos n * 2)))
                  (user m)) as [u [[]|e]]; [|done].
      cbn [fst snd]. unfold ret at 1. unfold ret at 1.
      set (m1 := mkMachine u (heap m) (engine m) (tm m) _).
      destruct (scan_ports_tail_returns w host (Some c) I self thread_count
                  (Z.pos n * 2) cb_returns ports (Z.pos n * 2) m1 P HP He Hc
                  Hstop Htime Hopt) as (u' & rs & Hrun & Hu' & Hrs).
      eexists _, rs. split; [exact Hrun|]. subst m1.
      cbn [user heap engine tm trace]. rewrite <- app_assoc.
      by split_and!.
    + rewrite bind_run. unfold ret at 1. unfold ret at 1.
      destruct (scan_ports_tail_returns w host None I self thread_count
                  (Z.pos n * 2) cb_returns ports (Z.pos n * 2) m P HP He HI
                  Hstop Htime Hopt) as (u' & rs & Hrun & Hu' & Hrs).
      eexists _, rs. split; [exact Hrun|]. by split_and!.
  - unfold ret at 1.
    destruct (scan_ports_tail_returns w host cb I self thread_count
                (Z.pos n * 2) cb_returns ports thread_count m P HP He HI
                Hstop Htime Hopt) as (u' & rs & Hrun & Hu' & Hrs).
    eexists _, rs. split; [exact Hrun|].
    cbn [user heap engine tm trace]. split_and!; try done.
    by destruct cb.
Qed.


(** X21. The converse of the soundness of the results: when nothing stops
    the run, no wait for a future times out, the progress callback
    returns from the calls [scan_ports] makes of it, and a pool can be
    made, [scan_ports] returns a dictionary that has an entry for every
    port of the list that [test_port] reports open. *)
Theorem scan_ports_complete {St} (w : World) (host : string) (ports : loc)
    (thread_count : Z) (cb : option (callback St)) (m : Machine St)
    (P : list Z) (n : positive) (I : St → Prop) :
  heap m !! ports = Some P →
  w_cpu_count w = Some n →
  w_stop_at w = None →
  (∀ i, w_future_timeout w i = false) →
  callback_returns I
    (expected_call w (engine m) host thread_count (Z.pos n * 2)) cb →
  I (user m) →
  0 < pool_size (MAX_THREAD_COUNT (tm m)) thread_count (Z.pos n * 2)
        (length P) →
  ∃ found,
    (scan_ports w host ports thread_count cb m).2 = Ok found ∧
    ∀ port, port ∈ P → test_port w (engine m) host port = Ok true →
            is_Some (found !! port).
Proof.
  intros HP Hcpu Hstop Htime Hcb HI Hopt.
  destruct (scan_ports_returns w host cb I (engine m) thread_count
              (Z.pos n * 2) ports m P n Hcb eq_refl HP eq_refl HI Hcpu Hstop
              Htime Hopt) as (m' & rs & -> & _ & _ & _ & _ & Hrs).
  eexists. split; [reflexivity|]. intros port Hin Hopen.
  apply (collect_open_complete w host (engine m) _ _ Hrs). right.
  split; [|done]. by rewrite (shuffle_Permutation w P).
Qed.

Lemma scan_ports_complete_witness :
  let w := open_world [22; 80] 4 in
  let m := machine_with w 0%nat [22; 80; 443] in
  ∃ found,
    (scan_ports w "h" 1%nat 10 (Some counting_callback) m).2 = Ok found ∧
    ∀ port, port ∈ [22; 80; 443] →
            test_port w (engine m) "h" port = Ok true →
            is_Some (found !! port).
Proof.
  apply (scan_ports_complete (open_world [22; 80] 4) "h" 1%nat 10
           (Some counting_callback)
           (machine_with (open_world [22; 80] 4) 0%nat [22; 80; 443])
           [22; 80; 443] 4%positive (λ _, True)).
  - reflexivity.
  - reflexivity.
  - reflexivity.
  - intros i. reflexivity.
  - intros c Hc p s _ u _. injection Hc as <-. exact I.
  - exact I.
  - vm_compute. reflexivity.
Defined.

(** ** The scan a request starts, when nothing interrupts it *)

Lemma advisory_truthy (thread_count cap : Z) :
  status_truthy (StatusStr (advisory thread_count cap)) = true.
Proof. done. Qed.

(** The progress callback of a worker thread returns from every call
    [scan_ports] makes of it, as long as the port list is not empty. *)
Lemma update_progress_returns (w : World) (scan_id : string)
    (total_ports : Z) (self : ScannerEngine) (host : string)
    (thread_count cap : Z) :
  total_ports ≠ 0 →
  callback_returns (registered scan_id)
    (expected_call w self host thread_count cap)
    (Some (update_progress w scan_id total_ports)).
Proof.
  intros Htotal c [= <-] p s Hexpected f Hf. unfold update_progress.
  rewrite bind_run. unfold get at 1. rewrite bind_run. unfold put at 1.
  set (f1 := mkFlask _ _ _ _).
  assert (registered scan_id f1) as [s1 Hs1] by done.
  destruct (Z.eqb_spec total_ports 0) as [|_]; [done|].
  rewrite bind_run, (get_scan_run _ _ _ Hs1).
  rewrite bind_run. unfold set_scan at 1. rewrite bind_run.
  unfold get at 1, put at 1.
  set (f2 := mkFlask _ _ _ _).
  assert (registered scan_id f2) as Hf2.
  { unfold registered. subst f2. simpl. by rewrite lookup_insert_eq. }
  assert (status_truthy s = true →
          ∃ service, fetch_service_info w p = Ok service) as Hservice.
  { intros Htruthy. apply fetch_service_info_total.
    destruct Hexpected as [->|[-> _]]; [|done].
    simpl in Htruthy. unfold is_open_at in Htruthy.
    destruct (test_port w self host p) as [[]|] eqn:Hp; try done.
    by apply (test_port_open_in_range w self host). }
  destruct (status_truthy s); [|done].
  destruct (Hservice eq_refl) as [service ->].
  rewrite bind_run. unfold lift at 1.
  apply (add_log_returns scan_id _ _ _ f2 Hf2).
Qed.

(** Steps 11.7 to 11.9 on a registered scan. *)
Lemma scan_worker_finish_results (scan_id : string)
    (found : gmap Z port_data) (f : Flask) :
  registered scan_id f →
  ∃ f' s,
    (let* s := get_scan scan_id in
     let* _ := set_scan scan_id
                 (mkScan (status s) (progress s) (start_time s)
                    (end_time s) (logs s) found (cpu_cores s)) in
     let* _ :=
       if bool_decide (found = ∅)
       then add_log scan_id "Scan completed. No open ports found."
              "warning"
       else add_log scan_id
              ("Scan completed. Found " +:+ pretty (size found)
               +:+ " open ports.") "info" in
     complete_scan scan_id "completed") f = (f', Ok tt) ∧
    active_scans f' !! scan_id = Some s ∧
    status s = "completed"%string ∧
    results s = found ∧
    scan_results f' !! scan_id = Some found.
Proof.
  intros [s Hs]. rewrite bind_run, (get_scan_run _ _ _ Hs).
  rewrite bind_run. unfold set_scan at 1. rewrite bind_run.
  unfold get at 1, put at 1.
  set (f1 := mkFlask _ _ _ _).
  assert (∃ s1, active_scans f1 !! scan_id = Some s1 ∧ results s1 = found)
    as (s1 & H1 & Hr1).
  { eexists. subst f1. simpl. by rewrite lookup_insert_eq. }
  rewrite bind_run.
  assert (∃ f2 s2,
            (if bool_decide (found = ∅)
             then add_log scan_id "Scan completed. No open ports found."
                    "warning"
             else add_log scan_id
                    ("Scan completed. Found " +:+ pretty (size found)
                     +:+ " open ports.") "info") f1 = (f2, Ok tt) ∧
            active_scans f2 !! scan_id = Some s2 ∧ results s2 = found)
    as (f2 & s2 & -> & H2 & Hr2).
  { destruct (bool_decide (found = ∅));
      rewrite (add_log_run _ _ _ _ _ H1); eexists _, _;
      (split; [reflexivity|]); simpl; by rewrite lookup_insert_eq. }
  rewrite (complete_scan_run _ _ _ _ H2). eexists _, _.
  split; [reflexivity|]. simpl. rewrite !lookup_insert_eq.
  split_and!; [reflexivity|done|done|by rewrite Hr2].
Qed.

(** X22. A scan started through the web interface with at least one
    thread, whose target resolves and which nothing interrupts (no stop
    signal reaches the pool, no wait for a future times out), ends
    "completed", and its results, which are then also the entry of
    [scan_results], have an entry for every requested port that
    [test_port] reports open under the timeout of the request. *)
Theorem web_scan_finds_open_ports (w : World) (time : Z)
    (data : scan_request) (m m' : Machine Flask) (scan_id target : string)
    (ports : loc) (thread_count timeout : Z) (ip_address : string) :
  api_start_scan w time data m =
    (m', Ok (Started scan_id target ports thread_count timeout)) →
  w_gethostbyname w target = Ok ip_address →
  w_stop_at w = None →
  (∀ i, w_future_timeout w i = false) →
  1 ≤ rq_threads data →
  0 < MAX_THREAD_COUNT (tm m) →
  let out := scan_worker w scan_id target ports thread_count timeout m' in
  ∃ (s : scan_state) (l : list Z),
    out.2 = Ok tt ∧
    active_scans (user out.1) !! scan_id = Some s ∧
    status s = "completed"%string ∧
    scan_results (user out.1) !! scan_id = Some (results s) ∧
    heap m' !! ports = Some l ∧
    ∀ port, port ∈ l →
            test_port w (set_timeout (engine m) timeout) target port
              = Ok true →
            is_Some (results s !! port).
Proof.
  intros Hstart Hresolve Hstop Htime Hthreads Hmax.
  destruct (api_start_scan_inv _ _ _ _ _ _ _ _ _ _ Hstart)
    as (n & t & l & Hcpu & _ & _ & _ & Htc & _ & Hl & Hne & _ & _ & He
        & Htm & _).
  destruct (scan_worker_setup_run w scan_id target (user m'))
    as (f1 & s1 & Hs1 & _ & _ & Hsetup).
  rewrite Hresolve in Hsetup. destruct Hsetup as [Hsetup _].
  set (cb := update_progress w scan_id (Z.of_nat (length l))).
  set (self := set_timeout (engine m') timeout).
  set (m2 := mkMachine
               (mkFlask (active_scans f1) (scan_results f1) (clock f1)
                  (<[scan_id := 0]> (completed_ports f1)))
               (heap m') self (tm m') (trace m')).
  assert (callback_returns (registered scan_id)
            (expected_call w self target thread_count (Z.pos n * 2))
            (Some cb)) as Hcb.
  { apply update_progress_returns. destruct l; [done|]. simpl. lia. }
  assert (registered scan_id (user m2)) as Hreg.
  { subst m2. simpl. unfold registered. simpl. by rewrite Hs1. }
  assert (0 < pool_size (MAX_THREAD_COUNT (tm m2)) thread_count
                (Z.pos n * 2) (length l)) as Hopt.
  { rewrite pool_size_min. subst m2. cbn [tm]. rewrite Htm.
    destruct l; [done|]. simpl length. lia. }
  destruct (scan_ports_returns w target (Some cb) (registered scan_id) self
              thread_count (Z.pos n * 2) ports m2 l n Hcb eq_refl Hl eq_refl
              Hreg Hcpu Hstop Htime Hopt)
    as (m3 & rs & Hrun & Hreg3 & _ & _ & _ & Hrs).
  destruct (scan_worker_finish_results scan_id (collect_open rs ∅)
              (user m3) Hreg3) as (f' & s & Hfin & Hs & Hst & Hres & Hpub).
  assert (scan_worker w scan_id target ports thread_count timeout m' =
            (mkMachine f' (heap m3) (engine m3) (tm m3) (trace m3), Ok tt))
    as Hout.
  { rewrite scan_worker_split, in_user_run, Hsetup. cbn [fst snd].
    unfold scan_worker_resume, try_catch, scan_worker_scan.
    rewrite bind_run. unfold get_engine at 1.
    rewrite bind_run. unfold set_engine at 1.
    cbn [user heap engine tm trace].
    rewrite bind_run, (read_list_run ports _ l) by done.
    rewrite bind_run, in_user_run.
    cbn [user heap engine tm trace fst snd bind get put].
    fold cb. fold self.
    change (mkMachine _ (heap m') self (tm m') (trace m')) with m2.
    rewrite bind_run, Hrun, in_user_run, Hfin. done. }
  simpl. rewrite Hout. cbn [fst snd user].
  exists s, l. split_and!; try done; [by rewrite Hres|].
  intros port Hin Hopen. rewrite Hres.
  apply (collect_open_complete w target self _ _ Hrs). right.
  split; [by rewrite (shuffle_Permutation w l)|].
  subst self. by rewrite He.
Qed.

Lemma web_scan_finds_open_ports_witness :
  let w := open_world [22; 80] 4 in
  let data := mkRequest (Some "h"%string) "22,80,443" 20 1000 in
  let m := initial_machine w in
  let m' := (api_start_scan w 1 data m).1 in
  let out := scan_worker w "1_h" "h" 1%nat 8 1000 m' in
  ∃ (s : scan_state) (l : list Z),
    out.2 = Ok tt ∧
    active_scans (user out.1) !! "1_h"%string = Some s ∧
    status s = "completed"%string ∧
    scan_results (user out.1) !! "1_h"%string = Some (results s) ∧
    heap m' !! 1%nat = Some l ∧
    ∀ port, port ∈ l →
            test_port w (set_timeout (engine m) 1000) "h" port = Ok true →
            is_Some (results s !! port).
Proof.
  apply (web_scan_finds_open_ports (open_world [22; 80] 4) 1
           (mkRequest (Some "h"%string) "22,80,443" 20 1000)
           (initial_machine (open_world [22; 80] 4))
           (api_start_scan (open_world [22; 80] 4) 1
              (mkRequest (Some "h"%string) "22,80,443" 20 1000)
              (initial_machine (open_world [22; 80] 4))).1
           "1_h" "h" 1%nat 8 1000 "h").
  - vm_compute. reflexivity.
  - reflexivity.
  - reflexivity.
  - intros i. reflexivity.
  - simpl. lia.
  - vm_compute. reflexivity.
Defined.

(** ** grab_http_banner: what the banner is *)

Lemma append_String (c : ascii) (s t : string) :
  (String c s +:+ t)%string = String c (s +:+ t).
Proof. done. Qed.

(** [text.split(sep)[0]] is what comes before the first [sep]. *)
Lemma before_sep_split (sep text : string) :
  ∃ rest,
    text = (before_sep sep text +:+ rest)%string ∧
    (rest = ""%string ∨ String.prefix sep rest = true).
Proof.
  induction text as [|c text (rest & IH & Hrest)].
  - exists ""%string. split; [done | by left].
  - cbn [before_sep].
    destruct (String.prefix sep (String c text)) eqn:Hprefix.
    + exists (String c text). split; [done | by right].
    + exists rest. rewrite append_String, <- IH. done.
Qed.

(** No separator begins inside [text.split(sep)[0]]. *)
Lemma before_sep_first (sep text : string) :
  ∀ i, (i < String.length (before_sep sep text))%nat →
       String.prefix sep (suffix_from i text) = false.
Proof.
  induction text as [|c text IH]; intros i Hi; [simpl in Hi; lia|].
  cbn [before_sep] in Hi.
  destruct (String.prefix sep (String c text)) eqn:Hprefix;
    [simpl in Hi; lia|].
  destruct i as [|i]; [done|]. cbn [suffix_from]. apply IH.
  simpl in Hi. lia.
Qed.

(** X23. [grab_http_banner] always returns its record.  When the socket
    is made, the timeout set, the connection made, the TLS wrapping (if
    asked for) done, the request sent and a response that is not empty
    received, the banner is the decoded response up to its first blank
    line: the text is the banner and a rest, the rest is empty or begins
    with CRLF CRLF, and CRLF CRLF begins nowhere inside the banner.  When
    one of these steps fails, or the response is empty, the record is
    returned with its three fields empty.  [banner] is the only field
    that can be set without a match of "Server: ". *)
Theorem http_banner_is_the_header_block (w : World) (self : ScannerEngine)
    (host : string) (port : Z) (use_ssl : bool) :
  let blank_line := (CRLF +:+ CRLF)%string in
  let wrapped := if use_ssl then w_wrap_socket w host port else Ok tt in
  ∃ info,
    grab_http_banner w self host port use_ssl = Ok info ∧
    (∀ response,
       w_socket w ForHttp host port = Ok tt →
       settimeout (banner_timeout self) = Ok tt →
       connect w ForHttp host port = Ok tt →
       wrapped = Ok tt →
       w_send_head w host port = Ok tt →
       http_response w host port = Ok response →
       response ≠ ""%string →
       ∃ rest,
         w_decode w response = (h_banner info +:+ rest)%string ∧
         (rest = ""%string ∨ String.prefix blank_line rest = true) ∧
         ∀ i, (i < String.length (h_banner info))%nat →
              String.prefix blank_line (suffix_from i (w_decode w response))
              = false) ∧
    ((∃ e, w_socket w ForHttp host port = Raise e)
     ∨ (∃ e, settimeout (banner_timeout self) = Raise e)
     ∨ (∃ e, connect w ForHttp host port = Raise e)
     ∨ (∃ e, wrapped = Raise e)
     ∨ (∃ e, w_send_head w host port = Raise e)
     ∨ (∃ e, http_response w host port = Raise e)
     ∨ http_response w host port = Ok ""%string →
     info = mkHttp "" "" "") ∧
    (∀ response,
       http_response w host port = Ok response →
       w_re_search w "Server: ([^\r\n]+)" (w_decode w response) = None →
       h_server info = ""%string ∧ h_version info = ""%string).
Proof.
  intros blank_line wrapped. subst wrapped.
  unfold grab_http_banner, try_except, rbind.
  destruct (w_socket w ForHttp host port) as [[]|];
    [|by eexists; split_and!; eauto].
  destruct (settimeout (banner_timeout self)) as [[]|];
    [|by eexists; split_and!; eauto].
  destruct (connect w ForHttp host port) as [[]|];
    [|by eexists; split_and!; eauto].
  destruct (if use_ssl then w_wrap_socket w host port else Ok ()) as [[]|];
    [|by eexists; split_and!; eauto].
  destruct (w_send_head w host port) as [[]|];
    [|by eexists; split_and!; eauto].
  destruct (http_response w host port) as [response|e];
    [|by eexists; split_and!; eauto].
  eexists. split; [reflexivity|]. unfold parse_http_response.
  destruct response as [|c response].
  { simpl. split_and!; [by intros ? _ _ _ _ _ [= <-]|done|done]. }
  assert (Py.falsy (String c response) = false) as -> by done.
  destruct (before_sep_split blank_line (w_decode w (String c response)))
    as (rest & Hsplit & Hrest).
  pose proof (before_sep_first blank_line (w_decode w (String c response)))
    as Hfirst.
  split_and!.
  - intros r _ _ _ _ _ [= <-] _. exists rest.
    destruct (w_re_search w "Server: ([^\r\n]+)"
                (w_decode w (String c response)))
      as [server_match|]; [|done].
    by destruct (w_re_search w "(\d+\.\d+\.\d+)"
                   (Py.strip (group 1 server_match))).
  - intros [[e [=]]|[[e [=]]|[[e [=]]|[[e [=]]|[[e [=]]|[[e [=]]|[=]]]]]]].
  - intros r [= <-] ->. done.
Qed.

(** The body's blank line is not where the banner ends. *)
Lemma http_banner_example :
  grab_http_banner http_world scanner_engine.init "h" 80 false =
    Ok (mkHttp ("HTTP/1.1 200 OK" +:+ CRLF +:+ "Server: x") "" "").
Proof. vm_compute. reflexivity. Qed.

(** ** The registry never forgets a scan *)

Lemma keeps_run {S A} (I : S → Prop) (c : SM S A) (s : S) :
  keeps I c → I s → I (c s).1.
Proof. intros Hc Hs. specialize (Hc s Hs). by destruct (c s) as [s' [a|e]]. Qed.

Lemma keeps_try_catch {S A} (I : S → Prop) (body : SM S A)
    (handler : exn → SM S A) :
  keeps I body → (∀ e, keeps I (handler e)) → keeps I (try_catch body handler).
Proof. intros Hb Hh. by apply (spec_try_catch _ _ _ _ (λ _, I)). Qed.

Lemma keeps_try_except_in {S A} (I : S → Prop) (body : SM S A)
    (catches : exn → bool) (handler : exn → SM S A) :
  keeps I body → (∀ e, keeps I (handler e)) →
  keeps I (try_except_in body catches handler).
Proof.
  intros Hb Hh s Hs. unfold try_except_in. specialize (Hb s Hs).
  destruct (body s) as [s1 [a|e]]; [done|].
  destruct (catches e); [by apply Hh | done].
Qed.

Section never_forgotten.
Context (w : World) (scan_id : string).

Lemma keeps_complete_scan (id st : string) :
  keeps (registered scan_id) (complete_scan id st).
Proof.
  intros f Hf. destruct (active_scans f !! id) as [s|] eqn:Hid.
  - rewrite (complete_scan_run _ _ _ _ Hid). unfold registered in *. simpl.
    destruct (decide (id = scan_id)) as [->|Hne].
    + by rewrite lookup_insert_eq.
    + by rewrite lookup_insert_ne.
  - by rewrite (complete_scan_run_absent _ _ _ Hid).
Qed.

Lemma keeps_scan_worker_setup (id target : string) :
  keeps (registered scan_id) (scan_worker_setup w id target).
Proof.
  unfold scan_worker_setup.
  apply keeps_bind; [apply keeps_now | intros t].
  apply keeps_bind; [apply keeps_set_scan | intros u].
  destruct (w_gethostbyname w target) as [ip_address|e].
  - apply keeps_bind; [|intros u1; apply keeps_ret].
    destruct (bool_decide (ip_address ≠ target));
      [apply keeps_add_log | apply keeps_ret].
  - apply keeps_bind; [apply keeps_add_log | intros u1].
    apply keeps_bind; [apply keeps_complete_scan | intros u2].
    apply keeps_ret.
Qed.

Lemma keeps_scan_worker (id target : string) (ports : loc)
    (thread_count timeout : Z) :
  keeps (on_user (registered scan_id))
    (scan_worker w id target ports thread_count timeout).
Proof.
  unfold scan_worker. apply keeps_try_catch.
  - apply keeps_bind.
    { apply keeps_in_user, keeps_scan_worker_setup. }
    intros [|]; [|apply keeps_ret]. unfold scan_worker_scan.
    apply keeps_bind; [apply keeps_get_engine | intros self].
    apply keeps_bind; [apply keeps_set_engine | intros u1].
    apply keeps_bind; [apply keeps_read_list | intros l].
    apply keeps_bind.
    { apply keeps_in_user. by intros f Hf. }
    intros u2. apply keeps_bind.
    { apply keeps_scan_ports. intros c [= <-] p s.
      apply keeps_update_progress. }
    intros found. apply keeps_in_user.
    apply keeps_bind; [apply keeps_get_scan | intros s].
    apply keeps_bind; [apply keeps_set_scan | intros u3].
    apply keeps_bind; [|intros u4; apply keeps_complete_scan].
    destruct (bool_decide (found = ∅)); apply keeps_add_log.
  - intros e. unfold scan_worker_except. apply keeps_in_user.
    apply keeps_bind; [apply keeps_add_log | intros u].
    apply keeps_complete_scan.
Qed.

Lemma keeps_api_stop_scan (id : string) :
  keeps (registered scan_id) (api_stop_scan id).
Proof.
  unfold api_stop_scan. apply keeps_bind; [apply keeps_get | intros f].
  destruct (active_scans f !! id); [|apply keeps_ret].
  apply keeps_bind; [apply keeps_complete_scan | intros u; apply keeps_ret].
Qed.

Lemma keeps_api_scan_status (id : string) (arg : option string) :
  keeps (registered scan_id) (api_scan_status w id arg).
Proof.
  unfold api_scan_status. apply keeps_bind; [apply keeps_get | intros f].
  destruct (active_scans f !! id) as [entry|]; [|apply keeps_ret].
  apply keeps_bind.
  { destruct (cpu_cores entry); [apply keeps_ret|].
    apply keeps_bind; [apply keeps_lift | intros n].
    apply keeps_bind; [apply keeps_set_scan | intros u; apply keeps_ret]. }
  intros scan_data. apply keeps_bind; [apply keeps_lift | intros i].
  apply keeps_ret.
Qed.

Lemma keeps_api_start_scan (time : Z) (data : scan_request) :
  keeps (on_user (registered scan_id)) (api_start_scan w time data).
Proof.
  unfold api_start_scan. destruct (rq_target data) as [t|]; [|apply keeps_ret].
  apply keeps_bind; [apply keeps_lift | intros cpus].
  apply keeps_bind.
  - apply keeps_try_except_in; [|intros e; apply keeps_ret].
    apply keeps_bind.
    + unfold parse_port_range. destruct (Py.falsy _); [apply keeps_ret|].
      apply keeps_bind; [apply keeps_lift | intros l].
      intros m Hm. unfold new_list. by destruct (alloc (heap m) _).
    + intros ports. apply keeps_bind; [apply keeps_read_list | intros l].
      destruct l; apply keeps_ret.
  - intros [early|ports]; [apply keeps_ret|].
    apply keeps_bind; [|intros u; apply keeps_ret].
    destruct (_ >? _); [|apply keeps_ret].
    apply keeps_in_user, keeps_add_log.
Qed.

End never_forgotten.

(** X24. Nothing removes a scan from [active_scans]: a scan that is
    registered is still registered after any worker thread has run (its
    own or that of another scan), after any stop request, any status
    request and any start request. *)
Theorem scans_are_never_forgotten (w : World) (scan_id : string)
    (m : Machine Flask) :
  registered scan_id (user m) →
  (∀ id target ports thread_count timeout,
     registered scan_id
       (user (scan_worker w id target ports thread_count timeout m).1)) ∧
  (∀ id, registered scan_id (api_stop_scan id (user m)).1) ∧
  (∀ id arg, registered scan_id (api_scan_status w id arg (user m)).1) ∧
  (∀ time data, registered scan_id (user (api_start_scan w time data m).1)).
Proof.
  intros Hm. split_and!.
  - intros id target ports thread_count timeout.
    by apply (keeps_run (on_user (registered scan_id))
                _ m (keeps_scan_worker w scan_id _ _ _ _ _)).
  - intros id. by apply (keeps_run _ _ _ (keeps_api_stop_scan scan_id id)).
  - intros id arg.
    by apply (keeps_run _ _ _ (keeps_api_scan_status w scan_id id arg)).
  - intros time data.
    by apply (keeps_run (on_user (registered scan_id))
                _ m (keeps_api_start_scan w scan_id time data)).
Qed.

Lemma scans_are_never_forgotten_witness :
  let w := ssh_world in
  let m := scan_completed in
  (∀ id target ports thread_count timeout,
     registered "1_h"
       (user (scan_worker w id target ports thread_count timeout m).1)) ∧
  (∀ id, registered "1_h" (api_stop_scan id (user m)).1) ∧
  (∀ id arg, registered "1_h" (api_scan_status w id arg (user m)).1) ∧
  (∀ time data, registered "1_h" (user (api_start_scan w time data m).1)).
Proof.
  apply (scans_are_never_forgotten ssh_world "1_h" scan_completed).
  vm_compute. by eexists.
Defined.

(** ** The limit of the threading module *)

(** X25. [ThreadingModule()] allows between 5 and 100 threads (20 when
    the CPU count is unknown), and on a machine of at most 50 CPUs this
    limit never lowers the count [scan_ports] asks [execute_tasks] for:
    the pool gets the requested count capped at twice the CPU count and
    at the number of ports. *)
Theorem own_limit_is_not_binding (w : World) (n : positive)
    (thread_count : Z) (n_ports : nat) :
  w_cpu_count w = Some n →
  Z.pos n ≤ 50 →
  5 ≤ MAX_THREAD_COUNT (threading_module.init w) ≤ 100 ∧
  pool_size (MAX_THREAD_COUNT (threading_module.init w)) thread_count
    (Z.pos n * 2) n_ports =
  effective_thread_count thread_count (Z.pos n * 2) n_ports.
Proof.
  intros Hcpu Hn. rewrite pool_size_min.
  unfold threading_module.init, effective_thread_count. rewrite Hcpu. simpl.
  destruct (Z.gtb_spec thread_count (Z.pos n * 2)); lia.
Qed.

Lemma own_limit_is_not_binding_witness :
  5 ≤ MAX_THREAD_COUNT (threading_module.init (closed_world 4)) ≤ 100 ∧
  pool_size (MAX_THREAD_COUNT (threading_module.init (closed_world 4))) 10
    (4 * 2) 21 =
  effective_thread_count 10 (4 * 2) 21.
Proof.
  apply (own_limit_is_not_binding (closed_world 4) 4%positive 10 21%nat).
  - reflexivity.
  - lia.
Defined.

(** With more CPUs it does: on 64 CPUs a request of 128 threads for 200
    ports gets a pool of 100; and without a CPU count the limit is 20. *)
Lemma own_limit_is_binding_example :
  pool_size (MAX_THREAD_COUNT (threading_module.init (closed_world 64))) 128
    (64 * 2) 200 = 100 ∧
  effective_thread_count 128 (64 * 2) 200 = 128 ∧
  MAX_THREAD_COUNT
    (threading_module.init
       (world_of (λ _, false) None Ok (Ok empty_cert) (Ok ""%string) []))
  = 20.
Proof. vm_compute. split_and!; reflexivity. Qed.

(** ** The command line, end to end *)

(** X26. On the command line, for arguments that [validate_args] accepts
    and that name the ports, the list [parse_port_range] makes is scanned
    without the pool refusing the thread count; when nothing interrupts
    the scan and the progress callback returns, [scan_ports] returns a
    dictionary that has an entry for every port of that list that
    [test_port] reports open. *)
Theorem command_line_scan_finds_open_ports {St} (w : World)
    (args : main.Namespace) (host : string) (cb : option (callback St))
    (m : Machine St) (n : positive) (I : St → Prop) :
  main.validate_args args = Ok true →
  main.truthy (main.ports args) = true →
  tm m = threading_module.init w →
  w_cpu_count w = Some n →
  w_stop_at w = None →
  (∀ i, w_future_timeout w i = false) →
  callback_returns I
    (expected_call w (engine m) host (main.threads args) (Z.pos n * 2)) cb →
  I (user m) →
  ∃ (m1 : Machine St) (ports : loc) (l : list Z)
    (found : gmap Z port_data),
    main.parse_port_range (main.ports args) m = (m1, Ok ports) ∧
    heap m1 !! ports = Some l ∧
    0 < pool_size (MAX_THREAD_COUNT (tm m1)) (main.threads args)
          (Z.pos n * 2) (length l) ∧
    (scan_ports w host ports (main.threads args) cb m1).2 = Ok found ∧
    ∀ port, port ∈ l → test_port w (engine m) host port = Ok true →
            is_Some (found !! port).
Proof.
  intros Hvalid Hports Htm Hcpu Hstop Htime Hcb HI.
  destruct (validate_args_parse_inv args m Hvalid)
    as (Hthreads & _ & _ & Hparse).
  destruct (Hparse Hports) as (l & Hrun & _ & Hne & _ & _).
  set (m1 := mkMachine (user m) (<[fresh (dom (heap m)) := l]> (heap m))
               (engine m) (tm m) (trace m)) in *.
  assert (heap m1 !! fresh (dom (heap m)) = Some l) as Hl
    by (subst m1; simpl; apply lookup_insert_eq).
  assert (0 < pool_size (MAX_THREAD_COUNT (tm m1)) (main.threads args)
                (Z.pos n * 2) (length l)) as Hopt.
  { rewrite pool_size_min. subst m1. cbn [tm]. rewrite Htm.
    pose proof (init_MAX_THREAD_COUNT w).
    destruct l; [done|]. simpl length. lia. }
  destruct (scan_ports_returns w host cb I (engine m) (main.threads args)
              (Z.pos n * 2) (fresh (dom (heap m))) m1 l n Hcb eq_refl Hl
              eq_refl HI Hcpu Hstop Htime Hopt)
    as (m' & rs & Hscan & _ & _ & _ & _ & Hrs).
  exists m1, (fresh (dom (heap m))), l, (collect_open rs ∅).
  split_and!; [done|done|done|by rewrite Hscan|].
  intros port Hin Hopen.
  apply (collect_open_complete w host (engine m) _ _ Hrs). right.
  split; [|done]. by rewrite (shuffle_Permutation w l).
Qed.

Lemma command_line_scan_finds_open_ports_witness :
  let w := open_world [22; 80] 4 in
  let args := main.mkArgs (Some "h"%string) (Some "443,80,22"%string)
                10 false in
  let m := machine_with w 0%nat [] in
  ∃ (m1 : Machine nat) (ports : loc) (l : list Z)
    (found : gmap Z port_data),
    main.parse_port_range (main.ports args) m = (m1, Ok ports) ∧
    heap m1 !! ports = Some l ∧
    0 < pool_size (MAX_THREAD_COUNT (tm m1)) (main.threads args)
          (4 * 2) (length l) ∧
    (scan_ports w "h" ports (main.threads args) (Some counting_callback)
       m1).2 = Ok found ∧
    ∀ port, port ∈ l → test_port w (engine m) "h" port = Ok true →
            is_Some (found !! port).
Proof.
  apply (command_line_scan_finds_open_ports (open_world [22; 80] 4)
           (main.mkArgs (Some "h"%string) (Some "443,80,22"%string) 10 false)
           "h" (Some counting_callback)
           (machine_with (open_world [22; 80] 4) 0%nat [])
           4%positive (λ _, True)).
  - vm_compute. reflexivity.
  - reflexivity.
  - reflexivity.
  - reflexivity.
  - reflexivity.
  - intros i. reflexivity.
  - intros c Hc p s _ u _. injection Hc as <-. exact I.
  - exact I.
Defined.
